(** * Intake form: media capture, upload orchestration and the two
    serverless handlers

    A shallow embedding of the client script (classes [VoiceRecorder] and
    [FileUploader], the listeners installed on [DOMContentLoaded]) and of
    the handlers [api/upload.js] and [api/submit.js], with the properties
    of the design document stated and settled on it.

    Conventions.
    - A JavaScript string is a [string]; only ASCII characters are ever
      compared or replaced by the code.
    - A value that is either a string or [undefined]/[null] is an
      [option string]; it is truthy when it is a non-empty string.
    - The client runs in a state-and-exception monad [M] over a [World]:
      the two controllers, the nodes of the document the script touches,
      and the browser (network log, clock, pending animation frames,
      armed timers, alerts, navigation). A method returns or throws, and
      what it wrote before throwing stays written.
    - The endpoints, the media recorder and the user are the environment:
      an [Env] answers requests, and an [Event] is one user action or one
      browser callback. A listener runs to completion before the next
      event: suspensions at [await] are not interleaved with other
      listeners.
    - Nodes that the script dereferences without a guard are taken to be
      in the page; nodes it looks up behind a guard may be missing. *)

From Stdlib Require Import String Ascii ZArith Lia.
From stdpp Require Import base tactics option list strings pretty gmap.

Local Open Scope string_scope.
Local Open Scope list_scope.

(* ================================================================== *)
(** * JavaScript strings *)
(* ================================================================== *)

Module Js.

(** The double quote and the line feed, which string literals here avoid. *)
Definition dq : ascii := "034"%char.
Definition nl : ascii := "010"%char.
Definition DQ : string := String dq EmptyString.
Definition NL : string := String nl EmptyString.

(** Truthiness of a value that is a string, [undefined] or [null]. *)
Definition truthy (v : option string) : bool :=
  match v with
  | Some (String _ _) => true
  | _ => false
  end.

(** [a || b] on such values. *)
Definition or_else (v : option string) (d : string) : string :=
  match v with
  | Some (String c s) => String c s
  | _ => d
  end.

(** [s.split(sep)] for a one-character separator: never empty, the empty
    string gives one empty segment. *)
Fixpoint split (sep : ascii) (s : string) : list string :=
  match s with
  | EmptyString => [EmptyString]
  | String c rest =>
      if Ascii.eqb c sep then EmptyString :: split sep rest
      else match split sep rest with
           | seg :: segs => String c seg :: segs
           | [] => [String c EmptyString]
           end
  end.

(** [xs.pop()] as an expression: the last element, [undefined] on []. *)
Definition pop (xs : list string) : option string := last xs.

(** [xs.join(sep)]. *)
Fixpoint join (sep : string) (xs : list string) : string :=
  match xs with
  | [] => EmptyString
  | [x] => x
  | x :: rest => x +:+ sep +:+ join sep rest
  end.

(** [s.replace(/c/g, r)] for a one-character pattern. *)
Fixpoint replace_all (c : ascii) (r : string) (s : string) : string :=
  match s with
  | EmptyString => EmptyString
  | String a rest =>
      (if Ascii.eqb a c then r else String a EmptyString)
        +:+ replace_all c r rest
  end.

(** [s.startsWith(p)] and [s.includes(p)]. *)
Definition startsWith (p s : string) : bool := String.prefix p s.

Fixpoint includes (p s : string) : bool :=
  String.prefix p s ||
  match s with
  | EmptyString => false
  | String _ rest => includes p rest
  end.

(** [n.toString()] for a non-negative integer. *)
Definition num (n : nat) : string := pretty n.
Definition numN (n : N) : string := pretty n.

End Js.

(* ================================================================== *)
(** * api/submit.js: the email body *)
(* ================================================================== *)

Module Submit.
Import Js.

(** [escapeHtml(text)]: six global replacements, in the order of the
    source, after the falsy guard. *)
Definition escapeHtml (text : option string) : string :=
  match text with
  | None => EmptyString
  | Some EmptyString => EmptyString
  | Some t =>
      replace_all nl "<br>"
        (replace_all "'" "&#039;"
           (replace_all dq "&quot;"
              (replace_all ">" "&gt;"
                 (replace_all "<" "&lt;"
                    (replace_all "&" "&amp;" t)))))
  end.

(** The flattened form data: [data[key]] is [data !! key]. *)
Definition Data : Type := gmap string string.

Record Section_ := { title : string; fields : list (string * option string) }.

Definition sections (data : Data) : list Section_ :=
  [ {| title := "Contact Information";
       fields := [ ("Name", data !! "name");
                   ("Email", data !! "email");
                   ("Phone", data !! "phone");
                   ("Company", data !! "company") ] |};
    {| title := "About Their Business";
       fields := [ ("Business Description", data !! "business-description");
                   ("Current Website", data !! "current-website");
                   ("What's Working", data !! "site-working");
                   ("What's NOT Working", data !! "site-frustrations");
                   ("Ideal Customer", data !! "ideal-customer");
                   ("Market Positioning", data !! "positioning") ] |};
    {| title := "Project Details";
       fields := [ ("How Customers Find Them", data !! "lead-source");
                   ("Primary Conversion Goal", data !! "conversion-goal");
                   ("Project Type", data !! "project-type");
                   ("Pages Needed", data !! "pages-needed");
                   ("Features", data !! "features") ] |};
    {| title := "Assets & Content";
       fields := [ ("Has Logo", data !! "has-logo");
                   ("Has Photos", data !! "has-photos");
                   ("Has Copy", data !! "has-copy") ] |};
    {| title := "Design & Timeline";
       fields := [ ("Inspiration Sites", data !! "inspiration");
                   ("Why They Like Them", data !! "inspiration-why");
                   ("Timeline", data !! "timeline");
                   ("Budget", data !! "budget") ] |};
    {| title := "After Launch";
       fields := [ ("Post-Launch Preference", data !! "post-launch") ] |};
    {| title := "Additional Info";
       fields := [ ("Additional Details", data !! "additional");
                   ("Referral Source", data !! "referral") ] |} ].

(** The literal parts of the template strings. *)
Definition h2_style : string :=
  "color: #374151; font-size: 16px; margin-top: 24px; margin-bottom: 12px;".

Definition html_head : string :=
  NL +:+ "    <div style=" +:+ DQ +:+
  "font-family: -apple-system, BlinkMacSystemFont, 'Segoe UI', Roboto, sans-serif; max-width: 600px; margin: 0 auto;"
  +:+ DQ +:+ ">" +:+ NL +:+
  "      <h1 style=" +:+ DQ +:+
  "color: #111827; border-bottom: 2px solid #e5e7eb; padding-bottom: 12px;"
  +:+ DQ +:+ ">New Project Inquiry</h1>" +:+ NL +:+ "  ".

Definition section_head (t : string) : string :=
  "<h2 style=" +:+ DQ +:+ h2_style +:+ DQ +:+ ">" +:+ t +:+ "</h2>".

Definition table_open : string :=
  "<table style=" +:+ DQ +:+ "width: 100%; border-collapse: collapse;"
  +:+ DQ +:+ ">".

Definition row (label cell : string) : string :=
  NL +:+ "          <tr>" +:+ NL +:+
  "            <td style=" +:+ DQ +:+
  "padding: 8px 0; color: #6b7280; width: 140px; vertical-align: top;"
  +:+ DQ +:+ ">" +:+ label +:+ "</td>" +:+ NL +:+
  "            <td style=" +:+ DQ +:+ "padding: 8px 0; color: #111827;"
  +:+ DQ +:+ ">" +:+ cell +:+ "</td>" +:+ NL +:+
  "          </tr>" +:+ NL +:+ "        ".

Definition audio_block (href : string) : string :=
  NL +:+ "      <h2 style=" +:+ DQ +:+ h2_style +:+ DQ +:+
  ">Voice Recording</h2>" +:+ NL +:+
  "      <p style=" +:+ DQ +:+ "color: #111827;" +:+ DQ +:+ ">" +:+ NL +:+
  "        <a href=" +:+ DQ +:+ href +:+ DQ +:+ " style=" +:+ DQ +:+
  "color: #2563eb; text-decoration: underline;" +:+ DQ +:+
  ">Listen to recording</a>" +:+ NL +:+
  "      </p>" +:+ NL +:+ "    ".

Definition images_head (count : string) : string :=
  NL +:+ "      <h2 style=" +:+ DQ +:+ h2_style +:+ DQ +:+
  ">Uploaded Images (" +:+ count +:+ ")</h2>" +:+ NL +:+
  "      <div style=" +:+ DQ +:+ "display: flex; flex-wrap: wrap; gap: 8px;"
  +:+ DQ +:+ ">" +:+ NL +:+ "    ".

Definition image_block (href src : string) : string :=
  NL +:+ "        <a href=" +:+ DQ +:+ href +:+ DQ +:+ " target=" +:+ DQ +:+
  "_blank" +:+ DQ +:+ " style=" +:+ DQ +:+ "display: inline-block;" +:+ DQ
  +:+ ">" +:+ NL +:+
  "          <img src=" +:+ DQ +:+ src +:+ DQ +:+ " style=" +:+ DQ +:+
  "width: 120px; height: 80px; object-fit: cover; border-radius: 4px; border: 1px solid #e5e7eb;"
  +:+ DQ +:+ ">" +:+ NL +:+
  "        </a>" +:+ NL +:+ "      ".

Definition html_foot : string :=
  NL +:+ "      <hr style=" +:+ DQ +:+
  "border: none; border-top: 1px solid #e5e7eb; margin-top: 32px;"
  +:+ DQ +:+ ">" +:+ NL +:+
  "      <p style=" +:+ DQ +:+ "color: #9ca3af; font-size: 12px;" +:+ DQ
  +:+ ">Submitted via intake.sailorskills.com</p>" +:+ NL +:+
  "    </div>" +:+ NL +:+ "  ".

(** [formatEmailBody(data)]: the accumulator [html] is threaded through
    the loops as the source does with [html += ...]. *)
Definition formatEmailBody (data : Data) : string :=
  let html := html_head in
  let html :=
    fold_left
      (fun html section =>
         let html := html +:+ section_head (title section) in
         let html := html +:+ table_open in
         let html :=
           fold_left
             (fun html '(label, value) =>
                if truthy value
                then html +:+ row label (escapeHtml value)
                else html)
             (fields section) html in
         html +:+ "</table>")
      (sections data) html in
  let html :=
    if truthy (data !! "audio-url")
    then html +:+ audio_block (escapeHtml (data !! "audio-url"))
    else html in
  let html :=
    match data !! "image-urls" with
    | Some (String c s) =>
        let imageUrls := split "," (String c s) in
        let html := html +:+ images_head (num (length imageUrls)) in
        let html :=
          fold_left
            (fun html url =>
               html +:+ image_block (escapeHtml (Some url))
                                    (escapeHtml (Some url)))
            imageUrls html in
        html +:+ "</div>"
    | _ => html
    end in
  html +:+ html_foot.

(** ** The handler *)

(** A field as the multipart parser hands it over: one string, or an
    array of strings. *)
Inductive FieldValue :=
  | Single (s : string)
  | Many (xs : list string).

(** [Array.isArray(value) ? value[0] : value]; [None] is [undefined]. *)
Definition first_value (v : FieldValue) : option string :=
  match v with
  | Single s => Some s
  | Many xs => head xs
  end.

(** The loop that flattens the fields into [data]. *)
Definition flatten (fields : gmap string FieldValue) : Data :=
  omap first_value fields.

(** The message handed to the mail service. *)
Record Email := {
  from : string;
  to : list string;
  subject : string;
  html : string;
  reply_to : option string
}.

(** The outcome of the request to the mail service: the promise rejects,
    or resolves to a response with its [ok] attribute. *)
Inductive SendResult :=
  | SendRejected
  | SendStatus (ok : bool).

Record Request := {
  method : string;
  (** [None]: the parser reports an error. *)
  parsed : option (gmap string FieldValue)
}.

Inductive Reply :=
  | ReplyError (status : nat) (error : string)
  | ReplyRedirect (status : nat) (location : string).

Definition compose (data : Data) : Email :=
  {| from := "Intake Form <intake@sailorskills.com>";
     to := ["standardhuman@gmail.com"];
     subject := "New Project Inquiry: "
                +:+ or_else (data !! "company") "Unknown Company";
     html := formatEmailBody data;
     reply_to := data !! "email" |}.

(** [handler(req, res)]: the reply, and the message given to the mail
    service if the run got that far. [send] is the mail service. *)
Definition handler (send : Email -> SendResult) (req : Request)
    : Reply * option Email :=
  if negb (String.eqb (method req) "POST")
  then (ReplyError 405 "Method not allowed", None)
  else
    let failed := ReplyError 500 "Failed to submit form" in
    match parsed req with
    | None => (failed, None)
    | Some fields =>
        let data := flatten fields in
        let email := compose data in
        match send email with
        | SendStatus true => (ReplyRedirect 302 "/thank-you.html", Some email)
        | _ => (failed, Some email)
        end
    end.

End Submit.

(* ================================================================== *)
(** * api/upload.js: the storage handler *)
(* ================================================================== *)

Module Upload.
Import Js.

(** A text field as the multipart parser hands it over: absent, one
    string, or an array of strings. *)
Inductive Field :=
  | FAbsent
  | FStr (s : string)
  | FArr (xs : list string).

(** The value of [fields.type?.[0] || fields.type || 'file']: a string, or
    the array itself when its first element is falsy. *)
Inductive TypeVal :=
  | TStr (s : string)
  | TArr (xs : list string).

Definition upload_type (f : Field) : TypeVal :=
  match f with
  | FAbsent => TStr "file"
  | FStr EmptyString => TStr "file"
  | FStr (String c _) => TStr (String c EmptyString)
  | FArr (String c s :: _) => TStr (String c s)
  | FArr xs => TArr xs
  end.

(** [type === 'audio'] and the interpolation of [type] in a template. *)
Definition is_audio (t : TypeVal) : bool :=
  match t with
  | TStr s => String.eqb s "audio"
  | TArr _ => false
  end.

Definition type_text (t : TypeVal) : string :=
  match t with
  | TStr s => s
  | TArr xs => join "," xs
  end.

Record UploadedFile := {
  filepath : string;
  originalFilename : option string;
  mimetype : option string
}.

(** [type === 'audio' ? 'webm'
      : (file.originalFilename?.split('.').pop() || 'jpg')]. *)
Definition extension (t : TypeVal) (file : UploadedFile) : string :=
  if is_audio t then "webm"
  else or_else (match originalFilename file with
                | None => None
                | Some n => pop (split "." n)
                end) "jpg".

(** The blob name; [timestamp] is [Date.now()] and [rnd] is
    [Math.random().toString(36).substring(7)]. *)
Definition filename (t : TypeVal) (timestamp : N) (rnd : string)
    (file : UploadedFile) : string :=
  "intake/" +:+ type_text t +:+ "/" +:+ numN timestamp +:+ "-" +:+ rnd
  +:+ "." +:+ extension t file.

(** What the handler needs from its surroundings. [None] stands for a
    call that throws. *)
Record Env := {
  now : N;
  random36 : string;
  readFileSync : string -> option string;
  put : string -> string -> option string -> option string;
  unlinkSync : string -> option unit
}.

Record Request := {
  method : string;
  (** [None]: the parser reports an error. Otherwise [fields.type] and
      [files.file]. *)
  parsed : option (Field * option (list UploadedFile))
}.

Record Stored := {
  stored_name : string;
  stored_content : string;
  stored_contentType : option string
}.

Inductive Reply :=
  | ReplyError (status : nat) (error : string)
  | ReplyUrl (status : nat) (url : string).

(** [handler(req, res)]: the reply together with the blob written, if the
    run got as far as [put]. *)
Definition handler (env : Env) (req : Request) : Reply * option Stored :=
  if negb (String.eqb (method req) "POST")
  then (ReplyError 405 "Method not allowed", None)
  else
    let failed := ReplyError 500 "Upload failed" in
    match parsed req with
    | None => (failed, None)
    | Some (type_field, files_file) =>
        let t := upload_type type_field in
        match files_file with
        | None => (ReplyError 400 "No file provided", None)
        | Some [] => (failed, None)
        | Some (file :: _) =>
            match readFileSync env (filepath file) with
            | None => (failed, None)
            | Some fileBuffer =>
                let name := filename t (now env) (random36 env) file in
                match put env name fileBuffer (mimetype file) with
                | None => (failed, None)
                | Some url =>
                    let blob := {| stored_name := name;
                                   stored_content := fileBuffer;
                                   stored_contentType := mimetype file |} in
                    match unlinkSync env (filepath file) with
                    | None => (failed, Some blob)
                    | Some _ => (ReplyUrl 200 url, Some blob)
                    end
                end
            end
        end
    end.

End Upload.

(* ================================================================== *)
(** * The client script: data *)
(* ================================================================== *)

Module Client.
Import Js.

(** ** Network *)

(** One entry of a [FormData]: a string, or a blob with its file name. *)
Inductive Part :=
  | PString (s : string)
  | PBlob (data type filename : string).

Record Request := {
  req_url : string;
  req_method : string;
  req_body : list (string * Part)
}.

(** What [await response.json()] followed by [.url] gives: it throws
    ([NotJson]), or yields the [url] member, [undefined] when absent. *)
Inductive Body :=
  | NotJson
  | JsonUrl (u : option string).

(** The outcome of [fetch]: the promise rejects, or resolves to a
    response with its [ok], [redirected] and [url] attributes. *)
Inductive Response :=
  | NetworkError
  | Reply (ok redirected : bool) (url : string) (body : Body).

#[export] Instance Part_eq_dec : EqDecision Part.
Proof. solve_decision. Defined.
#[export] Instance Request_eq_dec : EqDecision Request.
Proof. solve_decision. Defined.
#[export] Instance Body_eq_dec : EqDecision Body.
Proof. solve_decision. Defined.
#[export] Instance Response_eq_dec : EqDecision Response.
Proof. solve_decision. Defined.

(** ** Files and blobs *)

Record File := { file_name : string; file_type : string; file_data : string }.
Record Blob := { blob_data : string; blob_type : string }.

#[export] Instance File_eq_dec : EqDecision File.
Proof. solve_decision. Defined.
#[export] Instance Blob_eq_dec : EqDecision Blob.
Proof. solve_decision. Defined.

(** ** The parts of the browser the script does not own *)

Record Env := {
  (** the two endpoints, as seen through [fetch]: the answer may depend
      on everything exchanged so far *)
  server : list (Request * Response) -> Request -> Response;
  (** [MediaRecorder.isTypeSupported] *)
  isTypeSupported : string -> bool;
  (** the [mimeType] attribute of a recorder built for a requested type *)
  recorderMimeType : string -> string;
  (** whether [MediaRecorder.stop()] throws on an inactive recorder, as
      older engines do *)
  stopThrowsWhenInactive : bool
}.

(** The [MediaRecorder] object: [mr_stopping] holds between a stop and the
    delivery of the final [dataavailable] and [stop] events. *)
Record MediaRecorder := {
  mr_mimeType : string;
  mr_recording : bool;
  mr_stopping : bool
}.

(** ** class VoiceRecorder *)

Record VoiceRecorder := {
  mediaRecorder : option MediaRecorder;
  mimeType : string;
  audioChunks : list string;
  audioBlob : option Blob;
  audioUrl : option string;
  isRecording : bool;
  uploadedUrl : option string;
  analyser : bool;
  animationId : option nat;
  startTime : option nat;
  timerInterval : option nat
}.

(** ** class FileUploader *)

Record FileUploader := {
  files : list File;
  uploadedUrls : list (option string)
}.

(** ** The document *)

(** A thumbnail of the grid: the object URL its image shows and the file
    that URL was created for. The remove control of the thumbnail at
    position [i] calls [removeFile(i)]. *)
Record Thumb := { thumb_src : string; thumb_file : File }.

(** The [#file-preview] node: whether it carries the class [hidden], the
    text of the [#file-count] node among its children, if there is one,
    and the thumbnails the script put there. *)
Record Preview := {
  preview_hidden : bool;
  preview_count : option string;
  preview_thumbs : list Thumb
}.

#[export] Instance Thumb_eq_dec : EqDecision Thumb.
Proof. solve_decision. Defined.
#[export] Instance Preview_eq_dec : EqDecision Preview.
Proof. solve_decision. Defined.

(** The nodes the script reads and writes. Nodes it looks up behind a
    guard ([waveform], [recording-time]) may be missing; the others are
    dereferenced without a guard and are taken to be in the page, except
    [#file-count], which the script itself removes and creates: the page
    may have such a node before the preview in document order
    ([file_count_before]), inside it ([preview_count]) and after it
    ([file_count_after]); each holds the text of the first such node at
    that place, the only one a lookup by id can return. The canvas is
    abstracted to the number of polylines painted on it, the record
    button to its caption and colour. *)
Record Dom := {
  record_btn_label : string;
  record_btn_red : bool;
  recording_status_hidden : bool;
  audio_preview_hidden : bool;
  audio_player_src : option string;
  waveform : option nat;
  recording_time : option string;
  file_preview : Preview;
  file_count_before : option string;
  file_count_after : option string;
  submit_disabled : bool;
  submit_label : string;
  form_entries : list (string * Part)
}.

(** ** Timers, frames, network log, alerts, navigation *)

Record Browser := {
  log : list (Request * Response);
  clock : nat;
  raf_last : nat;
  frames : list nat;
  timer_last : nat;
  intervals : list nat;
  blob_last : nat;
  alerts : list string;
  location : option string
}.

Record World := {
  recorder : VoiceRecorder;
  uploader : FileUploader;
  dom : Dom;
  browser : Browser
}.

(** ** Field updates *)

Definition set_mediaRecorder v (r : VoiceRecorder) : VoiceRecorder :=
  {| mediaRecorder := v; mimeType := mimeType r; audioChunks := audioChunks r;
     audioBlob := audioBlob r; audioUrl := audioUrl r;
     isRecording := isRecording r; uploadedUrl := uploadedUrl r;
     analyser := analyser r; animationId := animationId r;
     startTime := startTime r; timerInterval := timerInterval r |}.
Definition set_mimeType v (r : VoiceRecorder) : VoiceRecorder :=
  {| mediaRecorder := mediaRecorder r; mimeType := v;
     audioChunks := audioChunks r; audioBlob := audioBlob r;
     audioUrl := audioUrl r; isRecording := isRecording r;
     uploadedUrl := uploadedUrl r; analyser := analyser r;
     animationId := animationId r; startTime := startTime r;
     timerInterval := timerInterval r |}.
Definition set_audioChunks v (r : VoiceRecorder) : VoiceRecorder :=
  {| mediaRecorder := mediaRecorder r; mimeType := mimeType r;
     audioChunks := v; audioBlob := audioBlob r; audioUrl := audioUrl r;
     isRecording := isRecording r; uploadedUrl := uploadedUrl r;
     analyser := analyser r; animationId := animationId r;
     startTime := startTime r; timerInterval := timerInterval r |}.
Definition set_audioBlob v (r : VoiceRecorder) : VoiceRecorder :=
  {| mediaRecorder := mediaRecorder r; mimeType := mimeType r;
     audioChunks := audioChunks r; audioBlob := v; audioUrl := audioUrl r;
     isRecording := isRecording r; uploadedUrl := uploadedUrl r;
     analyser := analyser r; animationId := animationId r;
     startTime := startTime r; timerInterval := timerInterval r |}.
Definition set_audioUrl v (r : VoiceRecorder) : VoiceRecorder :=
  {| mediaRecorder := mediaRecorder r; mimeType := mimeType r;
     audioChunks := audioChunks r; audioBlob := audioBlob r; audioUrl := v;
     isRecording := isRecording r; uploadedUrl := uploadedUrl r;
     analyser := analyser r; animationId := animationId r;
     startTime := startTime r; timerInterval := timerInterval r |}.
Definition set_isRecording v (r : VoiceRecorder) : VoiceRecorder :=
  {| mediaRecorder := mediaRecorder r; mimeType := mimeType r;
     audioChunks := audioChunks r; audioBlob := audioBlob r;
     audioUrl := audioUrl r; isRecording := v; uploadedUrl := uploadedUrl r;
     analyser := analyser r; animationId := animationId r;
     startTime := startTime r; timerInterval := timerInterval r |}.
Definition set_uploadedUrl v (r : VoiceRecorder) : VoiceRecorder :=
  {| mediaRecorder := mediaRecorder r; mimeType := mimeType r;
     audioChunks := audioChunks r; audioBlob := audioBlob r;
     audioUrl := audioUrl r; isRecording := isRecording r; uploadedUrl := v;
     analyser := analyser r; animationId := animationId r;
     startTime := startTime r; timerInterval := timerInterval r |}.
Definition set_analyser v (r : VoiceRecorder) : VoiceRecorder :=
  {| mediaRecorder := mediaRecorder r; mimeType := mimeType r;
     audioChunks := audioChunks r; audioBlob := audioBlob r;
     audioUrl := audioUrl r; isRecording := isRecording r;
     uploadedUrl := uploadedUrl r; analyser := v;
     animationId := animationId r; startTime := startTime r;
     timerInterval := timerInterval r |}.
Definition set_animationId v (r : VoiceRecorder) : VoiceRecorder :=
  {| mediaRecorder := mediaRecorder r; mimeType := mimeType r;
     audioChunks := audioChunks r; audioBlob := audioBlob r;
     audioUrl := audioUrl r; isRecording := isRecording r;
     uploadedUrl := uploadedUrl r; analyser := analyser r; animationId := v;
     startTime := startTime r; timerInterval := timerInterval r |}.
Definition set_startTime v (r : VoiceRecorder) : VoiceRecorder :=
  {| mediaRecorder := mediaRecorder r; mimeType := mimeType r;
     audioChunks := audioChunks r; audioBlob := audioBlob r;
     audioUrl := audioUrl r; isRecording := isRecording r;
     uploadedUrl := uploadedUrl r; analyser := analyser r;
     animationId := animationId r; startTime := v;
     timerInterval := timerInterval r |}.
Definition set_timerInterval v (r : VoiceRecorder) : VoiceRecorder :=
  {| mediaRecorder := mediaRecorder r; mimeType := mimeType r;
     audioChunks := audioChunks r; audioBlob := audioBlob r;
     audioUrl := audioUrl r; isRecording := isRecording r;
     uploadedUrl := uploadedUrl r; analyser := analyser r;
     animationId := animationId r; startTime := startTime r;
     timerInterval := v |}.

Definition set_files v (u : FileUploader) : FileUploader :=
  {| files := v; uploadedUrls := uploadedUrls u |}.
Definition set_uploadedUrls v (u : FileUploader) : FileUploader :=
  {| files := files u; uploadedUrls := v |}.

Definition set_record_btn (label : string) (red : bool) (d : Dom) : Dom :=
  {| record_btn_label := label; record_btn_red := red;
     recording_status_hidden := recording_status_hidden d;
     audio_preview_hidden := audio_preview_hidden d;
     audio_player_src := audio_player_src d; waveform := waveform d;
     recording_time := recording_time d; file_preview := file_preview d;
     file_count_before := file_count_before d;
     file_count_after := file_count_after d;
     submit_disabled := submit_disabled d; submit_label := submit_label d;
     form_entries := form_entries d |}.
Definition set_recording_status_hidden v (d : Dom) : Dom :=
  {| record_btn_label := record_btn_label d;
     record_btn_red := record_btn_red d; recording_status_hidden := v;
     audio_preview_hidden := audio_preview_hidden d;
     audio_player_src := audio_player_src d; waveform := waveform d;
     recording_time := recording_time d; file_preview := file_preview d;
     file_count_before := file_count_before d;
     file_count_after := file_count_after d;
     submit_disabled := submit_disabled d; submit_label := submit_label d;
     form_entries := form_entries d |}.
Definition set_audio_preview_hidden v (d : Dom) : Dom :=
  {| record_btn_label := record_btn_label d;
     record_btn_red := record_btn_red d;
     recording_status_hidden := recording_status_hidden d;
     audio_preview_hidden := v; audio_player_src := audio_player_src d;
     waveform := waveform d; recording_time := recording_time d;
     file_preview := file_preview d;
     file_count_before := file_count_before d;
     file_count_after := file_count_after d; submit_disabled := submit_disabled d;
     submit_label := submit_label d; form_entries := form_entries d |}.
Definition set_audio_player_src v (d : Dom) : Dom :=
  {| record_btn_label := record_btn_label d;
     record_btn_red := record_btn_red d;
     recording_status_hidden := recording_status_hidden d;
     audio_preview_hidden := audio_preview_hidden d; audio_player_src := v;
     waveform := waveform d; recording_time := recording_time d;
     file_preview := file_preview d;
     file_count_before := file_count_before d;
     file_count_after := file_count_after d; submit_disabled := submit_disabled d;
     submit_label := submit_label d; form_entries := form_entries d |}.
Definition set_waveform v (d : Dom) : Dom :=
  {| record_btn_label := record_btn_label d;
     record_btn_red := record_btn_red d;
     recording_status_hidden := recording_status_hidden d;
     audio_preview_hidden := audio_preview_hidden d;
     audio_player_src := audio_player_src d; waveform := v;
     recording_time := recording_time d; file_preview := file_preview d;
     file_count_before := file_count_before d;
     file_count_after := file_count_after d;
     submit_disabled := submit_disabled d; submit_label := submit_label d;
     form_entries := form_entries d |}.
Definition set_recording_time v (d : Dom) : Dom :=
  {| record_btn_label := record_btn_label d;
     record_btn_red := record_btn_red d;
     recording_status_hidden := recording_status_hidden d;
     audio_preview_hidden := audio_preview_hidden d;
     audio_player_src := audio_player_src d; waveform := waveform d;
     recording_time := v; file_preview := file_preview d;
     file_count_before := file_count_before d;
     file_count_after := file_count_after d;
     submit_disabled := submit_disabled d; submit_label := submit_label d;
     form_entries := form_entries d |}.
Definition set_file_preview v (d : Dom) : Dom :=
  {| record_btn_label := record_btn_label d;
     record_btn_red := record_btn_red d;
     recording_status_hidden := recording_status_hidden d;
     audio_preview_hidden := audio_preview_hidden d;
     audio_player_src := audio_player_src d; waveform := waveform d;
     recording_time := recording_time d; file_preview := v;
     file_count_before := file_count_before d;
     file_count_after := file_count_after d;
     submit_disabled := submit_disabled d; submit_label := submit_label d;
     form_entries := form_entries d |}.
Definition set_submit_disabled v (d : Dom) : Dom :=
  {| record_btn_label := record_btn_label d;
     record_btn_red := record_btn_red d;
     recording_status_hidden := recording_status_hidden d;
     audio_preview_hidden := audio_preview_hidden d;
     audio_player_src := audio_player_src d; waveform := waveform d;
     recording_time := recording_time d; file_preview := file_preview d;
     file_count_before := file_count_before d;
     file_count_after := file_count_after d;
     submit_disabled := v; submit_label := submit_label d;
     form_entries := form_entries d |}.
Definition set_submit_label v (d : Dom) : Dom :=
  {| record_btn_label := record_btn_label d;
     record_btn_red := record_btn_red d;
     recording_status_hidden := recording_status_hidden d;
     audio_preview_hidden := audio_preview_hidden d;
     audio_player_src := audio_player_src d; waveform := waveform d;
     recording_time := recording_time d; file_preview := file_preview d;
     file_count_before := file_count_before d;
     file_count_after := file_count_after d;
     submit_disabled := submit_disabled d; submit_label := v;
     form_entries := form_entries d |}.

Definition set_file_count_before v (d : Dom) : Dom :=
  {| record_btn_label := record_btn_label d;
     record_btn_red := record_btn_red d;
     recording_status_hidden := recording_status_hidden d;
     audio_preview_hidden := audio_preview_hidden d;
     audio_player_src := audio_player_src d; waveform := waveform d;
     recording_time := recording_time d; file_preview := file_preview d;
     file_count_before := v; file_count_after := file_count_after d;
     submit_disabled := submit_disabled d; submit_label := submit_label d;
     form_entries := form_entries d |}.
Definition set_file_count_after v (d : Dom) : Dom :=
  {| record_btn_label := record_btn_label d;
     record_btn_red := record_btn_red d;
     recording_status_hidden := recording_status_hidden d;
     audio_preview_hidden := audio_preview_hidden d;
     audio_player_src := audio_player_src d; waveform := waveform d;
     recording_time := recording_time d; file_preview := file_preview d;
     file_count_before := file_count_before d; file_count_after := v;
     submit_disabled := submit_disabled d; submit_label := submit_label d;
     form_entries := form_entries d |}.

Definition set_preview_hidden v (p : Preview) : Preview :=
  {| preview_hidden := v; preview_count := preview_count p;
     preview_thumbs := preview_thumbs p |}.
Definition set_preview_count v (p : Preview) : Preview :=
  {| preview_hidden := preview_hidden p; preview_count := v;
     preview_thumbs := preview_thumbs p |}.
Definition on_file_preview (f : Preview -> Preview) (d : Dom) : Dom :=
  set_file_preview (f (file_preview d)) d.

Definition set_log v (b : Browser) : Browser :=
  {| log := v; clock := clock b; raf_last := raf_last b; frames := frames b;
     timer_last := timer_last b; intervals := intervals b;
     blob_last := blob_last b; alerts := alerts b; location := location b |}.
Definition set_clock v (b : Browser) : Browser :=
  {| log := log b; clock := v; raf_last := raf_last b; frames := frames b;
     timer_last := timer_last b; intervals := intervals b;
     blob_last := blob_last b; alerts := alerts b; location := location b |}.
Definition set_frames last v (b : Browser) : Browser :=
  {| log := log b; clock := clock b; raf_last := last; frames := v;
     timer_last := timer_last b; intervals := intervals b;
     blob_last := blob_last b; alerts := alerts b; location := location b |}.
Definition set_intervals last v (b : Browser) : Browser :=
  {| log := log b; clock := clock b; raf_last := raf_last b;
     frames := frames b; timer_last := last; intervals := v;
     blob_last := blob_last b; alerts := alerts b; location := location b |}.
Definition set_blob_last v (b : Browser) : Browser :=
  {| log := log b; clock := clock b; raf_last := raf_last b;
     frames := frames b; timer_last := timer_last b;
     intervals := intervals b; blob_last := v; alerts := alerts b;
     location := location b |}.
Definition set_alerts v (b : Browser) : Browser :=
  {| log := log b; clock := clock b; raf_last := raf_last b;
     frames := frames b; timer_last := timer_last b;
     intervals := intervals b; blob_last := blob_last b; alerts := v;
     location := location b |}.
Definition set_location v (b : Browser) : Browser :=
  {| log := log b; clock := clock b; raf_last := raf_last b;
     frames := frames b; timer_last := timer_last b;
     intervals := intervals b; blob_last := blob_last b; alerts := alerts b;
     location := v |}.

Definition on_recorder (f : VoiceRecorder -> VoiceRecorder) (w : World) : World :=
  {| recorder := f (recorder w); uploader := uploader w; dom := dom w;
     browser := browser w |}.
Definition on_uploader (f : FileUploader -> FileUploader) (w : World) : World :=
  {| recorder := recorder w; uploader := f (uploader w); dom := dom w;
     browser := browser w |}.
Definition on_dom (f : Dom -> Dom) (w : World) : World :=
  {| recorder := recorder w; uploader := uploader w; dom := f (dom w);
     browser := browser w |}.
Definition on_browser (f : Browser -> Browser) (w : World) : World :=
  {| recorder := recorder w; uploader := uploader w; dom := dom w;
     browser := f (browser w) |}.

(* ================================================================== *)
(** * The client script: control *)
(* ================================================================== *)

(** ** State and exceptions

    A method is a function of the world that returns normally or throws,
    and in both cases leaves the world as it was at that point: what a
    method wrote before throwing stays written. *)

Inductive Error :=
  | TypeError
  | InvalidStateError
  | FetchRejected
  | SyntaxError
  | JsError (message : string).

Inductive Outcome (A : Type) :=
  | Ret (a : A)
  | Exc (e : Error).
Arguments Ret {A} a.
Arguments Exc {A} e.

Definition M (A : Type) : Type := World -> Outcome A * World.

Definition ret {A} (a : A) : M A := fun w => (Ret a, w).
Definition throw {A} (e : Error) : M A := fun w => (Exc e, w).
Definition bind {A B} (m : M A) (k : A -> M B) : M B :=
  fun w => match m w with
           | (Ret a, w') => k a w'
           | (Exc e, w') => (Exc e, w')
           end.
Definition try_catch {A} (m : M A) (handler : Error -> M A) : M A :=
  fun w => match m w with
           | (Ret a, w') => (Ret a, w')
           | (Exc e, w') => handler e w'
           end.
Definition gets {A} (f : World -> A) : M A := fun w => (Ret (f w), w).
Definition modify (f : World -> World) : M unit := fun w => (Ret tt, f w).

Notation "x <- m ;; k" := (bind m (fun x => k))
  (at level 100, m at next level, right associativity).
Notation "m ;; k" := (bind m (fun _ => k))
  (at level 100, right associativity).

(** The state a call leaves behind, whether it returned or threw. *)
Definition exec {A} (m : M A) (w : World) : World := snd (m w).

(** [for (const x of xs) body(x)]. *)
Fixpoint for_of {A} (xs : list A) (body : A -> M unit) : M unit :=
  match xs with
  | [] => ret tt
  | x :: rest => body x ;; for_of rest body
  end.

(** ** Browser services *)

(** [await fetch(url, {method: 'POST', body})]: the exchange is logged;
    a rejected promise is an exception at the [await]. *)
Definition fetch (env : Env) (url : string) (body : list (string * Part))
    : M Response :=
  fun w =>
    let req := {| req_url := url; req_method := "POST"; req_body := body |} in
    let resp := server env (log (browser w)) req in
    let w' := on_browser (set_log (log (browser w) ++ [(req, resp)])) w in
    match resp with
    | NetworkError => (Exc FetchRejected, w')
    | Reply _ _ _ _ => (Ret resp, w')
    end.

Definition response_ok (r : Response) : bool :=
  match r with
  | Reply ok _ _ _ => ok
  | NetworkError => false
  end.

Definition response_redirected (r : Response) : bool :=
  match r with
  | Reply _ redirected _ _ => redirected
  | NetworkError => false
  end.

Definition response_url (r : Response) : string :=
  match r with
  | Reply _ _ url _ => url
  | NetworkError => EmptyString
  end.

(** [(await response.json()).url]. *)
Definition json_url (r : Response) : M (option string) :=
  match r with
  | Reply _ _ _ (JsonUrl u) => ret u
  | _ => throw SyntaxError
  end.

(** [requestAnimationFrame(draw)]: a fresh non-zero handle, pending until
    the next frame or until cancelled. *)
Definition requestAnimationFrame : M nat :=
  fun w =>
    let h := S (raf_last (browser w)) in
    (Ret h, on_browser (set_frames h (frames (browser w) ++ [h])) w).

Definition cancelAnimationFrame (h : nat) : M unit :=
  modify (on_browser (fun b =>
    set_frames (raf_last b) (filter (fun x => x ≠ h) (frames b)) b)).

(** [setInterval(tick, 1000)] and [clearInterval]. *)
Definition setInterval : M nat :=
  fun w =>
    let h := S (timer_last (browser w)) in
    (Ret h, on_browser (set_intervals h (intervals (browser w) ++ [h])) w).

Definition clearInterval (h : nat) : M unit :=
  modify (on_browser (fun b =>
    set_intervals (timer_last b) (filter (fun x => x ≠ h) (intervals b)) b)).

(** [URL.createObjectURL(blob)]: a fresh reference. *)
Definition createObjectURL : M string :=
  fun w =>
    let n := S (blob_last (browser w)) in
    (Ret ("blob:" +:+ num n), on_browser (set_blob_last n) w).

Definition alert (message : string) : M unit :=
  modify (on_browser (fun b => set_alerts (alerts b ++ [message]) b)).

(** A handle is truthy when it is a non-zero number. *)
Definition truthy_handle (h : option nat) : option nat :=
  match h with
  | Some (S n) => Some (S n)
  | _ => None
  end.

(** ** The [#file-count] node and the children of the preview *)

(** A [#file-count] node, by its place relative to the preview. *)
Inductive CountNode := CountBefore | CountInside | CountAfter.

(** [document.getElementById('file-count')]: the first such node in
    document order, [None] when the page has none. *)
Definition getElementById_file_count (d : Dom) : option CountNode :=
  match file_count_before d with
  | Some _ => Some CountBefore
  | None =>
      match preview_count (file_preview d) with
      | Some _ => Some CountInside
      | None =>
          match file_count_after d with
          | Some _ => Some CountAfter
          | None => None
          end
      end
  end.

(** [node.textContent = text]. *)
Definition set_textContent (node : CountNode) (text : string) (d : Dom)
    : Dom :=
  match node with
  | CountBefore => set_file_count_before (Some text) d
  | CountInside => on_file_preview (set_preview_count (Some text)) d
  | CountAfter => set_file_count_after (Some text) d
  end.

(** [preview.innerHTML = '']: every child of the preview is removed, a
    [#file-count] among them too. *)
Definition clear_innerHTML (p : Preview) : Preview :=
  {| preview_hidden := preview_hidden p; preview_count := None;
     preview_thumbs := [] |}.

(** [preview.appendChild(countEl); preview.appendChild(grid)], on an
    emptied preview: [countEl] is a new [p#file-count] with this text. *)
Definition appendChildren (text : string) (grid : list Thumb) (p : Preview)
    : Preview :=
  {| preview_hidden := preview_hidden p; preview_count := Some text;
     preview_thumbs := grid |}.

(** ** VoiceRecorder *)

Module Recorder.
Section WithEnv.
Context (env : Env).

Definition mimeTypes : list string := ["audio/webm"; "audio/mp4"; "audio/ogg"].

(** [updateUI()]. *)
Definition updateUI : M unit :=
  rec <- gets (isRecording ∘ recorder) ;;
  if rec
  then
    modify (on_dom (set_record_btn "Stop Recording" true)) ;;
    modify (on_dom (set_recording_status_hidden false))
  else
    modify (on_dom (set_record_btn "Start Recording" false)) ;;
    modify (on_dom (set_recording_status_hidden true)) ;;
    url <- gets (audioUrl ∘ recorder) ;;
    if truthy url
    then
      modify (on_dom (set_audio_preview_hidden false)) ;;
      modify (on_dom (set_audio_player_src url))
    else ret tt.

(** [init()]: [granted] tells whether [getUserMedia] resolves; the
    constructors that follow are taken to succeed. *)
Definition init (granted : bool) : M bool :=
  if granted
  then
    let mt := default EmptyString (find (isTypeSupported env) mimeTypes) in
    modify (on_recorder (set_mimeType mt)) ;;
    modify (on_recorder (set_mediaRecorder
      (Some {| mr_mimeType := recorderMimeType env mt;
               mr_recording := false; mr_stopping := false |}))) ;;
    modify (on_recorder (set_analyser true)) ;;
    ret true
  else ret false.

(** [mediaRecorder.ondataavailable]. *)
Definition ondataavailable (data : string) : M unit :=
  if decide (0 < String.length data)
  then modify (on_recorder (fun r => set_audioChunks (audioChunks r ++ [data]) r))
  else ret tt.

(** [mediaRecorder.onstop]. *)
Definition onstop : M unit :=
  r <- gets recorder ;;
  let recorderType :=
    match mediaRecorder r with
    | Some mr => Some (mr_mimeType mr)
    | None => None
    end in
  let actualType :=
    or_else recorderType (or_else (Some (mimeType r)) "audio/webm") in
  modify (on_recorder (set_audioBlob
    (Some {| blob_data := String.concat EmptyString (audioChunks r);
             blob_type := actualType |}))) ;;
  url <- createObjectURL ;;
  modify (on_recorder (set_audioUrl (Some url))) ;;
  updateUI.

(** [mediaRecorder.start(100)] and [mediaRecorder.stop()]. *)
Definition mediaRecorder_start : M unit :=
  mr <- gets (mediaRecorder ∘ recorder) ;;
  match mr with
  | None => throw TypeError
  | Some mr =>
      if mr_recording mr then throw InvalidStateError
      else modify (on_recorder (set_mediaRecorder
             (Some {| mr_mimeType := mr_mimeType mr; mr_recording := true;
                      mr_stopping := mr_stopping mr |})))
  end.

Definition mediaRecorder_stop : M unit :=
  mr <- gets (mediaRecorder ∘ recorder) ;;
  match mr with
  | None => throw TypeError
  | Some mr =>
      if mr_recording mr
      then modify (on_recorder (set_mediaRecorder
             (Some {| mr_mimeType := mr_mimeType mr; mr_recording := false;
                      mr_stopping := true |})))
      else if stopThrowsWhenInactive env then throw InvalidStateError
      else ret tt
  end.

(** The closure [draw] of [startWaveform]: it exists only when the canvas
    does, and paints one more polyline on it. *)
Definition draw : M unit :=
  rec <- gets (isRecording ∘ recorder) ;;
  if negb rec then ret tt
  else
    h <- requestAnimationFrame ;;
    modify (on_recorder (set_animationId (Some h))) ;;
    modify (on_dom (fun d => set_waveform (S <$> waveform d) d)).

Definition startWaveform : M unit :=
  canvas <- gets (waveform ∘ dom) ;;
  match canvas with
  | None => ret tt
  | Some _ => draw
  end.

Definition stopWaveform : M unit :=
  id <- gets (animationId ∘ recorder) ;;
  match truthy_handle id with
  | Some h =>
      cancelAnimationFrame h ;;
      modify (on_recorder (set_animationId None))
  | None => ret tt
  end.

(** [`${mins}:${secs.toString().padStart(2, '0')}`]. *)
Definition format_elapsed (elapsed : nat) : string :=
  let mins := elapsed / 60 in
  let secs := elapsed mod 60 in
  num mins +:+ ":" +:+ (if decide (secs < 10) then "0" else EmptyString)
  +:+ num secs.

(** The callback given to [setInterval]; [elapsed] is
    [Math.floor((Date.now() - this.startTime) / 1000)]. *)
Definition tick : M unit :=
  now <- gets (clock ∘ browser) ;;
  start <- gets (startTime ∘ recorder) ;;
  let elapsed := (now - default 0 start) / 1000 in
  modify (on_dom (fun d =>
    set_recording_time ((fun _ => format_elapsed elapsed) <$> recording_time d) d)).

Definition startTimer : M unit :=
  timeEl <- gets (recording_time ∘ dom) ;;
  match timeEl with
  | None => ret tt
  | Some _ =>
      h <- setInterval ;;
      modify (on_recorder (set_timerInterval (Some h)))
  end.

Definition stopTimer : M unit :=
  id <- gets (timerInterval ∘ recorder) ;;
  match truthy_handle id with
  | Some h =>
      clearInterval h ;;
      modify (on_recorder (set_timerInterval None))
  | None => ret tt
  end.

(** [start()] and [stop()]. *)
Definition start : M unit :=
  modify (on_recorder (set_audioChunks [])) ;;
  mediaRecorder_start ;;
  modify (on_recorder (set_isRecording true)) ;;
  now <- gets (clock ∘ browser) ;;
  modify (on_recorder (set_startTime (Some now))) ;;
  updateUI ;;
  startWaveform ;;
  startTimer.

Definition stop : M unit :=
  mediaRecorder_stop ;;
  modify (on_recorder (set_isRecording false)) ;;
  stopWaveform ;;
  stopTimer.

(** [upload()]: [null] and [undefined] results are both [None]. *)
Definition upload : M (option string) :=
  blob <- gets (audioBlob ∘ recorder) ;;
  match blob with
  | None => ret None
  | Some blob =>
      let ext :=
        if includes "mp4" (blob_type blob) then "m4a"
        else if includes "ogg" (blob_type blob) then "ogg" else "webm" in
      let formData :=
        [ ("file", PBlob (blob_data blob) (blob_type blob)
                     ("recording." +:+ ext));
          ("type", PString "audio") ] in
      try_catch
        (response <- fetch env "/api/upload" formData ;;
         (if negb (response_ok response)
          then throw (JsError "Upload failed") else ret tt) ;;
         url <- json_url response ;;
         modify (on_recorder (set_uploadedUrl url)) ;;
         ret url)
        (fun _ => ret None)
  end.

(** [clear()]. *)
Definition clear : M unit :=
  modify (on_recorder (set_audioChunks [])) ;;
  modify (on_recorder (set_audioBlob None)) ;;
  modify (on_recorder (set_audioUrl None)) ;;
  modify (on_recorder (set_uploadedUrl None)) ;;
  modify (on_dom (set_audio_preview_hidden true)) ;;
  modify (on_dom (fun d =>
    set_recording_time ((fun _ => "0:00") <$> recording_time d) d)).

End WithEnv.
End Recorder.

(** ** FileUploader *)

Module Uploader.
Section WithEnv.
Context (env : Env).

(** [`${n} file${n > 1 ? 's' : ''} selected`]. *)
Definition count_text (n : nat) : string :=
  num n +:+ " file" +:+ (if decide (1 < n) then "s" else EmptyString)
  +:+ " selected".

(** The [forEach] that builds the grid: one object URL per file. The
    grid is not in the document until it is appended. *)
Fixpoint thumbnails (fs : list File) : M (list Thumb) :=
  match fs with
  | [] => ret []
  | file :: rest =>
      src <- createObjectURL ;;
      items <- thumbnails rest ;;
      ret ({| thumb_src := src; thumb_file := file |} :: items)
  end.

(** [updateUI()]. The [#file-count] node is looked up on entry; with
    files selected its text is written without a guard. *)
Definition updateUI : M unit :=
  fileCount <- gets (getElementById_file_count ∘ dom) ;;
  fs <- gets (files ∘ uploader) ;;
  if decide (length fs = 0)
  then
    modify (on_dom (on_file_preview (set_preview_hidden true))) ;;
    modify (on_dom (on_file_preview clear_innerHTML))
  else
    modify (on_dom (on_file_preview (set_preview_hidden false))) ;;
    match fileCount with
    | None => throw TypeError
    | Some node =>
        modify (on_dom (set_textContent node (count_text (length fs)))) ;;
        grid <- thumbnails fs ;;
        modify (on_dom (on_file_preview clear_innerHTML)) ;;
        modify (on_dom (on_file_preview
          (appendChildren (count_text (length fs)) grid)))
    end.

(** [addFiles(newFiles)]. *)
Definition addFiles (newFiles : list File) : M unit :=
  for_of newFiles (fun file =>
    fs <- gets (files ∘ uploader) ;;
    if startsWith "image/" (file_type file) && bool_decide (length fs < 10)
    then modify (on_uploader (set_files (fs ++ [file])))
    else ret tt) ;;
  updateUI.

(** [xs.splice(index, 1)] for an integer [index]: a negative index counts
    from the end, and nothing is removed past the end. *)
Definition splice1 {A} (index : Z) (xs : list A) : list A :=
  let len := Z.of_nat (length xs) in
  let start := if (index <? 0)%Z then Z.max (len + index) 0
               else Z.min index len in
  delete (Z.to_nat start) xs.

(** [removeFile(index)]. *)
Definition removeFile (index : Z) : M unit :=
  modify (on_uploader (fun u => set_files (splice1 index (files u)) u)) ;;
  modify (on_uploader (fun u =>
    set_uploadedUrls (splice1 index (uploadedUrls u)) u)) ;;
  updateUI.

(** The body of the loop of [uploadAll] for one file. *)
Definition upload_one (file : File) : M unit :=
  let formData :=
    [ ("file", PBlob (file_data file) (file_type file) (file_name file));
      ("type", PString "image") ] in
  try_catch
    (response <- fetch env "/api/upload" formData ;;
     if response_ok response
     then
       url <- json_url response ;;
       modify (on_uploader (fun u =>
         set_uploadedUrls (uploadedUrls u ++ [url]) u))
     else ret tt)
    (fun _ => ret tt).

(** [uploadAll()]. *)
Definition uploadAll : M (list (option string)) :=
  modify (on_uploader (set_uploadedUrls [])) ;;
  fs <- gets (files ∘ uploader) ;;
  for_of fs upload_one ;;
  gets (uploadedUrls ∘ uploader).

End WithEnv.
End Uploader.

(** ** The listeners installed on [DOMContentLoaded] *)

Section Listeners.
Context (env : Env).

(** Click on the record button; [granted] is the answer to the microphone
    request, used only when the recorder is not initialised yet. *)
Definition on_record_click (granted : bool) : M unit :=
  let toggle :=
    rec <- gets (isRecording ∘ recorder) ;;
    if rec then Recorder.stop env else Recorder.start in
  mr <- gets (mediaRecorder ∘ recorder) ;;
  match mr with
  | None =>
      success <- Recorder.init env granted ;;
      if negb success
      then alert "Could not access microphone. Please allow microphone access and try again."
      else toggle
  | Some _ => toggle
  end.

(** [imageUrls.join(',')]: [undefined] elements print as nothing. *)
Definition join_urls (urls : list (option string)) : string :=
  join "," (map (default EmptyString) urls).

(** The [submit] listener of the form. *)
Definition on_submit : M unit :=
  modify (on_dom (set_submit_disabled true)) ;;
  modify (on_dom (set_submit_label "Uploading files...")) ;;
  blob <- gets (audioBlob ∘ recorder) ;;
  audioUrl <- match blob with
              | Some _ => Recorder.upload env
              | None => ret None
              end ;;
  fs <- gets (files ∘ uploader) ;;
  imageUrls <- (if decide (0 < length fs)
                then
                  modify (on_dom (set_submit_label "Uploading images...")) ;;
                  Uploader.uploadAll env
                else ret []) ;;
  modify (on_dom (set_submit_label "Sending...")) ;;
  entries <- gets (form_entries ∘ dom) ;;
  let formData := entries in
  let formData :=
    match audioUrl with
    | Some (String c s) => formData ++ [("audio-url", PString (String c s))]
    | _ => formData
    end in
  let formData :=
    if decide (0 < length imageUrls)
    then formData ++ [("image-urls", PString (join_urls imageUrls))]
    else formData in
  try_catch
    (response <- fetch env "/api/submit" formData ;;
     if response_redirected response
     then modify (on_browser (set_location (Some (response_url response))))
     else if response_ok response
     then modify (on_browser (set_location (Some "/thank-you.html")))
     else throw (JsError "Submission failed"))
    (fun _ =>
       alert "Something went wrong. Please try again." ;;
       modify (on_dom (set_submit_disabled false)) ;;
       modify (on_dom (set_submit_label "Submit Project Inquiry"))).

(** ** Events *)

(** What can happen to the page: the user acts, or the browser calls
    back. Each listener runs to completion before the next event. *)
Inductive Event :=
  | ClickRecord (granted : bool)
  | ClickClear
  | AddFiles (newFiles : list File)
  | ClickRemove (index : nat)
  | SubmitForm
  | AnimationFrame
  | IntervalFires (id : nat)
  | TimePasses (ms : nat)
  | DataAvailable (data : string)
  | RecorderStopped (data : string)
  | StreamEnded.

(** The events the browser raises on its own: no user action. *)
Definition passive (ev : Event) : bool :=
  match ev with
  | AnimationFrame | IntervalFires _ | TimePasses _
  | DataAvailable _ | RecorderStopped _ | StreamEnded => true
  | _ => false
  end.

(** The remove controls a user can click: none while the preview is
    hidden. *)
Definition thumbs_shown (p : Preview) : nat :=
  if preview_hidden p then 0 else length (preview_thumbs p).

Definition set_recorder_state (recording stopping : bool) : M unit :=
  modify (on_recorder (fun r =>
    set_mediaRecorder
      ((fun mr => {| mr_mimeType := mr_mimeType mr;
                     mr_recording := recording;
                     mr_stopping := stopping |}) <$> mediaRecorder r) r)).

Definition recorder_is (p : MediaRecorder -> bool) (w : World) : bool :=
  match mediaRecorder (recorder w) with
  | Some mr => p mr
  | None => false
  end.

(** The listener or callback an event runs. An event whose source is not
    there (a thumbnail that is not shown, a timer that is not armed, a
    recorder that is not recording) runs nothing. *)
Definition dispatch (ev : Event) : M unit :=
  match ev with
  | ClickRecord granted => on_record_click granted
  | ClickClear => Recorder.clear
  | AddFiles newFiles => Uploader.addFiles newFiles
  | ClickRemove index =>
      shown <- gets (thumbs_shown ∘ file_preview ∘ dom) ;;
      if decide (index < shown)
      then Uploader.removeFile (Z.of_nat index) else ret tt
  | SubmitForm => on_submit
  | AnimationFrame =>
      pending <- gets (frames ∘ browser) ;;
      modify (on_browser (fun b => set_frames (raf_last b) [] b)) ;;
      for_of pending (fun _ => Recorder.draw)
  | IntervalFires id =>
      armed <- gets (intervals ∘ browser) ;;
      if decide (id ∈ armed) then Recorder.tick else ret tt
  | TimePasses ms =>
      modify (on_browser (fun b => set_clock (clock b + ms) b))
  | DataAvailable data =>
      rec <- gets (recorder_is mr_recording) ;;
      if rec then Recorder.ondataavailable data else ret tt
  | RecorderStopped data =>
      stopping <- gets (recorder_is mr_stopping) ;;
      if stopping
      then
        rec <- gets (recorder_is mr_recording) ;;
        set_recorder_state rec false ;;
        Recorder.ondataavailable data ;;
        Recorder.onstop
      else ret tt
  | StreamEnded =>
      rec <- gets (recorder_is mr_recording) ;;
      if rec then set_recorder_state false true else ret tt
  end.

(** One event: nothing runs once the page has navigated away; an
    exception that escapes a listener is reported and dropped. *)
Definition step (w : World) (ev : Event) : World :=
  match location (browser w) with
  | Some _ => w
  | None => exec (dispatch ev) w
  end.

Definition run (w : World) (evs : list Event) : World := fold_left step evs w.

End Listeners.

(** ** The page when the script has just run *)

Definition new_VoiceRecorder : VoiceRecorder :=
  {| mediaRecorder := None; mimeType := EmptyString; audioChunks := [];
     audioBlob := None; audioUrl := None; isRecording := false;
     uploadedUrl := None; analyser := false; animationId := None;
     startTime := None; timerInterval := None |}.

Definition new_FileUploader : FileUploader :=
  {| files := []; uploadedUrls := [] |}.

Definition new_Browser (now : nat) : Browser :=
  {| log := []; clock := now; raf_last := 0; frames := [];
     timer_last := 0; intervals := []; blob_last := 0; alerts := [];
     location := None |}.

Definition loaded (page : Dom) (now : nat) : World :=
  {| recorder := new_VoiceRecorder; uploader := new_FileUploader;
     dom := page; browser := new_Browser now |}.

End Client.

(* ================================================================== *)
(** * What the code is compared with

    The words of the design document as definitions of their own, and
    the listeners read stage by stage as functions of the world. *)
(* ================================================================== *)

Module Design.
Import Js.

(** ** Escaping

    Character by character: the five HTML-special characters become
    entities, a line feed becomes a break, anything else is kept. *)
Definition escape_char (c : ascii) : string :=
  if Ascii.eqb c "&" then "&amp;"
  else if Ascii.eqb c "<" then "&lt;"
  else if Ascii.eqb c ">" then "&gt;"
  else if Ascii.eqb c dq then "&quot;"
  else if Ascii.eqb c "'" then "&#039;"
  else if Ascii.eqb c nl then "<br>"
  else String c EmptyString.

Fixpoint escape_chars (s : string) : string :=
  match s with
  | EmptyString => EmptyString
  | String c rest => escape_char c +:+ escape_chars rest
  end.

Definition cat (xs : list string) : string :=
  fold_right String.append EmptyString xs.

(** ** The email, as a document

    A head, one titled table per section with a row for each field that
    was filled in, a link to the recording if there is one, one linked
    thumbnail per comma-separated image address, a foot. Every value that
    comes from the form goes in escaped. *)
Definition field_row (f : string * option string) : string :=
  match f with
  | (label, Some (String c s)) => Submit.row label (escape_chars (String c s))
  | _ => EmptyString
  end.

Definition section_html (s : Submit.Section_) : string :=
  Submit.section_head (Submit.title s) +:+ Submit.table_open +:+
  cat (map field_row (Submit.fields s)) +:+ "</table>".

Definition audio_html (data : Submit.Data) : string :=
  match data !! "audio-url" with
  | Some (String c s) => Submit.audio_block (escape_chars (String c s))
  | _ => EmptyString
  end.

Definition image_html (url : string) : string :=
  Submit.image_block (escape_chars url) (escape_chars url).

Definition images_html (data : Submit.Data) : string :=
  match data !! "image-urls" with
  | Some (String c s) =>
      let urls := split "," (String c s) in
      Submit.images_head (num (length urls)) +:+ cat (map image_html urls)
      +:+ "</div>"
  | _ => EmptyString
  end.

Definition email (data : Submit.Data) : string :=
  Submit.html_head +:+ cat (map section_html (Submit.sections data)) +:+
  audio_html data +:+ images_html data +:+ Submit.html_foot.

(** ** File name extensions

    The last dot-separated segment of a name: what follows its last dot,
    or the whole name when it has no dot. *)
Fixpoint has_char (c : ascii) (s : string) : bool :=
  match s with
  | EmptyString => false
  | String a rest => Ascii.eqb a c || has_char c rest
  end.

Fixpoint last_segment (sep : ascii) (s : string) : string :=
  match s with
  | EmptyString => EmptyString
  | String c rest =>
      if has_char sep rest then last_segment sep rest
      else if Ascii.eqb c sep then rest
      else String c rest
  end.

(** The type discriminator of an upload, read off the [type] field of
    the request as the parser hands it over: the first value of the
    field; [file] when the field is absent or an empty string. Two shapes
    have no first value to read: an array that is empty or starts with an
    empty string counts as the array itself, which prints as its elements
    joined by commas, and a string that is not in an array is indexed like
    one, which yields its first character. *)
Definition discriminator (f : Upload.Field) : string :=
  match f with
  | Upload.FArr (String c s :: _) => String c s
  | Upload.FArr xs => join "," xs
  | Upload.FStr (String c _) => String c EmptyString
  | Upload.FStr EmptyString => "file"
  | Upload.FAbsent => "file"
  end.

(** The extension of a stored blob: [webm] when the type discriminator is
    [audio]; for every other type the last dot-separated segment of the
    original file name, [jpg] when there is no name or that segment is
    empty. *)
Definition stored_extension (type : string) (originalFilename : option string)
    : string :=
  if String.eqb type "audio" then "webm"
  else match originalFilename with
       | None => "jpg"
       | Some name =>
           match last_segment "." name with
           | EmptyString => "jpg"
           | seg => seg
           end
       end.

(** ** The uploader *)

Import Client.

Definition is_image (f : File) : bool := startsWith "image/" (file_type f).

(** The selection after candidates are offered: the image-typed ones
    are appended, in order, while fewer than ten files are selected. *)
Definition selection_after (fs newFiles : list File) : list File :=
  fs ++ take (10 - length fs) (filter (fun f => is_image f) newFiles).

(** The request that carries one image to the storage endpoint. *)
Definition image_request (f : File) : Request :=
  {| req_url := "/api/upload"; req_method := "POST";
     req_body := [ ("file", PBlob (file_data f) (file_type f) (file_name f));
                   ("type", PString "image") ] |}.

(** What an answer of the storage endpoint means to the client: the
    upload failed ([None]), or it succeeded and the body carries this
    [url] member. *)
Definition upload_result (a : Response) : option (option string) :=
  match a with
  | Reply true _ _ (JsonUrl u) => Some u
  | _ => None
  end.

(** The exchanges that sending [reqs] one after the other adds to a log
    that holds [hist]. *)
Fixpoint converse (env : Env) (hist : list (Request * Response))
    (reqs : list Request) : list (Request * Response) :=
  match reqs with
  | [] => []
  | r :: rest =>
      let x := (r, server env hist r) in
      x :: converse env (hist ++ [x]) rest
  end.

(** The candidates a call to [addFiles] keeps: the image-typed ones, in
    order, as many as fit under the cap. *)
Definition admitted (fs newFiles : list File) : list File :=
  take (10 - length fs) (filter (fun f => is_image f) newFiles).

(** The grid for a selection: one thumbnail per file, each with the next
    object URL after [last]. *)
Fixpoint grid (last : nat) (fs : list File) : list Thumb :=
  match fs with
  | [] => []
  | file :: rest =>
      {| thumb_src := "blob:" +:+ num (S last); thumb_file := file |}
      :: grid (S last) rest
  end.

(** A refresh of the preview, case by case: nothing selected, the preview
    is hidden and emptied; files selected but no [#file-count] node in
    the page, the preview is revealed and the refresh throws; files
    selected and a node found, its text is written and the preview gets
    a new count line and grid. *)
Definition refresh (w : World) : Outcome unit * World :=
  match files (uploader w) with
  | [] =>
      (Ret tt,
       on_dom (set_file_preview
                 {| preview_hidden := true; preview_count := None;
                    preview_thumbs := [] |}) w)
  | file :: rest =>
      let fs := file :: rest in
      let text := Uploader.count_text (length fs) in
      match getElementById_file_count (dom w) with
      | None =>
          (Exc TypeError, on_dom (on_file_preview (set_preview_hidden false)) w)
      | Some node =>
          let shown := {| preview_hidden := false; preview_count := Some text;
                          preview_thumbs := grid (blob_last (browser w)) fs |} in
          (Ret tt,
           on_browser (set_blob_last (blob_last (browser w) + length fs))
             (on_dom (fun d => set_file_preview shown
                                 (set_textContent node text d)) w))
      end
  end.

(** The preview shows a selection: hidden and without thumbnails when
    nothing is selected; otherwise visible, with the count line and one
    thumbnail per file, in order. *)
Definition shows (p : Preview) (fs : list File) : Prop :=
  match fs with
  | [] => preview_hidden p = true /\ preview_thumbs p = []
  | _ =>
      preview_hidden p = false /\
      preview_count p = Some (Uploader.count_text (length fs)) /\
      map thumb_file (preview_thumbs p) = fs
  end.

(** The page has a [#file-count] node outside the preview, which the
    script never removes. *)
Definition count_outside (d : Dom) : Prop :=
  file_count_before d <> None \/ file_count_after d <> None.

(** The preview has lost its count line: the page has no [#file-count]
    node at all, and the preview no thumbnail. *)
Definition emptied (d : Dom) : Prop :=
  getElementById_file_count d = None /\
  preview_thumbs (file_preview d) = [].

(** The exchanges a call added to the network log. *)
Definition exchanged (before after : World) : list (Request * Response) :=
  drop (length (log (browser before))) (log (browser after)).

(** The two properties of a selection. *)
Definition bounded_images (fs : list File) : Prop :=
  (length fs <= 10)%nat /\ Forall (fun f => is_image f = true) fs.

(** ** The recorder *)

(** The request that carries the recording to the storage endpoint. *)
Definition audio_request (blob : Blob) : Request :=
  {| req_url := "/api/upload"; req_method := "POST";
     req_body :=
       [ ("file", PBlob (blob_data blob) (blob_type blob)
                    ("recording." +:+
                     (if includes "mp4" (blob_type blob) then "m4a"
                      else if includes "ogg" (blob_type blob) then "ogg"
                      else "webm")));
         ("type", PString "audio") ] |}.

(** The uploaded address was obtained for the current artifact: some
    exchange in the log sent the artifact that is current now and was
    answered with success and that address. *)
Definition uploaded_from_current (w : World) : Prop :=
  forall url, uploadedUrl (recorder w) = Some url ->
    exists blob a,
      audioBlob (recorder w) = Some blob /\
      (audio_request blob, a) ∈ log (browser w) /\
      upload_result a = Some (Some url).

(** A repeating callback is owned by the recorder: nothing is pending,
    or the one pending handle is the non-zero one the recorder holds. *)
Definition owned (pending : list nat) (held : option nat) : Prop :=
  pending = [] \/ exists h, pending = [h] /\ held = Some h /\ h <> 0.

(** Both loops are owned, and neither runs unless a recording is in
    progress. *)
Definition loops_owned (w : World) : Prop :=
  owned (frames (browser w)) (animationId (recorder w)) /\
  owned (intervals (browser w)) (timerInterval (recorder w)) /\
  (isRecording (recorder w) = false ->
   frames (browser w) = [] /\ intervals (browser w) = []).

(** Both loops are gone. *)
Definition torn_down (w : World) : Prop :=
  isRecording (recorder w) = false /\
  frames (browser w) = [] /\ intervals (browser w) = [].

(** ** The submission *)

Definition submit_request (payload : list (string * Part)) : Request :=
  {| req_url := "/api/submit"; req_method := "POST"; req_body := payload |}.

(** A network failure, or a status that is neither a success nor a
    redirect. *)
Definition submission_failed (a : Response) : bool :=
  negb (response_redirected a) && negb (response_ok a).

(** The listener, stage by stage. The payload: the fields of the form,
    then the recording address if it is truthy, then the image addresses
    if there are any. *)
Definition payload_of (entries : list (string * Part))
    (audioUrl : option string) (imageUrls : list (option string))
    : list (string * Part) :=
  let formData := entries in
  let formData :=
    match audioUrl with
    | Some (String c s) => formData ++ [("audio-url", PString (String c s))]
    | _ => formData
    end in
  if decide (0 < length imageUrls)
  then formData ++ [("image-urls", PString (join_urls imageUrls))]
  else formData.

(** The recording, if any, is sent; its address is kept on success. *)
Definition audio_stage (env : Env) (w : World) : option string * World :=
  match audioBlob (recorder w) with
  | None => (None, w)
  | Some blob =>
      let a := server env (log (browser w)) (audio_request blob) in
      let w1 := on_browser
                  (set_log (log (browser w) ++ [(audio_request blob, a)])) w in
      match upload_result a with
      | Some url => (url, on_recorder (set_uploadedUrl url) w1)
      | None => (None, w1)
      end
  end.

(** The images, if any, are sent one by one; the addresses of those that
    were stored are kept, in order. *)
Definition image_stage (env : Env) (w : World)
    : list (option string) * World :=
  match files (uploader w) with
  | [] => ([], w)
  | fs =>
      let xs := converse env (log (browser w)) (map image_request fs) in
      let urls := omap (upload_result ∘ snd) xs in
      (urls,
       on_uploader (set_uploadedUrls urls)
         (on_browser (set_log (log (browser w) ++ xs))
            (on_dom (set_submit_label "Uploading images...") w)))
  end.

(** The POST and what follows it: a notice and the control given back
    on failure, a navigation otherwise. *)
Definition conclude (env : Env) (payload : list (string * Part))
    (w : World) : World :=
  let a := server env (log (browser w)) (submit_request payload) in
  let w1 := on_browser
              (set_log (log (browser w) ++ [(submit_request payload, a)])) w in
  if submission_failed a
  then on_dom (set_submit_label "Submit Project Inquiry")
         (on_dom (set_submit_disabled false)
            (on_browser (fun b =>
               set_alerts
                 (alerts b ++ ["Something went wrong. Please try again."]) b)
               w1))
  else if response_redirected a
  then on_browser (set_location (Some (response_url a))) w1
  else on_browser (set_location (Some "/thank-you.html")) w1.

Definition submit_outcome (env : Env) (w : World) : World :=
  let w1 := on_dom (set_submit_label "Uploading files...")
              (on_dom (set_submit_disabled true) w) in
  let '(audioUrl, w2) := audio_stage env w1 in
  let '(imageUrls, w3) := image_stage env w2 in
  conclude env (payload_of (form_entries (dom w)) audioUrl imageUrls)
    (on_dom (set_submit_label "Sending...") w3).

(** The scenario with two images and no recording, as the design
    document tells it: two uploads, one per image, then one POST whose
    payload is the fields of the form followed by one [image-urls] field
    that holds two addresses separated by a comma. *)
Definition two_image_outcome (before after : World) : Prop :=
  exists f1 f2 a1 a2 a3 u1 u2,
    files (uploader before) = [f1; f2] /\
    exchanged before after
    = [ (image_request f1, a1); (image_request f2, a2);
        (submit_request
           (form_entries (dom before)
            ++ [("image-urls", PString (u1 +:+ "," +:+ u2))]), a3) ].

(** ** Part of the world a computation leaves alone *)

Definition keeps {A B} (f : World -> B) (m : M A) : Prop :=
  forall w, f (snd (m w)) = f w.

End Design.
(* ================================================================== *)
(** * Vocabulary for the server's fields, the exchanges and the recorder *)
(* ================================================================== *)

Module MailFields.
Import Js.

(** The keys of the form data that [formatEmailBody] reads. *)
Definition rendered_keys : list string :=
  [ "name"; "email"; "phone"; "company";
    "business-description"; "current-website"; "site-working";
    "site-frustrations"; "ideal-customer"; "positioning";
    "lead-source"; "conversion-goal"; "project-type"; "pages-needed";
    "features"; "has-logo"; "has-photos"; "has-copy";
    "inspiration"; "inspiration-why"; "timeline"; "budget";
    "post-launch"; "additional"; "referral";
    "audio-url"; "image-urls" ].

(** A value as the conditions of the code see it: a missing value and an
    empty one are the same. *)
Definition filled (v : option string) : option string :=
  match v with
  | Some (String c s) => Some (String c s)
  | _ => None
  end.

End MailFields.

Module Exchange.
Import Js Client Design.

(** The exchange with the storage endpoint for the recording, if there
    is one. *)
Definition audio_exchange (env : Env) (w : World)
    : list (Request * Response) :=
  match audioBlob (recorder w) with
  | Some blob =>
      [(audio_request blob,
        server env (log (browser w)) (audio_request blob))]
  | None => []
  end.

(** The address a list of at most one audio exchange yields. *)
Definition audio_address (xs : list (Request * Response)) : option string :=
  match xs with
  | (_, a) :: _ => default None (upload_result a)
  | [] => None
  end.

(** The exchanges for the images, after [before] was exchanged. *)
Definition image_exchanges (env : Env) (w : World)
    (before : list (Request * Response)) : list (Request * Response) :=
  converse env (log (browser w) ++ before)
    (map image_request (files (uploader w))).

(** The payload of the final POST, given the upload exchanges. *)
Definition submit_payload (w : World)
    (audio images : list (Request * Response)) : list (string * Part) :=
  payload_of (form_entries (dom w)) (audio_address audio)
    (omap (upload_result ∘ snd) images).

End Exchange.

Module Phases.
Import Js Client Design.

(** The recorder is initialised and idle: nothing is being recorded and
    no stop event is due. *)
Definition idle (w : World) (type fallback : string) : Prop :=
  location (browser w) = None /\
  mediaRecorder (recorder w)
  = Some {| mr_mimeType := type; mr_recording := false;
            mr_stopping := false |} /\
  mimeType (recorder w) = fallback /\
  isRecording (recorder w) = false.

(** A recording is in progress and [chunks] were kept so far. *)
Definition recording (w : World) (type fallback : string)
    (chunks : list string) : Prop :=
  location (browser w) = None /\
  mediaRecorder (recorder w)
  = Some {| mr_mimeType := type; mr_recording := true;
            mr_stopping := false |} /\
  mimeType (recorder w) = fallback /\
  isRecording (recorder w) = true /\
  audioChunks (recorder w) = chunks.

(** The chunks of non-zero size. *)
Definition kept (chunks : list string) : list string :=
  filter (fun c => 0 < String.length c) chunks.

End Phases.


(* ================================================================== *)
(** * Concrete pages, endpoints and files *)
(* ================================================================== *)

Module Demo.
Import Js Client.

(** A page with every node of the script, the button captioned as the
    project's test notes caption it; the count line sits inside the
    preview, where the script re-creates it. *)
Definition page : Dom :=
  {| record_btn_label := "Start Recording"; record_btn_red := false;
     recording_status_hidden := true; audio_preview_hidden := true;
     audio_player_src := None; waveform := Some 0;
     recording_time := Some "0:00";
     file_preview := {| preview_hidden := true; preview_count := Some EmptyString;
                        preview_thumbs := [] |};
     file_count_before := None; file_count_after := None;
     submit_disabled := false; submit_label := "Submit Project Inquiry";
     form_entries := [ ("name", PString "Ann"); ("email", PString "ann@example.org") ] |}.

(** The same page with the count line before the preview instead. *)
Definition page_count_outside : Dom :=
  set_file_count_before (Some EmptyString)
    (on_file_preview (set_preview_count None) page).

Definition image (name : string) : File :=
  {| file_name := name; file_type := "image/png"; file_data := name |}.

(** The name under which a request carries its file. *)
Definition carried_name (req : Request) : string :=
  match req_body req with
  | (_, PBlob _ _ name) :: _ => name
  | _ => EmptyString
  end.

(** Endpoints: the storage endpoint refuses the files named in
    [refused] and stores the others; the submission endpoint redirects
    to the confirmation page when [accepts], and answers with a failure
    status otherwise. *)
Definition endpoints (refused : list string) (accepts : bool) : Env :=
  {| server := fun _ req =>
       if String.eqb (req_url req) "/api/upload"
       then
         if bool_decide (carried_name req ∈ refused)
         then Reply false false "/api/upload" (JsonUrl None)
         else Reply true false "/api/upload"
                (JsonUrl (Some ("https://blob.example/" +:+ carried_name req)))
       else
         if accepts then Reply true true "/thank-you.html" NotJson
         else Reply false false "/api/submit" (JsonUrl None);
     isTypeSupported := fun t => String.eqb t "audio/webm";
     recorderMimeType := fun t => t;
     stopThrowsWhenInactive := false |}.

(** A request to the storage handler that carries one audio file. *)
Definition audio_upload : Upload.Request :=
  {| Upload.method := "POST";
     Upload.parsed :=
       Some (Upload.FArr ["audio"],
             Some [ {| Upload.filepath := "/tmp/upload_1";
                       Upload.originalFilename := Some "recording.m4a";
                       Upload.mimetype := Some "audio/mp4" |} ]) |}.

(** A request that carries one image under a dotted name. *)
Definition image_upload : Upload.Request :=
  {| Upload.method := "POST";
     Upload.parsed :=
       Some (Upload.FArr ["image"],
             Some [ {| Upload.filepath := "/tmp/upload_2";
                       Upload.originalFilename := Some "harbour.view.png";
                       Upload.mimetype := Some "image/png" |} ]) |}.

Definition storage : Upload.Env :=
  {| Upload.now := 1767000000000%N;
     Upload.random36 := "k3x9q";
     Upload.readFileSync := fun _ => Some "bytes";
     Upload.put := fun name _ _ => Some ("https://blob.example/" +:+ name);
     Upload.unlinkSync := fun _ => Some tt |}.

(** Three images are selected and the form is submitted while the
    storage endpoint refuses the second image and the submission
    endpoint fails: the page stays, with what the upload left behind. *)
Definition after_partial_upload : World :=
  run (endpoints ["b.png"] false) (loaded page 0)
    [ AddFiles [image "a.png"; image "b.png"; image "c.png"]; SubmitForm ].

(** A recording is made and sent with a submission that fails at the
    final POST; then a second recording is made. *)
Definition record_submit_record : list Event :=
  [ ClickRecord true; DataAvailable "first take"; ClickRecord true;
    RecorderStopped EmptyString;
    SubmitForm;
    ClickRecord true; DataAvailable "second take"; ClickRecord true;
    RecorderStopped EmptyString ].

Definition after_second_recording : World :=
  run (endpoints [] false) (loaded page 0) record_submit_record.

(** Three images are selected. *)
Definition three_selected : World :=
  run (endpoints [] true) (loaded page 0)
    [ AddFiles [image "a.png"; image "b.png"; image "c.png"] ].

(** Two images are selected, nothing is recorded. *)
Definition two_selected : World :=
  run (endpoints [] true) (loaded page 0)
    [ AddFiles [image "a.png"; image "b.png"] ].

(** A recording is in progress. *)
Definition recording : list Event :=
  [ ClickRecord true; AnimationFrame ].

(** Form data with an empty company and a field the email does not
    name. *)
Definition stray_fields : Submit.Data :=
  {[ "company" := EmptyString; "favourite-colour" := "teal" ]}.

(** Form data that carries two image addresses, as the client joins
    them. *)
Definition gallery : list string :=
  [ "https://blob.example/a.png"; "https://blob.example/b.png" ].

Definition with_gallery : Submit.Data :=
  {[ "image-urls" := join_urls (map Some gallery) ]}.

(** A parsed submission, and a mail service that accepts every
    message. *)
Definition inquiry : Submit.Request :=
  {| Submit.method := "POST";
     Submit.parsed :=
       Some {[ "company" := Submit.Many ["Acme"];
               "email" := Submit.Many ["ann@example.org"] ]} |}.

Definition mail_accepts (e : Submit.Email) : Submit.SendResult :=
  Submit.SendStatus true.

(** The page after one complete recording. *)
Definition recorded_once : World :=
  run (endpoints [] true) (loaded page 0)
    [ ClickRecord true; DataAvailable "first take"; ClickRecord true;
      RecorderStopped EmptyString ].

(** A recording is in progress and one chunk was delivered. *)
Definition mid_recording : World :=
  run (endpoints [] true) (loaded page 0)
    [ ClickRecord true; DataAvailable "first take" ].

(** A recording of a little over four seconds has been made: the label
    shows its last tick and the artifact is there. *)
Definition after_take : World :=
  run (endpoints [] true) (loaded page 0)
    [ ClickRecord true; DataAvailable "first take"; TimePasses 4200;
      IntervalFires 1; ClickRecord true; RecorderStopped EmptyString ].

(** The same endpoints in a browser whose recorder throws when it is
    stopped while inactive. *)
Definition old_engine : Env :=
  {| server := server (endpoints [] true);
     isTypeSupported := isTypeSupported (endpoints [] true);
     recorderMimeType := recorderMimeType (endpoints [] true);
     stopThrowsWhenInactive := true |}.

(** A recording was started there and the stream ended by itself: the
    recorder delivered its stop event and is inactive. *)
Definition stream_lost : World :=
  run old_engine (loaded page 0)
    [ ClickRecord true; StreamEnded; RecorderStopped EmptyString ].

(** One image was selected and removed again. *)
Definition selection_emptied : World :=
  run (endpoints [] true) (loaded page 0)
    [ AddFiles [image "a.png"]; ClickRemove 0 ].

End Demo.

(* ================================================================== *)
(** * Properties: strings *)
(* ================================================================== *)

Section StringFacts.
Import Js.
#[local] Arguments String.append !_ _ / : simpl nomatch.

Lemma string_app_nil_r (s : string) : s +:+ EmptyString = s.
Proof. induction s as [|c s IH]; [done|]. cbn. by rewrite IH. Qed.

Lemma string_app_assoc (a b c : string) : (a +:+ b) +:+ c = a +:+ b +:+ c.
Proof. induction a as [|x a IH]; [done|]. cbn. by rewrite IH. Qed.

(** A loop that appends to an accumulator builds the concatenation. *)
Lemma fold_left_append {A} (f : A -> string) (xs : list A) (acc : string) :
  fold_left (fun html x => html +:+ f x) xs acc
  = acc +:+ Design.cat (map f xs).
Proof.
  unfold Design.cat.
  revert acc. induction xs as [|x xs IH]; intros acc; simpl.
  - by rewrite string_app_nil_r.
  - by rewrite IH, string_app_assoc.
Qed.

Lemma fold_left_ext {A B} (f g : B -> A -> B) (xs : list A) (acc : B) :
  (forall b a, f b a = g b a) -> fold_left f xs acc = fold_left g xs acc.
Proof.
  intros Hfg. revert acc. induction xs as [|x xs IH]; intros acc; cbn; [done|].
  by rewrite Hfg, IH.
Qed.

Lemma replace_all_app (c : ascii) (r a b : string) :
  replace_all c r (a +:+ b) = replace_all c r a +:+ replace_all c r b.
Proof.
  induction a as [|x a IH]; [done|].
  cbn. by rewrite IH, string_app_assoc.
Qed.

(** ** [split] and the last segment *)

Lemma split_no_sep (sep : ascii) (s : string) :
  Design.has_char sep s = false -> split sep s = [s].
Proof.
  induction s as [|c s IH]; cbn; [done|].
  destruct (Ascii.eqb c sep); cbn; [done|].
  intros H. by rewrite IH.
Qed.

Lemma split_with_sep (sep : ascii) (s : string) :
  Design.has_char sep s = true ->
  exists seg seg' segs, split sep s = seg :: seg' :: segs.
Proof.
  induction s as [|c s IH]; cbn; [done|].
  destruct (Ascii.eqb c sep) eqn:Hc; cbn.
  - intros _. destruct (Design.has_char sep s) eqn:Hs.
    + destruct (IH eq_refl) as (seg & seg' & segs & ->). eauto.
    + rewrite (split_no_sep _ _ Hs). eauto.
  - intros H. destruct (IH H) as (seg & seg' & segs & ->). eauto.
Qed.

Lemma pop_split (sep : ascii) (s : string) :
  pop (split sep s) = Some (Design.last_segment sep s).
Proof.
  unfold pop. induction s as [|c s IH]; cbn; [done|].
  destruct (Design.has_char sep s) eqn:Hs.
  - destruct (split_with_sep _ _ Hs) as (seg & seg' & segs & Heq).
    rewrite Heq in *. by destruct (Ascii.eqb c sep).
  - rewrite (split_no_sep _ _ Hs). by destruct (Ascii.eqb c sep).
Qed.

Lemma has_char_app (c : ascii) (a b : string) :
  Design.has_char c (a +:+ b) = Design.has_char c a || Design.has_char c b.
Proof.
  induction a as [|x a IH]; [done|]. cbn. by rewrite IH, orb_assoc.
Qed.

Lemma last_segment_app (sep : ascii) (a b : string) :
  Design.has_char sep b = false ->
  Design.last_segment sep (a +:+ String sep b) = b.
Proof.
  intros Hb. induction a as [|x a IH]; cbn.
  - by rewrite Hb, Ascii.eqb_refl.
  - rewrite has_char_app. cbn. rewrite Ascii.eqb_refl, orb_true_r. done.
Qed.

Lemma last_segment_no_sep (sep : ascii) (s : string) :
  Design.has_char sep (Design.last_segment sep s) = false.
Proof.
  induction s as [|c s IH]; cbn; [done|].
  destruct (Design.has_char sep s) eqn:Hs; [done|].
  destruct (Ascii.eqb c sep) eqn:Hc; [done|]. cbn. by rewrite Hc.
Qed.

End StringFacts.

(* ================================================================== *)
(** * Properties: api/submit.js *)
(* ================================================================== *)

Section SubmitFacts.
Import Js.

(** The chain of replacements, without the guard in front of it. *)
Lemma escapeHtml_chain (s : string) :
  Submit.escapeHtml (Some s)
  = replace_all nl "<br>"
      (replace_all "'" "&#039;"
         (replace_all dq "&quot;"
            (replace_all ">" "&gt;"
               (replace_all "<" "&lt;"
                  (replace_all "&" "&amp;" s))))).
Proof. by destruct s. Qed.

(** No replacement text contains a character that a later replacement
    looks for, so the chain acts on each character on its own. *)
Lemma escapeHtml_cons (a : ascii) (rest : string) :
  Submit.escapeHtml (Some (String a rest))
  = Design.escape_char a +:+ Submit.escapeHtml (Some rest).
Proof.
  rewrite !escapeHtml_chain.
  destruct a as [[] [] [] [] [] [] [] []]; reflexivity.
Qed.

Lemma escapeHtml_chars (s : string) :
  Submit.escapeHtml (Some s) = Design.escape_chars s.
Proof.
  induction s as [|a rest IH]; [done|].
  by rewrite escapeHtml_cons, IH.
Qed.

Lemma fields_loop (fs : list (string * option string)) (acc : string) :
  fold_left
    (fun html '(label, value) =>
       if truthy value
       then html +:+ Submit.row label (Submit.escapeHtml value)
       else html) fs acc
  = acc +:+ Design.cat (map Design.field_row fs).
Proof.
  rewrite <- fold_left_append. apply fold_left_ext.
  intros html [label [[|c s]|]]; cbn [truthy Design.field_row].
  - by rewrite string_app_nil_r.
  - by rewrite escapeHtml_chars.
  - by rewrite string_app_nil_r.
Qed.

Lemma images_loop (urls : list string) (acc : string) :
  fold_left
    (fun html url =>
       html +:+ Submit.image_block (Submit.escapeHtml (Some url))
                                   (Submit.escapeHtml (Some url))) urls acc
  = acc +:+ Design.cat (map Design.image_html urls).
Proof.
  rewrite <- fold_left_append. apply fold_left_ext.
  intros html url. unfold Design.image_html. by rewrite escapeHtml_chars.
Qed.

Lemma formatEmailBody_email (data : Submit.Data) :
  Submit.formatEmailBody data = Design.email data.
Proof.
  unfold Submit.formatEmailBody, Design.email. cbv zeta.
  rewrite (fold_left_ext _ (fun html s => html +:+ Design.section_html s)).
  2:{ intros html s. rewrite fields_loop. unfold Design.section_html.
      by rewrite !string_app_assoc. }
  rewrite fold_left_append.
  set (body := Submit.html_head +:+ _).
  rewrite <- !string_app_assoc. f_equal.
  fold body.
  replace (if truthy (data !! "audio-url") then _ else body)
    with (body +:+ Design.audio_html data).
  2:{ unfold Design.audio_html.
      destruct (data !! "audio-url") as [[|c s]|]; cbn [truthy];
        rewrite ?string_app_nil_r; [done| |done].
      by rewrite escapeHtml_chars. }
  unfold Design.images_html.
  destruct (data !! "image-urls") as [[|c s]|];
    rewrite ?string_app_nil_r; [done| |done].
  rewrite images_loop. by rewrite !string_app_assoc.
Qed.

(** C10. Every value of the form that [formatEmailBody] embeds goes
    through [escapeHtml]: the body it builds is the document in which each
    filled-in field, the recording address and each image address appear
    escaped; and [escapeHtml] replaces the ampersand, the angle brackets
    and both quotes by entities and a line feed by a break, character by
    character, giving the empty string for a missing or empty value. *)
Theorem escapeHtml_guards_email :
  (forall s : string, Submit.escapeHtml (Some s) = Design.escape_chars s) /\
  Submit.escapeHtml None = EmptyString /\
  Submit.escapeHtml (Some EmptyString) = EmptyString /\
  (Design.escape_char "&" = "&amp;" /\ Design.escape_char "<" = "&lt;" /\
   Design.escape_char ">" = "&gt;" /\ Design.escape_char dq = "&quot;" /\
   Design.escape_char "'" = "&#039;" /\ Design.escape_char nl = "<br>") /\
  (forall data : Submit.Data, Submit.formatEmailBody data = Design.email data).
Proof.
  split; [exact escapeHtml_chars|].
  repeat split; try reflexivity.
  exact formatEmailBody_email.
Qed.

End SubmitFacts.

(* ================================================================== *)
(** * Properties: api/upload.js *)
(* ================================================================== *)

Section UploadFacts.
Import Js Upload.

(** The type the handler computes prints as the discriminator, and the
    handler's test for audio is the comparison of the discriminator with
    [audio]: the array the handler keeps when the first value is empty
    never prints as [audio]. *)
Lemma discriminator_type_text (f : Field) :
  type_text (upload_type f) = Design.discriminator f.
Proof. by destruct f as [|[|c s]|[|[|c s] xs]]. Qed.

Lemma discriminator_is_audio (f : Field) :
  is_audio (upload_type f) = String.eqb (Design.discriminator f) "audio".
Proof.
  destruct f as [|[|c s]|[|[|c s] xs]]; try reflexivity.
  by destruct xs.
Qed.

Lemma extension_stored_extension (f : Field) (file : UploadedFile) :
  extension (upload_type f) file
  = Design.stored_extension (Design.discriminator f) (originalFilename file).
Proof.
  unfold extension, Design.stored_extension.
  rewrite discriminator_is_audio.
  destruct (String.eqb _ _); [done|].
  destruct (originalFilename file) as [name|]; [|done].
  rewrite pop_split. by destruct (Design.last_segment "." name).
Qed.

Lemma stored_extension_no_dot (type : string) (name : option string) :
  Design.has_char "." (Design.stored_extension type name) = false.
Proof.
  unfold Design.stored_extension.
  destruct (String.eqb _ _); [done|].
  destruct name as [name|]; [|done].
  pose proof (last_segment_no_sep "." name) as H.
  by destruct (Design.last_segment "." name).
Qed.

Lemma filename_last_segment (f : Field) (ts : N) (rnd : string)
    (file : UploadedFile) :
  Design.last_segment "." (filename (upload_type f) ts rnd file)
  = Design.stored_extension (Design.discriminator f) (originalFilename file).
Proof.
  unfold filename. rewrite extension_stored_extension.
  rewrite <- !string_app_assoc.
  rewrite string_app_assoc.
  change ("." +:+ ?e) with (String "." e).
  apply last_segment_app, stored_extension_no_dot.
Qed.

Lemma handler_stores (env : Env) (req : Request) (reply : Reply)
    (blob : Stored) :
  handler env req = (reply, Some blob) ->
  exists field file rest,
    parsed req = Some (field, Some (file :: rest)) /\
    stored_name blob
    = filename (upload_type field) (now env) (random36 env) file.
Proof.
  unfold handler. intros H.
  destruct (negb _); [done|].
  destruct (parsed req) as [[field [[|file rest]|]]|]; try done.
  destruct (readFileSync env _); [|done].
  destruct (put env _ _ _); [|done].
  exists field, file, rest. split; [done|].
  destruct (unlinkSync env _); by simplify_eq.
Qed.

(** C9. Whatever the storage handler stores, it stores under a name whose
    extension (its last dot-separated segment) is the one the type
    discriminator of the request calls for: [webm] when the
    discriminator is [audio], whatever the name and media type of the
    uploaded file, and for every other type the last dot-separated
    segment of the original file name, [jpg] when there is no name or
    that segment is empty. So a request whose [type] field has the first
    value [audio] is stored as [webm], and one with another non-empty
    first value, or with no [type] field, under the extension of its
    file name. *)
Theorem stored_blob_extension (env : Env) (req : Request) (reply : Reply)
    (blob : Stored) :
  handler env req = (reply, Some blob) ->
  exists field file rest,
    parsed req = Some (field, Some (file :: rest)) /\
    Design.last_segment "." (stored_name blob)
    = Design.stored_extension (Design.discriminator field)
        (originalFilename file) /\
    (forall more, field = FArr ("audio" :: more) ->
       Design.last_segment "." (stored_name blob) = "webm") /\
    (forall type more,
       field = FArr (type :: more) /\ type <> EmptyString \/
       field = FAbsent /\ type = "file" ->
       type <> "audio" ->
       Design.last_segment "." (stored_name blob)
       = match originalFilename file with
         | None => "jpg"
         | Some name => match Design.last_segment "." name with
                        | EmptyString => "jpg"
                        | seg => seg
                        end
         end).
Proof.
  intros H. destruct (handler_stores _ _ _ _ H) as (field & file & rest & Hp & Hn).
  exists field, file, rest. split; [done|].
  assert (Hext : Design.last_segment "." (stored_name blob)
                 = Design.stored_extension (Design.discriminator field)
                     (originalFilename file))
    by (rewrite Hn; apply filename_last_segment).
  split; [done|]. split.
  - intros more ->. by rewrite Hext.
  - intros type more Hshape Htype. rewrite Hext.
    assert (Hd : Design.discriminator field = type).
    { destruct Hshape as [[-> Hne]|[-> ->]]; [|done].
      by destruct type. }
    rewrite Hd. unfold Design.stored_extension.
    by destruct (String.eqb_spec type "audio").
Qed.

End UploadFacts.

(* ================================================================== *)
(** * Properties: the monad of the client *)
(* ================================================================== *)

Section MonadFacts.
Import Js Client Design.

Lemma keeps_ret {A B} (f : World -> B) (a : A) : keeps f (ret a).
Proof. by intros w. Qed.

Lemma keeps_throw {A B} (f : World -> B) (e : Error) : keeps f (@throw A e).
Proof. by intros w. Qed.

Lemma keeps_gets {A B} (f : World -> B) (g : World -> A) : keeps f (gets g).
Proof. by intros w. Qed.

Lemma keeps_modify {B} (f : World -> B) (g : World -> World) :
  (forall w, f (g w) = f w) -> keeps f (modify g).
Proof. intros H w. apply H. Qed.

Lemma keeps_bind {A C B} (f : World -> B) (m : M A) (k : A -> M C) :
  keeps f m -> (forall a, keeps f (k a)) -> keeps f (bind m k).
Proof.
  intros Hm Hk w. unfold bind. specialize (Hm w).
  destruct (m w) as [[a|e] w1]; cbn in *; [|done].
  by rewrite (Hk a w1).
Qed.

Lemma keeps_try_catch {A B} (f : World -> B) (m : M A) (h : Error -> M A) :
  keeps f m -> (forall e, keeps f (h e)) -> keeps f (try_catch m h).
Proof.
  intros Hm Hh w. unfold try_catch. specialize (Hm w).
  destruct (m w) as [[a|e] w1]; cbn in *; [done|].
  by rewrite (Hh e w1).
Qed.

Lemma keeps_for_of {A B} (f : World -> B) (xs : list A) (body : A -> M unit) :
  (forall x, keeps f (body x)) -> keeps f (for_of xs body).
Proof.
  intros Hb. induction xs as [|x xs IH]; cbn.
  - apply keeps_ret.
  - apply keeps_bind; [apply Hb|]. by intros _.
Qed.

End MonadFacts.

(** Splits a computation into its primitive steps, each of which must
    leave the observed part alone. *)
Ltac keeps_step :=
  first
    [ apply keeps_ret
    | apply keeps_throw
    | apply keeps_gets
    | apply keeps_modify; intros ?; reflexivity
    | apply keeps_bind; [|intros ?]
    | apply keeps_try_catch; [|intros ?]
    | apply keeps_for_of; intros ?
    | match goal with
      | |- Design.keeps _ (match ?x with _ => _ end) => destruct x
      end ].

(* ================================================================== *)
(** * Properties: FileUploader *)
(* ================================================================== *)

Section UploaderFacts.
Import Js Client Design.
Context (env : Env).
Lemma selection_after_skip (fs rest : list File) (x : File) :
  (is_image x && bool_decide (length fs < 10)) = false ->
  selection_after fs (x :: rest) = selection_after fs rest.
Proof.
  unfold selection_after. intros H.
  destruct (is_image x) eqn:Hx; cbn in H.
  - apply bool_decide_eq_false in H.
    replace (10 - length fs) with 0 by lia. done.
  - rewrite filter_cons_False; [done|]. rewrite Hx. auto.
Qed.

Lemma selection_after_push (fs rest : list File) (x : File) :
  (is_image x && bool_decide (length fs < 10)) = true ->
  selection_after fs (x :: rest) = selection_after (fs ++ [x]) rest.
Proof.
  unfold selection_after. intros H.
  apply andb_true_iff in H as [Hx Hn]. apply bool_decide_eq_true in Hn.
  rewrite filter_cons_True by (by rewrite Hx).
  rewrite length_app. cbn [length].
  replace (10 - length fs) with (S (10 - (length fs + 1))) by lia.
  cbn [take]. by rewrite <- app_assoc.
Qed.

Lemma addFiles_loop (newFiles : list File) (w : World) :
  for_of newFiles (fun file =>
    fs <- gets (files ∘ uploader) ;;
    if startsWith "image/" (file_type file) && bool_decide (length fs < 10)
    then modify (on_uploader (set_files (fs ++ [file])))
    else ret tt) w
  = (Ret tt,
     on_uploader (set_files (selection_after (files (uploader w)) newFiles)) w).
Proof.
  revert w. induction newFiles as [|x rest IH]; intros w.
  - cbn. unfold ret, selection_after. cbn. rewrite take_nil, app_nil_r.
    by destruct w as [r [fs urls] d b].
  - cbn [for_of]. unfold bind at 1. unfold bind at 1. unfold gets at 1.
    cbn [compose].
    fold (is_image x).
    destruct (is_image x && bool_decide (length (files (uploader w)) < 10)) eqn:H.
    + unfold modify at 1. rewrite IH. cbn.
      by rewrite (selection_after_push _ _ _ H).
    + unfold ret at 1. rewrite IH.
      by rewrite (selection_after_skip _ _ _ H).
Qed.

Lemma thumbnails_spec (fs : list File) (w : World) :
  Uploader.thumbnails fs w
  = (Ret (grid (blob_last (browser w)) fs),
     on_browser (set_blob_last (blob_last (browser w) + length fs)) w).
Proof.
  revert w. induction fs as [|file rest IH]; intros w.
  - cbn. unfold ret. rewrite Nat.add_0_r.
    by destruct w as [r u d [lg ck rl fr tl iv bl al loc]].
  - cbn [Uploader.thumbnails]. unfold bind at 1. unfold createObjectURL at 1.
    unfold bind at 1. rewrite IH. unfold ret.
    cbn [browser on_browser blob_last set_blob_last grid length].
    destruct w as [r u d [lg ck rl fr tl iv bl al loc]].
    cbn. by rewrite Nat.add_succ_r.
Qed.

Lemma updateUI_spec (w : World) : Uploader.updateUI w = refresh w.
Proof.
  unfold Uploader.updateUI, refresh.
  unfold bind at 1. unfold gets at 1. unfold bind at 1. unfold gets at 1.
  cbn [compose].
  destruct (files (uploader w)) as [|file rest] eqn:Hfs.
  - destruct (decide _) as [_|H]; [|done].
    unfold bind, modify, on_file_preview. cbn.
    by destruct w as [r u [] b].
  - destruct (decide _) as [H|_]; [done|].
    unfold bind at 1. unfold modify at 1.
    destruct (getElementById_file_count (dom w)) as [node|]; [|done].
    unfold bind at 1. unfold modify at 1.
    unfold bind at 1. rewrite thumbnails_spec.
    unfold bind, modify, on_file_preview. cbn.
    by destruct w as [r u [] b], node.
Qed.

Lemma addFiles_spec (newFiles : list File) (w : World) :
  Uploader.addFiles newFiles w
  = refresh (on_uploader
               (set_files (selection_after (files (uploader w)) newFiles)) w).
Proof.
  unfold Uploader.addFiles. unfold bind at 1. rewrite addFiles_loop.
  by rewrite updateUI_spec.
Qed.

Lemma removeFile_spec (index : Z) (w : World) :
  Uploader.removeFile index w
  = refresh (on_uploader (fun u =>
               {| files := Uploader.splice1 index (files u);
                  uploadedUrls := Uploader.splice1 index (uploadedUrls u) |})
               w).
Proof.
  unfold Uploader.removeFile, bind, modify. by rewrite updateUI_spec.
Qed.

(** What a refresh leaves alone, and when it returns. *)
Lemma refresh_keeps (w : World) :
  let w' := snd (refresh w) in
  uploader w' = uploader w /\ recorder w' = recorder w /\
  alerts (browser w') = alerts (browser w) /\
  log (browser w') = log (browser w) /\
  location (browser w') = location (browser w).
Proof.
  unfold refresh. destruct (files (uploader w)); [done|].
  by destruct (getElementById_file_count (dom w)).
Qed.

Lemma refresh_outcome (w : World) :
  fst (refresh w)
  = match files (uploader w), getElementById_file_count (dom w) with
    | _ :: _, None => Exc TypeError
    | _, _ => Ret tt
    end.
Proof.
  unfold refresh. destruct (files (uploader w)); [done|].
  by destruct (getElementById_file_count (dom w)).
Qed.

Lemma grid_files (last : nat) (fs : list File) :
  map thumb_file (grid last fs) = fs.
Proof.
  revert last. induction fs as [|file rest IH]; intros last; cbn; [done|].
  by rewrite IH.
Qed.

(** A refresh that returns leaves the preview showing the selection. *)
Lemma refresh_shows (w : World) :
  fst (refresh w) = Ret tt ->
  shows (file_preview (dom (snd (refresh w)))) (files (uploader w)).
Proof.
  unfold refresh. destruct (files (uploader w)) as [|file rest]; [done|].
  destruct (getElementById_file_count (dom w)) as [node|]; [|done].
  intros _. cbn. by rewrite grid_files.
Qed.

(** A count line outside the preview is always found, and stays. *)
Lemma count_outside_found (d : Dom) :
  count_outside d -> getElementById_file_count d <> None.
Proof.
  unfold count_outside, getElementById_file_count.
  by destruct (file_count_before d), (preview_count (file_preview d)),
    (file_count_after d); intros [H|H].
Qed.

Lemma refresh_count_outside (w : World) :
  count_outside (dom w) -> count_outside (dom (snd (refresh w))).
Proof.
  unfold refresh. destruct (files (uploader w)) as [|file rest]; [done|].
  unfold count_outside.
  destruct (getElementById_file_count (dom w)) as [[]|]; cbn; intros H;
    [by left|exact H|by right|exact H].
Qed.

Lemma upload_one_spec (file : File) (w : World) :
  Uploader.upload_one env file w
  = (Ret tt,
     let a := server env (log (browser w)) (image_request file) in
     let w1 := on_browser
                 (set_log (log (browser w) ++ [(image_request file, a)])) w in
     match upload_result a with
     | Some url =>
         on_uploader (fun u => set_uploadedUrls (uploadedUrls u ++ [url]) u) w1
     | None => w1
     end).
Proof.
  unfold Uploader.upload_one, try_catch, bind, fetch, image_request. cbn.
  destruct (server env _ _) as [|[] redirected url [|u]]; reflexivity.
Qed.

Lemma upload_loop (fs : list File) (w : World) :
  for_of fs (Uploader.upload_one env) w
  = (Ret tt,
     let xs := converse env (log (browser w)) (map image_request fs) in
     on_uploader
       (set_uploadedUrls
          (uploadedUrls (uploader w) ++ omap (upload_result ∘ snd) xs))
       (on_browser (set_log (log (browser w) ++ xs)) w)).
Proof.
  revert w. induction fs as [|f fs IH]; intros w.
  - cbn. unfold ret. rewrite !app_nil_r.
    by destruct w as [r [fs urls] d []].
  - cbn [for_of]. unfold bind. rewrite upload_one_spec. cbv zeta.
    destruct (upload_result _) as [url|] eqn:Hr; rewrite IH; cbn;
      rewrite Hr; cbn; by rewrite <- !app_assoc.
Qed.

Lemma uploadAll_spec (w : World) :
  Uploader.uploadAll env w
  = (let xs := converse env (log (browser w))
                 (map image_request (files (uploader w))) in
     let urls := omap (upload_result ∘ snd) xs in
     (Ret urls,
      on_uploader (set_uploadedUrls urls)
        (on_browser (set_log (log (browser w) ++ xs)) w))).
Proof.
  unfold Uploader.uploadAll. unfold bind at 1. unfold modify at 1.
  unfold bind at 1. unfold gets at 1. unfold bind at 1.
  rewrite upload_loop. reflexivity.
Qed.

(** ** Lists *)

Lemma converse_requests (hist : list (Request * Response))
    (reqs : list Request) :
  map fst (converse env hist reqs) = reqs.
Proof.
  revert hist. induction reqs as [|r reqs IH]; intros hist; cbn; [done|].
  by rewrite IH.
Qed.

Lemma omap_all_some {A B} (g : A -> option B) (xs : list A) :
  (forall x, x ∈ xs -> g x <> None) ->
  Forall2 (fun u x => g x = Some u) (omap g xs) xs.
Proof.
  induction xs as [|x xs IH]; intros H; cbn; [constructor|].
  destruct (g x) as [u|] eqn:Hx.
  - constructor; [done|]. apply IH. intros y Hy. apply H. by right.
  - destruct (H x); [by left|done].
Qed.

Lemma omap_one_none {A B} (g : A -> option B) (xs : list A) (i : nat) :
  i < length xs ->
  (forall j x, xs !! j = Some x -> (g x = None <-> j = i)) ->
  Forall2 (fun u x => g x = Some u) (omap g xs) (delete i xs).
Proof.
  revert i. induction xs as [|x xs IH]; intros i Hi H; cbn in *; [lia|].
  destruct i as [|i].
  - assert (g x = None) as -> by (by apply (H 0)).
    apply omap_all_some. intros y [j Hj]%list_elem_of_lookup Hy.
    by apply (H (S j) y Hj) in Hy.
  - destruct (g x) as [u|] eqn:Hx.
    + constructor; [done|]. apply IH; [lia|].
      intros j y Hj. rewrite (H (S j) y Hj). lia.
    + by apply (H 0) in Hx.
Qed.

Lemma splice1_sublist {A} (index : Z) (xs : list A) :
  Uploader.splice1 index xs `sublist_of` xs.
Proof. apply sublist_delete. Qed.

End UploaderFacts.

(* ================================================================== *)
(** * Properties: what each listener leaves alone *)
(* ================================================================== *)

Section BrowserFrame.
Import Js Client Design.

Lemma keeps_fetch {B} (f : World -> B) (env : Env) (url : string)
    (body : list (string * Part)) :
  (forall w l, f (on_browser (set_log l) w) = f w) ->
  keeps f (fetch env url body).
Proof.
  intros H w. unfold fetch. destruct (server env _ _); cbn; apply H.
Qed.

Lemma keeps_requestAnimationFrame {B} (f : World -> B) :
  (forall w h l, f (on_browser (set_frames h l) w) = f w) ->
  keeps f requestAnimationFrame.
Proof. intros H w. apply H. Qed.

Lemma keeps_setInterval {B} (f : World -> B) :
  (forall w h l, f (on_browser (set_intervals h l) w) = f w) ->
  keeps f setInterval.
Proof. intros H w. apply H. Qed.

Lemma keeps_createObjectURL {B} (f : World -> B) :
  (forall w n, f (on_browser (set_blob_last n) w) = f w) ->
  keeps f createObjectURL.
Proof. intros H w. apply H. Qed.

Lemma keeps_thumbnails {B} (f : World -> B) (fs : list File) :
  (forall w n, f (on_browser (set_blob_last n) w) = f w) ->
  keeps f (Uploader.thumbnails fs).
Proof.
  intros H. induction fs as [|file rest IH]; cbn [Uploader.thumbnails].
  - apply keeps_ret.
  - apply keeps_bind; [by apply keeps_createObjectURL|]. intros src.
    apply keeps_bind; [exact IH|]. intros items. apply keeps_ret.
Qed.

End BrowserFrame.

Ltac keeps_unfold :=
  unfold Client.dispatch, Client.on_record_click, Client.on_submit,
    Client.Recorder.start, Client.Recorder.stop, Client.Recorder.init,
    Client.Recorder.upload, Client.Recorder.clear, Client.Recorder.onstop,
    Client.Recorder.ondataavailable, Client.Recorder.updateUI,
    Client.Recorder.mediaRecorder_start, Client.Recorder.mediaRecorder_stop,
    Client.Recorder.startWaveform, Client.Recorder.stopWaveform,
    Client.Recorder.startTimer, Client.Recorder.stopTimer,
    Client.Recorder.draw, Client.Recorder.tick,
    Client.Uploader.uploadAll, Client.Uploader.upload_one,
    Client.Uploader.addFiles, Client.Uploader.removeFile,
    Client.Uploader.updateUI, Client.json_url,
    Client.alert, Client.cancelAnimationFrame, Client.clearInterval,
    Client.set_recorder_state;
  cbv zeta.

Ltac keeps_go :=
  keeps_unfold;
  repeat first
    [ keeps_step
    | apply keeps_fetch; intros; reflexivity
    | apply keeps_requestAnimationFrame; intros; reflexivity
    | apply keeps_setInterval; intros; reflexivity
    | apply keeps_createObjectURL; intros; reflexivity
    | apply keeps_thumbnails; intros; reflexivity ].

Section EventFrame.
Import Js Client Design.
Context (env : Env).

(** Only offering files and removing one change the selection. *)
Lemma dispatch_keeps_files (ev : Event) :
  match ev with AddFiles _ | ClickRemove _ => False | _ => True end ->
  keeps (files ∘ uploader) (dispatch env ev).
Proof.
  destruct ev; intros H; try done; keeps_go.
Qed.

Lemma dispatch_files (ev : Event) (w : World) :
  match ev with AddFiles _ | ClickRemove _ => False | _ => True end ->
  files (uploader (exec (dispatch env ev) w)) = files (uploader w).
Proof. intros H. apply (dispatch_keeps_files ev H w). Qed.

(** Only offering files and removing one touch the preview and the
    count lines. *)
Lemma dispatch_keeps_preview (ev : Event) :
  match ev with AddFiles _ | ClickRemove _ => False | _ => True end ->
  keeps (file_preview ∘ dom) (dispatch env ev) /\
  keeps (file_count_before ∘ dom) (dispatch env ev) /\
  keeps (file_count_after ∘ dom) (dispatch env ev).
Proof.
  destruct ev; intros H; try done; (split; [|split]); keeps_go.
Qed.

End EventFrame.

(* ================================================================== *)
(** * Properties: the image selection and its upload *)
(* ================================================================== *)

Section SelectionFacts.
Import Js Client Design.
Context (env : Env).

Lemma selection_after_bounded (fs newFiles : list File) :
  bounded_images fs -> bounded_images (selection_after fs newFiles).
Proof.
  intros [Hlen Himg]. unfold selection_after. split.
  - rewrite length_app, length_take. lia.
  - apply Forall_app. split; [done|]. apply Forall_take.
    apply Forall_forall. intros f Hf%list_elem_of_filter.
    destruct Hf as [Hf _]. by apply Is_true_true.
Qed.

Lemma sublist_bounded (fs fs' : list File) :
  fs' `sublist_of` fs -> bounded_images fs -> bounded_images fs'.
Proof.
  intros Hsub [Hlen Himg]. split.
  - apply sublist_length in Hsub. lia.
  - apply Forall_forall. intros f Hf.
    rewrite Forall_forall in Himg. apply Himg.
    by eapply elem_of_sublist.
Qed.

(** The selection after [addFiles] and [removeFile], whether or not the
    refresh of the preview at their end throws. *)
Lemma addFiles_uploader (newFiles : list File) (w : World) :
  uploader (exec (Uploader.addFiles newFiles) w)
  = set_files (selection_after (files (uploader w)) newFiles) (uploader w).
Proof.
  unfold exec. rewrite addFiles_spec.
  by destruct (refresh_keeps
    (on_uploader (set_files (selection_after (files (uploader w)) newFiles)) w))
    as [-> _].
Qed.

Lemma removeFile_uploader (index : Z) (w : World) :
  uploader (exec (Uploader.removeFile index) w)
  = {| files := Uploader.splice1 index (files (uploader w));
       uploadedUrls := Uploader.splice1 index (uploadedUrls (uploader w)) |}.
Proof.
  unfold exec. rewrite removeFile_spec.
  match goal with
  | |- context [refresh ?w0] => by destruct (refresh_keeps w0) as [-> _]
  end.
Qed.

Lemma step_bounded (w : World) (ev : Event) :
  bounded_images (files (uploader w)) ->
  bounded_images (files (uploader (step env w ev))).
Proof.
  intros Hw. unfold step. destruct (location (browser w)); [done|].
  destruct ev; try (by rewrite dispatch_files).
  - change (dispatch env (AddFiles ?x)) with (Uploader.addFiles x).
    rewrite addFiles_uploader. cbn.
    by apply selection_after_bounded.
  - unfold exec. cbn [dispatch]. unfold bind, gets. cbn.
    destruct (decide _); [|done].
    change (snd (Uploader.removeFile ?i w))
      with (exec (Uploader.removeFile i) w).
    rewrite removeFile_uploader. cbn.
    eapply sublist_bounded; [apply splice1_sublist|done].
Qed.

Lemma run_bounded (w : World) (evs : list Event) :
  bounded_images (files (uploader w)) ->
  bounded_images (files (uploader (run env w evs))).
Proof.
  revert w. induction evs as [|ev evs IH]; intros w Hw; [done|].
  cbn. apply IH. by apply step_bounded.
Qed.

Lemma filter_all {A} (P : A -> Prop) `{!forall x, Decision (P x)}
    (xs : list A) :
  Forall P xs -> filter P xs = xs.
Proof.
  induction 1 as [|x xs Hx _ IH]; [done|].
  by rewrite filter_cons_True, IH.
Qed.

(** Offering the kept candidates alone selects the same files. *)
Lemma selection_after_admitted (fs newFiles : list File) :
  selection_after fs (admitted fs newFiles) = selection_after fs newFiles.
Proof.
  unfold selection_after, admitted. f_equal.
  rewrite filter_all.
  - rewrite take_take. f_equal. lia.
  - apply Forall_take, Forall_forall. by intros f [Hf _]%list_elem_of_filter.
Qed.

(** C2. Whatever happens on the page, and so after any sequence of
    [addFiles] calls with any candidates, at most ten files are selected
    and each has a media type that begins with [image/]. A call to
    [addFiles] keeps the image candidates, in order, as long as fewer
    than ten files are selected, and drops the others without a trace:
    it raises no alert, and it returns or throws, and leaves the page,
    exactly as the call with the kept candidates alone does. The one
    exception a call can end in is that of the refresh of the preview,
    which throws when files are selected and the page has no count line
    to write to, whatever the candidates were. *)
Theorem selection_bounded_images :
  (forall (page : Dom) (now : nat) (evs : list Event),
     let fs := files (uploader (run env (loaded page now) evs)) in
     (length fs <= 10)%nat /\
     Forall (fun f => startsWith "image/" (file_type f) = true) fs) /\
  (forall (w : World) (newFiles : list File),
     let fs := files (uploader w) in
     let w' := exec (Uploader.addFiles newFiles) w in
     files (uploader w') = selection_after fs newFiles /\
     alerts (browser w') = alerts (browser w) /\
     Uploader.addFiles newFiles w
     = Uploader.addFiles (admitted fs newFiles) w /\
     fst (Uploader.addFiles newFiles w)
     = match selection_after fs newFiles,
             getElementById_file_count (dom w) with
       | _ :: _, None => Exc TypeError
       | _, _ => Ret tt
       end).
Proof.
  split.
  - intros page now evs. apply (run_bounded (loaded page now) evs).
    split; [cbn; lia|constructor].
  - intros w newFiles. cbv zeta. split; [by rewrite addFiles_uploader|].
    split; [|split].
    + unfold exec. rewrite addFiles_spec.
      match goal with
      | |- context [refresh ?w0] =>
          by destruct (refresh_keeps w0) as (_ & _ & -> & _)
      end.
    + by rewrite !addFiles_spec, selection_after_admitted.
    + by rewrite addFiles_spec, refresh_outcome.
Qed.

(** ** [removeFile]

    Both sequences lose their entry at the index, whether or not the
    refresh of the preview throws, and an index past the end changes
    neither. *)
Lemma removeFile_splices (index : Z) (w : World) :
  let w' := exec (Uploader.removeFile index) w in
  files (uploader w') = Uploader.splice1 index (files (uploader w)) /\
  uploadedUrls (uploader w')
  = Uploader.splice1 index (uploadedUrls (uploader w)).
Proof. cbv zeta. by rewrite removeFile_uploader. Qed.

Lemma delete_past_end {A} (i : nat) (xs : list A) :
  (length xs <= i)%nat -> delete i xs = xs.
Proof.
  intros H. rewrite delete_take_drop.
  rewrite take_ge by lia. rewrite drop_ge by lia. apply app_nil_r.
Qed.

Lemma splice1_past_end {A} (index : Z) (xs : list A) :
  (Z.of_nat (length xs) <= index)%Z -> Uploader.splice1 index xs = xs.
Proof.
  intros H. unfold Uploader.splice1.
  destruct (Z.ltb_spec index 0); [lia|].
  apply delete_past_end. lia.
Qed.

Lemma splice1_in_range {A} (i : nat) (xs : list A) :
  Uploader.splice1 (Z.of_nat i) xs = delete i xs.
Proof.
  unfold Uploader.splice1.
  destruct (Z.ltb_spec (Z.of_nat i) 0); [lia|].
  destruct (decide (i < length xs)).
  - f_equal. lia.
  - rewrite !delete_past_end by lia. done.
Qed.

(** After [removeFile(i)], [uploadAll()] sends the remaining files, in
    order, and returns the addresses of those that were stored. *)
Lemma removeFile_then_uploadAll (index : Z) (w : World) :
  let w1 := exec (Uploader.removeFile index) w in
  let w2 := exec (Uploader.uploadAll env) w1 in
  map fst (exchanged w1 w2)
  = map image_request (Uploader.splice1 index (files (uploader w))) /\
  fst (Uploader.uploadAll env w1)
  = Ret (omap (upload_result ∘ snd) (exchanged w1 w2)).
Proof.
  cbv zeta. pose proof (removeFile_uploader index w) as Hu.
  revert Hu. generalize (exec (Uploader.removeFile index) w). intros w1 Hu.
  unfold exec, exchanged. rewrite uploadAll_spec. cbn.
  rewrite drop_app_length, Hu. split; [|done]. apply converse_requests.
Qed.

(** C1. When the storage endpoint fails for exactly one of the selected
    files, the [i]-th, [uploadAll] still sends one request per file, in
    order, returns normally, and returns one address fewer than there are
    files: the addresses the endpoint gave for the other files, in the
    order of those files. Nothing is shown to the user. *)
Theorem uploadAll_skips_one_failure (w : World) (i : nat) :
  let fs := files (uploader w) in
  let w' := exec (Uploader.uploadAll env) w in
  (i < length fs)%nat ->
  (forall j x, exchanged w w' !! j = Some x ->
     (upload_result (snd x) = None <-> j = i)) ->
  exists urls,
    Uploader.uploadAll env w = (Ret urls, w') /\
    map fst (exchanged w w') = map image_request fs /\
    length urls = length fs - 1 /\
    Forall2 (fun url x => upload_result (snd x) = Some url)
      urls (delete i (exchanged w w')) /\
    uploadedUrls (uploader w') = urls /\
    alerts (browser w') = alerts (browser w).
Proof.
  cbv zeta. unfold exec, exchanged. rewrite uploadAll_spec. cbn.
  rewrite drop_app_length.
  set (xs := converse env _ _). intros Hi Hone.
  assert (Hreq : map fst xs = map image_request (files (uploader w)))
    by apply converse_requests.
  assert (Hlen : length xs = length (files (uploader w))).
  { by rewrite <- (length_map fst), Hreq, length_map. }
  pose proof (omap_one_none (upload_result ∘ snd) xs i) as Hall.
  rewrite Hlen in Hall. specialize (Hall Hi Hone).
  eexists. split; [done|]. split; [done|]. split.
  - apply Forall2_length in Hall. rewrite Hall, length_delete.
    + by rewrite Hlen.
    + apply lookup_lt_is_Some. lia.
  - done.
Qed.

End SelectionFacts.

(* ================================================================== *)
(** * Properties: VoiceRecorder *)
(* ================================================================== *)

Section RecorderFacts.
Import Js Client Design.
Context (env : Env).

Lemma upload_spec (w : World) :
  Recorder.upload env w
  = match audioBlob (recorder w) with
    | None => (Ret None, w)
    | Some blob =>
        let a := server env (log (browser w)) (audio_request blob) in
        let w1 := on_browser
                    (set_log (log (browser w) ++ [(audio_request blob, a)])) w in
        match upload_result a with
        | Some url => (Ret url, on_recorder (set_uploadedUrl url) w1)
        | None => (Ret None, w1)
        end
    end.
Proof.
  unfold Recorder.upload, bind, gets. cbn.
  destruct (audioBlob (recorder w)) as [blob|]; [|done].
  unfold try_catch, bind, fetch, audio_request. cbn.
  destruct (server env _ _) as [|[] redirected url [|u]]; reflexivity.
Qed.

Lemma clear_spec (w : World) :
  Recorder.clear w
  = (Ret tt,
     on_dom (fun d =>
       set_recording_time ((fun _ => "0:00") <$> recording_time d)
         (set_audio_preview_hidden true d))
       (on_recorder (fun r =>
          set_uploadedUrl None
            (set_audioUrl None (set_audioBlob None (set_audioChunks [] r))))
          w)).
Proof. reflexivity. Qed.

Lemma upload_without_artifact (w : World) :
  audioBlob (recorder w) = None -> Recorder.upload env w = (Ret None, w).
Proof. intros H. by rewrite upload_spec, H. Qed.

Lemma upload_again_without_artifact (w : World) (n : nat) :
  audioBlob (recorder w) = None ->
  Nat.iter n (exec (Recorder.upload env)) w = w.
Proof.
  intros H. induction n as [|n IH]; [done|].
  rewrite Nat.iter_succ, IH. unfold exec. by rewrite upload_without_artifact.
Qed.

(** C7. After [clear()] the elapsed-time label reads [0:00] and there is
    no audio artifact; [upload()] then returns [null], sends nothing and
    changes nothing, so that the same holds for every further call. *)
Theorem clear_then_upload (w : World) (shown : string) :
  recording_time (dom w) = Some shown ->
  let w' := exec Recorder.clear w in
  fst (Recorder.clear w) = Ret tt /\
  recording_time (dom w') = Some "0:00" /\
  audioBlob (recorder w') = None /\
  forall n : nat,
    let w'' := Nat.iter n (exec (Recorder.upload env)) w' in
    w'' = w' /\ Recorder.upload env w'' = (Ret None, w'').
Proof.
  intros Hshown. cbv zeta.
  assert (Hblob : audioBlob (recorder (exec Recorder.clear w)) = None) by done.
  assert (Htime : recording_time (dom (exec Recorder.clear w)) = Some "0:00").
  { unfold exec. rewrite clear_spec. cbn. by rewrite Hshown. }
  repeat split; try done.
  - by apply upload_again_without_artifact.
  - rewrite upload_again_without_artifact by done.
    by apply upload_without_artifact.
Qed.

End RecorderFacts.

Lemma clear_then_upload_witness :
  let env := Demo.endpoints [] true in
  let w := Demo.after_take in
  let w' := Client.exec Client.Recorder.clear w in
  Client.recording_time (Client.dom w) = Some "0:04" /\
  Client.audioBlob (Client.recorder w)
  = Some {| Client.blob_data := "first take";
            Client.blob_type := "audio/webm" |} /\
  Client.recording_time (Client.dom w') = Some "0:00" /\
  Client.audioBlob (Client.recorder w') = None /\
  Client.Recorder.upload env w' = (Client.Ret None, w') /\
  Client.log (Client.browser w') = Client.log (Client.browser w).
Proof.
  cbv zeta.
  destruct (clear_then_upload (Demo.endpoints [] true) Demo.after_take "0:04")
    as (_ & Htime & Hblob & Hup).
  - vm_compute. reflexivity.
  - destruct (Hup 0) as [_ Hnull].
    split; [vm_compute; reflexivity|]. split; [vm_compute; reflexivity|].
    split; [exact Htime|]. split; [exact Hblob|]. split; [exact Hnull|].
    vm_compute. reflexivity.
Defined.

(* ================================================================== *)
(** * Properties: the submit listener *)
(* ================================================================== *)

Section SubmitHandlerFacts.
Import Js Client Design.
Context (env : Env).

Lemma conclude_spec (payload : list (string * Part)) (w : World) :
  try_catch
    (response <- fetch env "/api/submit" payload ;;
     if response_redirected response
     then modify (on_browser (set_location (Some (response_url response))))
     else if response_ok response
     then modify (on_browser (set_location (Some "/thank-you.html")))
     else throw (JsError "Submission failed"))
    (fun _ =>
       alert "Something went wrong. Please try again." ;;
       modify (on_dom (set_submit_disabled false)) ;;
       modify (on_dom (set_submit_label "Submit Project Inquiry"))) w
  = (Ret tt, conclude env payload w).
Proof.
  unfold try_catch, bind, fetch, conclude, submit_request, submission_failed.
  cbn. destruct (server env _ _) as [|[] [] url body]; reflexivity.
Qed.

Lemma audio_stage_spec (w : World) :
  (match audioBlob (recorder w) with
   | Some _ => Recorder.upload env
   | None => ret None
   end) w
  = (Ret (fst (audio_stage env w)), snd (audio_stage env w)).
Proof.
  unfold audio_stage.
  destruct (audioBlob (recorder w)) as [blob|] eqn:Hb; [|done].
  rewrite upload_spec, Hb. cbv zeta. by destruct (upload_result _).
Qed.

Lemma image_stage_spec (w : World) :
  (if decide (0 < length (files (uploader w)))
   then
     modify (on_dom (set_submit_label "Uploading images...")) ;;
     Uploader.uploadAll env
   else ret []) w
  = (Ret (fst (image_stage env w)), snd (image_stage env w)).
Proof.
  unfold image_stage.
  destruct (files (uploader w)) as [|f fs] eqn:Hf; [done|].
  cbn [length]. destruct (decide _); [|lia].
  unfold bind, modify. rewrite uploadAll_spec. cbn. by rewrite Hf.
Qed.

Lemma audio_stage_entries (w : World) :
  form_entries (dom (snd (audio_stage env w))) = form_entries (dom w).
Proof.
  unfold audio_stage. destruct (audioBlob (recorder w)); [|done].
  cbv zeta. by destruct (upload_result _).
Qed.

Lemma image_stage_entries (w : World) :
  form_entries (dom (snd (image_stage env w))) = form_entries (dom w).
Proof. unfold image_stage. by destruct (files (uploader w)). Qed.

Lemma on_submit_spec (w : World) :
  on_submit env w = (Ret tt, submit_outcome env w).
Proof.
  unfold on_submit, submit_outcome.
  unfold bind at 1. unfold modify at 1.
  unfold bind at 1. unfold modify at 1.
  unfold bind at 1. unfold gets at 1.
  unfold bind at 1. cbn [compose].
  set (w1 := on_dom (set_submit_label "Uploading files...") _).
  change (audioBlob (recorder (on_dom (set_submit_disabled true) w)))
    with (audioBlob (recorder w1)).
  rewrite (audio_stage_spec w1).
  pose proof (audio_stage_entries w1) as Hw2.
  destruct (audio_stage env w1) as [audioUrl w2]. cbn [fst snd] in *.
  unfold bind at 1. unfold gets at 1.
  unfold bind at 1. cbn [compose].
  rewrite (image_stage_spec w2).
  pose proof (image_stage_entries w2) as Hw3.
  destruct (image_stage env w2) as [imageUrls w3]. cbn [fst snd] in *.
  unfold bind at 1. unfold modify at 1.
  unfold bind at 1. unfold gets at 1. cbn [compose].
  rewrite <- conclude_spec. unfold payload_of. cbn [dom on_dom form_entries set_submit_label].
  rewrite Hw3, Hw2. reflexivity.
Qed.

(** What the two upload stages leave alone, and how the log grows. *)
Lemma audio_stage_frame (w : World) :
  let w' := snd (audio_stage env w) in
  (exists pre, log (browser w') = log (browser w) ++ pre) /\
  alerts (browser w') = alerts (browser w) /\
  location (browser w') = location (browser w).
Proof.
  unfold audio_stage. destruct (audioBlob (recorder w)).
  - cbv zeta. destruct (upload_result _); cbn; eauto.
  - cbn. split; [|done]. exists []. by rewrite app_nil_r.
Qed.

Lemma image_stage_frame (w : World) :
  let w' := snd (image_stage env w) in
  (exists pre, log (browser w') = log (browser w) ++ pre) /\
  alerts (browser w') = alerts (browser w) /\
  location (browser w') = location (browser w).
Proof.
  unfold image_stage. destruct (files (uploader w)).
  - cbn. split; [|done]. exists []. by rewrite app_nil_r.
  - cbn. eauto.
Qed.

(** C5. When the final POST ends in a network failure or in a status that
    is neither a success nor a redirect, the listener returns normally
    having raised one alert, enabled the submit control again and put
    back the caption it had; the fields of the form are as they were and
    the page has not navigated, so the user may submit again. *)
Theorem failed_submission_recoverable (w : World) (x : Request * Response) :
  let w' := exec (on_submit env) w in
  submit_label (dom w) = "Submit Project Inquiry" ->
  last (exchanged w w') = Some x ->
  submission_failed (snd x) = true ->
  fst (on_submit env w) = Ret tt /\
  req_url (fst x) = "/api/submit" /\
  alerts (browser w')
  = alerts (browser w) ++ ["Something went wrong. Please try again."] /\
  submit_disabled (dom w') = false /\
  submit_label (dom w') = submit_label (dom w) /\
  form_entries (dom w') = form_entries (dom w) /\
  location (browser w') = location (browser w).
Proof.
  cbv zeta. unfold exec, exchanged. rewrite on_submit_spec. cbn [fst snd].
  intros Hlabel. unfold submit_outcome.
  set (w1 := on_dom (set_submit_label "Uploading files...") _).
  destruct (audio_stage_frame w1) as ((pre1 & Hlog2) & Hal2 & Hloc2).
  pose proof (audio_stage_entries w1) as Hent2.
  destruct (audio_stage env w1) as [audioUrl w2]. cbn [fst snd] in *.
  destruct (image_stage_frame w2) as ((pre2 & Hlog3) & Hal3 & Hloc3).
  pose proof (image_stage_entries w2) as Hent3.
  destruct (image_stage env w2) as [imageUrls w3]. cbn [fst snd] in *.
  set (payload := payload_of _ _ _).
  assert (Hlog : log (browser w3) = log (browser w) ++ pre1 ++ pre2).
  { rewrite Hlog3, Hlog2. cbn. by rewrite app_assoc. }
  unfold conclude. cbn [browser on_dom log].
  set (a := server env _ _).
  assert (Hx : forall tail : World,
            log (browser tail) = log (browser w3) ++ [(submit_request payload, a)] ->
            last (drop (length (log (browser w))) (log (browser tail)))
            = Some (submit_request payload, a)).
  { intros tail ->. rewrite Hlog, <- !app_assoc, drop_app_length.
    by rewrite !app_assoc, last_snoc. }
  destruct (submission_failed a) eqn:Hfail.
  - rewrite Hx by done. intros [= <-] _. cbn.
    rewrite Hal3, Hal2, Hloc3, Hloc2, Hent3, Hent2. cbn.
    by rewrite Hlabel.
  - destruct (response_redirected a);
      (rewrite Hx by done; intros [= <-]; cbn; congruence).
Qed.


Lemma conclude_log (payload : list (string * Part)) (w : World) :
  log (browser (conclude env payload w))
  = log (browser w)
    ++ [(submit_request payload,
         server env (log (browser w)) (submit_request payload))].
Proof.
  unfold conclude. cbv zeta.
  destruct (submission_failed _); [|destruct (response_redirected _)]; done.
Qed.

(** C6, as amended. With two images selected and no recording, when the
    storage endpoint stores both images, the listener sends exactly three
    requests: one upload per image, in order, none for audio, then one
    POST whose payload is the fields of the form followed by one
    [image-urls] field that holds the two addresses the endpoint gave,
    separated by a comma; no [audio-url] field is added. *)
Theorem two_images_no_audio (w : World) (f1 f2 : File) (u1 u2 : string) :
  let w' := exec (on_submit env) w in
  audioBlob (recorder w) = None ->
  files (uploader w) = [f1; f2] ->
  (exchanged w w' !! 0) ≫= (upload_result ∘ snd) = Some (Some u1) ->
  (exchanged w w' !! 1) ≫= (upload_result ∘ snd) = Some (Some u2) ->
  two_image_outcome w w' /\
  exists a1 a2 a3,
    upload_result a1 = Some (Some u1) /\
    upload_result a2 = Some (Some u2) /\
    exchanged w w'
    = [ (image_request f1, a1); (image_request f2, a2);
        (submit_request
           (form_entries (dom w)
            ++ [("image-urls", PString (u1 +:+ "," +:+ u2))]), a3) ].
Proof.
  cbv zeta. intros Hblob Hfiles H1 H2.
  assert (Hmain : exists a1 a2 a3,
    upload_result a1 = Some (Some u1) /\
    upload_result a2 = Some (Some u2) /\
    exchanged w (exec (on_submit env) w)
    = [ (image_request f1, a1); (image_request f2, a2);
        (submit_request
           (form_entries (dom w)
            ++ [("image-urls", PString (u1 +:+ "," +:+ u2))]), a3) ]).
  { revert H1 H2.
    unfold exec, exchanged. rewrite on_submit_spec. cbn [fst snd].
    unfold submit_outcome, audio_stage, image_stage.
    cbn -[conclude payload_of]. rewrite Hblob.
    cbn -[conclude payload_of]. rewrite Hfiles.
    cbn -[conclude payload_of]. rewrite conclude_log.
    cbn -[conclude payload_of].
    set (a1 := server env _ (image_request f1)).
    set (a2 := server env _ (image_request f2)).
    set (payload := payload_of _ _ _).
    set (a3 := server env _ (submit_request payload)).
    rewrite <- app_assoc, drop_app_length. cbn.
    intros H1 H2.
    assert (Hp : payload
                 = form_entries (dom w)
                   ++ [("image-urls", PString (u1 +:+ "," +:+ u2))]).
    { unfold payload. rewrite H1, H2. unfold payload_of. cbn [length].
      destruct (decide _); [done|lia]. }
    rewrite Hp. by exists a1, a2, a3. }
  split; [|done].
  destruct Hmain as (a1 & a2 & a3 & _ & _ & Hx).
  by exists f1, f2, a1, a2, a3, u1, u2.
Qed.

End SubmitHandlerFacts.

(* ================================================================== *)
(** * The design document on concrete pages *)
(* ================================================================== *)

Section Scenarios.
Import Js Client Design.

(** C3, on the code. After an upload in which the second of three images
    failed, the two address slots belong to the first and the third
    image. Removing the third image then leaves its address in place;
    removing the second image instead drops the address of the third,
    which is still selected. *)
Theorem removeFile_misses_after_failed_upload :
  let env := Demo.endpoints ["b.png"] false in
  let w := Demo.after_partial_upload in
  files (uploader w)
  = [Demo.image "a.png"; Demo.image "b.png"; Demo.image "c.png"] /\
  uploadedUrls (uploader w)
  = [Some "https://blob.example/a.png"; Some "https://blob.example/c.png"] /\
  (let w' := step env w (ClickRemove 2) in
   files (uploader w') = [Demo.image "a.png"; Demo.image "b.png"] /\
   uploadedUrls (uploader w')
   = [Some "https://blob.example/a.png"; Some "https://blob.example/c.png"]) /\
  (let w' := step env w (ClickRemove 1) in
   files (uploader w') = [Demo.image "a.png"; Demo.image "c.png"] /\
   uploadedUrls (uploader w') = [Some "https://blob.example/a.png"]).
Proof. vm_compute. repeat split. Qed.

Lemma second_recording_url :
  uploadedUrl (recorder Demo.after_second_recording)
  = Some "https://blob.example/recording.webm".
Proof. vm_compute. reflexivity. Qed.

Lemma second_recording_blob :
  audioBlob (recorder Demo.after_second_recording)
  = Some {| blob_data := "second take"; blob_type := "audio/webm" |}.
Proof. vm_compute. reflexivity. Qed.

Lemma second_recording_log :
  map fst (log (browser Demo.after_second_recording))
  = [ audio_request {| blob_data := "first take"; blob_type := "audio/webm" |};
      submit_request
        (form_entries Demo.page
         ++ [("audio-url", PString "https://blob.example/recording.webm")]) ].
Proof. vm_compute. reflexivity. Qed.

(** C4, on the code. A recording is uploaded by a submission that fails
    at the final POST, and a second recording replaces the first: the
    uploaded address is still the one obtained for the first recording,
    and no exchange ever sent the current one. *)
Theorem uploaded_url_outlives_artifact :
  let w := Demo.after_second_recording in
  uploadedUrl (recorder w) = Some "https://blob.example/recording.webm" /\
  audioBlob (recorder w)
  = Some {| blob_data := "second take"; blob_type := "audio/webm" |} /\
  map fst (log (browser w))
  = [ audio_request {| blob_data := "first take"; blob_type := "audio/webm" |};
      submit_request
        (form_entries Demo.page
         ++ [("audio-url", PString "https://blob.example/recording.webm")]) ] /\
  ~ uploaded_from_current w.
Proof.
  cbv zeta.
  pose proof second_recording_url as Hurl.
  pose proof second_recording_blob as Hblob.
  pose proof second_recording_log as Hlog.
  revert Hurl Hblob Hlog. generalize Demo.after_second_recording.
  intros w Hurl Hblob Hlog.
  split; [exact Hurl|]. split; [exact Hblob|]. split; [exact Hlog|].
  intros H. destruct (H _ Hurl) as (blob & a & Hb & Hin & _).
  rewrite Hblob in Hb. injection Hb as <-.
  apply (list_elem_of_fmap_2 fst) in Hin.
  change (fst <$> log (browser w)) with (map fst (log (browser w))) in Hin.
  rewrite Hlog in Hin. cbn in Hin.
  apply elem_of_cons in Hin as [Hin|Hin]; [discriminate Hin|].
  apply elem_of_cons in Hin as [Hin|Hin]; [discriminate Hin|].
  by apply not_elem_of_nil in Hin.
Qed.

Lemma uploadAll_skips_one_failure_witness :
  exists urls,
    Uploader.uploadAll (Demo.endpoints ["b.png"] false) Demo.three_selected
    = (Ret urls,
       exec (Uploader.uploadAll (Demo.endpoints ["b.png"] false))
         Demo.three_selected) /\
    length urls = 2.
Proof.
  destruct (uploadAll_skips_one_failure (Demo.endpoints ["b.png"] false)
              Demo.three_selected 1) as (urls & Hret & _ & Hlen & _).
  - vm_compute. lia.
  - intros j x.
    destruct j as [|[|[|j]]]; vm_compute; intros [= <-]; split;
      (discriminate || reflexivity || lia).
  - exists urls. split; [exact Hret|exact Hlen].
Defined.

Lemma failed_submission_recoverable_witness :
  let w' := exec (on_submit (Demo.endpoints [] false)) Demo.two_selected in
  alerts (browser w') = ["Something went wrong. Please try again."] /\
  submit_disabled (dom w') = false /\
  submit_label (dom w') = "Submit Project Inquiry".
Proof.
  edestruct (failed_submission_recoverable (Demo.endpoints [] false)
               Demo.two_selected) as (_ & _ & Ha & Hd & Hl & _).
  - reflexivity.
  - vm_compute. reflexivity.
  - reflexivity.
  - cbv zeta. split; [exact Ha|]. split; [exact Hd|]. rewrite Hl. reflexivity.
Defined.

Lemma two_images_no_audio_witness :
  two_image_outcome Demo.two_selected
    (exec (on_submit (Demo.endpoints [] true)) Demo.two_selected).
Proof.
  apply (two_images_no_audio (Demo.endpoints [] true) Demo.two_selected
           (Demo.image "a.png") (Demo.image "b.png")
           "https://blob.example/a.png" "https://blob.example/b.png");
    vm_compute; reflexivity.
Defined.

(** C6 as first stated fails: when the storage endpoint refuses one of
    the two images, the payload carries a single address. *)
Lemma two_images_one_refused :
  ~ (forall (env : Env) (w : World),
       audioBlob (recorder w) = None ->
       length (files (uploader w)) = 2 ->
       two_image_outcome w (exec (on_submit env) w)).
Proof.
  intros H.
  specialize (H (Demo.endpoints ["b.png"] true) Demo.two_selected
                eq_refl eq_refl).
  destruct H as (f1 & f2 & a1 & a2 & a3 & u1 & u2 & _ & Hx).
  assert (Hsent : map (req_body ∘ fst)
                    (exchanged Demo.two_selected
                       (exec (on_submit (Demo.endpoints ["b.png"] true))
                          Demo.two_selected)) !! 2
                  = Some (form_entries Demo.page
                          ++ [("image-urls",
                               PString "https://blob.example/a.png")]))
    by (vm_compute; reflexivity).
  rewrite Hx in Hsent. cbn in Hsent.
  injection Hsent as Hsent.
  apply (f_equal (has_char ",")) in Hsent.
  rewrite !has_char_app in Hsent. cbn in Hsent.
  by rewrite orb_true_r in Hsent.
Qed.

Lemma stored_blob_extension_witness :
  (exists blob,
     snd (Upload.handler Demo.storage Demo.audio_upload) = Some blob /\
     last_segment "." (Upload.stored_name blob) = "webm") /\
  (exists blob,
     snd (Upload.handler Demo.storage Demo.image_upload) = Some blob /\
     last_segment "." (Upload.stored_name blob) = "png").
Proof.
  split.
  - edestruct (stored_blob_extension Demo.storage Demo.audio_upload)
      as (field & file & rest & Hp & _ & Haudio & _).
    + vm_compute. reflexivity.
    + injection Hp as <- <- <-.
      eexists. split; [vm_compute; reflexivity|]. by eapply Haudio.
  - edestruct (stored_blob_extension Demo.storage Demo.image_upload)
      as (field & file & rest & Hp & _ & _ & Hother).
    + vm_compute. reflexivity.
    + injection Hp as <- <- <-.
      eexists. split; [vm_compute; reflexivity|].
      rewrite (Hother "image" []); [reflexivity| |discriminate].
      left. split; [reflexivity|discriminate].
Defined.
End Scenarios.

(* ================================================================== *)
(** * Properties: the waveform loop and the timer *)
(* ================================================================== *)

Ltac world_case :=
  match goal with
  | |- context [match ?x with _ => _ end] =>
      first
        [ is_var x; destruct x
        | match x with
          | Client.mr_recording _ => destruct x eqn:?
          | Client.mr_stopping _ => destruct x eqn:?
          | Client.stopThrowsWhenInactive _ => destruct x eqn:?
          | Client.isTypeSupported _ _ => destruct x eqn:?
          | decide _ => destruct x
          end ]
  end.

Ltac world_cases := cbn; repeat (world_case; cbn).

Ltac owned_solve :=
  repeat match goal with
         | |- _ /\ _ => split
         | |- _ -> _ => intros ?
         | |- Design.owned _ _ =>
             unfold Design.owned;
             first [ left; reflexivity
                   | right; eexists; split; [reflexivity|];
                     split; [reflexivity|]; lia ]
         end;
  try reflexivity; try discriminate; try congruence.

Section LoopFacts.
Import Js Client Design.
Context (env : Env).

Lemma record_click_owned (w : World) (granted : bool) :
  loops_owned w -> loops_owned (exec (on_record_click env granted) w).
Proof.
  destruct w as [[mr mt chunks blob url rec up an aid st ti] u
                 [l1 l2 l3 l4 l5 canvas timeEl l8 l9 l10 l11 l12 l13]
                 [lg ck rl fr tl iv bl al loc]].
  unfold loops_owned. cbn. intros (Hf & Hi & Hoff). unfold owned in Hf, Hi.
  unfold exec, on_record_click, Recorder.init, Recorder.start, Recorder.stop,
    Recorder.mediaRecorder_start, Recorder.mediaRecorder_stop,
    Recorder.stopWaveform, Recorder.stopTimer, Recorder.startWaveform,
    Recorder.startTimer, Recorder.draw, Recorder.updateUI, alert,
    cancelAnimationFrame, clearInterval, truthy_handle,
    requestAnimationFrame, setInterval, bind, gets, modify, ret, throw.
  destruct rec.
  - clear Hoff.
    destruct Hf as [->|(hf & -> & -> & Hhf)], Hi as [->|(hi & -> & -> & Hhi)];
      world_cases; owned_solve.
  - destruct (Hoff eq_refl) as [-> ->]. clear Hf Hi Hoff.
    world_cases; owned_solve.
Qed.

Lemma animation_frame_owned (w : World) :
  loops_owned w -> loops_owned (exec (dispatch env AnimationFrame) w).
Proof.
  destruct w as [[mr mt chunks blob url rec up an aid st ti] u
                 [l1 l2 l3 l4 l5 canvas timeEl l8 l9 l10 l11 l12 l13]
                 [lg ck rl fr tl iv bl al loc]].
  unfold loops_owned. cbn. intros (Hf & Hi & Hoff). unfold owned in Hf.
  unfold exec, dispatch, Recorder.draw, requestAnimationFrame,
    bind, gets, modify, ret.
  destruct Hf as [->|(hf & -> & -> & Hhf)]; cbn.
  - destruct rec; [by owned_solve|].
    destruct (Hoff eq_refl) as [_ ->]. owned_solve.
  - destruct rec; cbn; [by owned_solve|].
    by destruct (Hoff eq_refl) as [? _].
Qed.

(** The part of the world the loops live in. *)
Lemma loops_owned_ext (w w' : World) :
  frames (browser w') = frames (browser w) ->
  intervals (browser w') = intervals (browser w) ->
  animationId (recorder w') = animationId (recorder w) ->
  timerInterval (recorder w') = timerInterval (recorder w) ->
  isRecording (recorder w') = isRecording (recorder w) ->
  loops_owned w -> loops_owned w'.
Proof. unfold loops_owned. by intros -> -> -> -> ->. Qed.

Lemma dispatch_keeps_loops (ev : Event) :
  match ev with ClickRecord _ | AnimationFrame => False | _ => True end ->
  keeps (frames ∘ browser) (dispatch env ev) /\
  keeps (intervals ∘ browser) (dispatch env ev) /\
  keeps (animationId ∘ recorder) (dispatch env ev) /\
  keeps (timerInterval ∘ recorder) (dispatch env ev) /\
  keeps (isRecording ∘ recorder) (dispatch env ev).
Proof.
  destruct ev; intros H; try done; repeat split; keeps_go.
Qed.

Lemma step_owned (w : World) (ev : Event) :
  loops_owned w -> loops_owned (step env w ev).
Proof.
  intros Hw. unfold step. destruct (location (browser w)); [done|].
  assert (Hk : forall ev',
            match ev' with
            | ClickRecord _ | AnimationFrame => False
            | _ => True
            end -> loops_owned (exec (dispatch env ev') w)).
  { intros ev' Hc.
    destruct (dispatch_keeps_loops ev' Hc) as (H1 & H2 & H3 & H4 & H5).
    apply (loops_owned_ext w);
      [apply H1|apply H2|apply H3|apply H4|apply H5|done]. }
  destruct ev; try (by apply Hk).
  - by apply record_click_owned.
  - by apply animation_frame_owned.
Qed.

Lemma run_owned (w : World) (evs : list Event) :
  loops_owned w -> loops_owned (run env w evs).
Proof.
  revert w. induction evs as [|ev evs IH]; intros w Hw; [done|].
  cbn. apply IH. by apply step_owned.
Qed.

Lemma loaded_owned (page : Dom) (now : nat) : loops_owned (loaded page now).
Proof. unfold loops_owned, owned. cbn. auto. Qed.


(** ** [stop()] *)

Lemma stop_tears_down (w : World) :
  loops_owned w ->
  fst (Recorder.stop env w) = Ret tt ->
  torn_down (exec (Recorder.stop env) w).
Proof.
  destruct w as [[mr mt chunks blob url rec up an aid st ti] u
                 [l1 l2 l3 l4 l5 canvas timeEl l8 l9 l10 l11 l12 l13]
                 [lg ck rl fr tl iv bl al loc]].
  unfold loops_owned, torn_down. cbn. intros (Hf & Hi & _).
  unfold owned in Hf, Hi.
  unfold exec, Recorder.stop, Recorder.mediaRecorder_stop,
    Recorder.stopWaveform, Recorder.stopTimer,
    cancelAnimationFrame, clearInterval, truthy_handle,
    bind, gets, modify, ret, throw.
  destruct Hf as [->|(hf & -> & -> & Hhf)], Hi as [->|(hi & -> & -> & Hhi)];
    world_cases; intros Hret; try discriminate Hret; by repeat split.
Qed.

(** [stop()] returns whenever the recorder is initialised, unless the
    browser is one that throws on an inactive recorder and the recorder
    is inactive. *)
Lemma stop_returns (w : World) (mr : MediaRecorder) :
  mediaRecorder (recorder w) = Some mr ->
  mr_recording mr = true \/ stopThrowsWhenInactive env = false ->
  fst (Recorder.stop env w) = Ret tt.
Proof.
  destruct w as [[mr' mt chunks blob url rec up an aid st ti] u d b].
  cbn. intros -> Hmr.
  unfold Recorder.stop, Recorder.mediaRecorder_stop,
    Recorder.stopWaveform, Recorder.stopTimer,
    cancelAnimationFrame, clearInterval, truthy_handle,
    bind, gets, modify, ret, throw.
  world_cases; try reflexivity; destruct Hmr; congruence.
Qed.

(** ** After the loops are gone *)

Lemma passive_step (w : World) (ev : Event) :
  passive ev = true ->
  torn_down w ->
  torn_down (step env w ev) /\
  waveform (dom (step env w ev)) = waveform (dom w) /\
  recording_time (dom (step env w ev)) = recording_time (dom w).
Proof.
  intros Hev (Hrec & Hfr & Hiv). unfold step.
  destruct (location (browser w)); [done|].
  assert (Hk : forall ev',
            match ev' with
            | ClickRecord _ | AnimationFrame => False
            | _ => True
            end -> torn_down (exec (dispatch env ev') w)).
  { intros ev' Hc.
    destruct (dispatch_keeps_loops ev' Hc) as (H1 & H2 & _ & _ & H5).
    unfold torn_down, exec.
    specialize (H1 w). specialize (H2 w). specialize (H5 w).
    cbn in H1, H2, H5. by rewrite H1, H2, H5. }
  destruct ev; try discriminate Hev.
  - (* a frame: nothing is pending *)
    unfold exec, dispatch, bind, gets, modify. cbn. rewrite Hfr. cbn.
    unfold torn_down. cbn. by rewrite Hrec, Hiv.
  - (* a timer: none is armed *)
    unfold exec, dispatch, bind, gets. cbn. rewrite Hiv.
    destruct (decide _) as [Hin|_]; [by apply not_elem_of_nil in Hin|].
    done.
  - split; [by apply Hk|]. split.
    + assert (keeps (waveform ∘ dom) (dispatch env (TimePasses ms)))
        as H by keeps_go. apply H.
    + assert (keeps (recording_time ∘ dom) (dispatch env (TimePasses ms)))
        as H by keeps_go. apply H.
  - split; [by apply Hk|]. split.
    + assert (keeps (waveform ∘ dom) (dispatch env (DataAvailable data)))
        as H by keeps_go. apply H.
    + assert (keeps (recording_time ∘ dom) (dispatch env (DataAvailable data)))
        as H by keeps_go. apply H.
  - split; [by apply Hk|]. split.
    + assert (keeps (waveform ∘ dom) (dispatch env (RecorderStopped data)))
        as H by keeps_go. apply H.
    + assert (keeps (recording_time ∘ dom)
                (dispatch env (RecorderStopped data)))
        as H by keeps_go. apply H.
  - split; [by apply Hk|]. split.
    + assert (keeps (waveform ∘ dom) (dispatch env StreamEnded))
        as H by keeps_go. apply H.
    + assert (keeps (recording_time ∘ dom) (dispatch env StreamEnded))
        as H by keeps_go. apply H.
Qed.

Lemma passive_run (w : World) (evs : list Event) :
  forallb passive evs = true ->
  torn_down w ->
  torn_down (run env w evs) /\
  waveform (dom (run env w evs)) = waveform (dom w) /\
  recording_time (dom (run env w evs)) = recording_time (dom w).
Proof.
  revert w. induction evs as [|ev evs IH]; intros w Hevs Hw; [done|].
  cbn in Hevs. apply andb_true_iff in Hevs as [Hev Hevs].
  destruct (passive_step w ev Hev Hw) as (Hw1 & Hc1 & Ht1).
  destruct (IH (step env w ev) Hevs Hw1) as (Hw2 & Hc2 & Ht2).
  change (run env w (ev :: evs)) with (run env (step env w ev) evs).
  by rewrite Hc2, Ht2, Hc1, Ht1.
Qed.

(** X27. Whenever [stop()] returns, in any state the page can reach, both
    loops are gone: no animation frame is pending and no timer is armed.
    From then on, whatever the browser does on its own (frames, timer
    ticks, time passing, recorder events), the waveform is not painted
    again and the elapsed-time label does not change. *)
Theorem stop_cancels_both_loops (page : Dom) (now : nat)
    (history later : list Event) (w' : World) :
  Recorder.stop env (run env (loaded page now) history) = (Ret tt, w') ->
  forallb passive later = true ->
  frames (browser w') = [] /\
  intervals (browser w') = [] /\
  waveform (dom (run env w' later)) = waveform (dom w') /\
  recording_time (dom (run env w' later)) = recording_time (dom w').
Proof.
  intros Hstop Hlater.
  pose proof (run_owned _ history (loaded_owned page now)) as Hown.
  pose proof (stop_tears_down _ Hown) as Hdown.
  unfold exec in Hdown. rewrite Hstop in Hdown. specialize (Hdown eq_refl).
  destruct (passive_run w' later Hlater Hdown) as (_ & Hc & Ht).
  destruct Hdown as (_ & Hfr & Hiv). done.
Qed.

End LoopFacts.

Lemma stop_cancels_both_loops_witness :
  let env := Demo.endpoints [] true in
  let w' := Client.exec (Client.Recorder.stop env)
              (Client.run env (Client.loaded Demo.page 0) Demo.recording) in
  Client.frames (Client.browser w') = [] /\
  Client.intervals (Client.browser w') = [].
Proof.
  edestruct (stop_cancels_both_loops (Demo.endpoints [] true) Demo.page 0
               Demo.recording [Client.AnimationFrame; Client.IntervalFires 1])
    as (Hf & Hi & _).
  - vm_compute. reflexivity.
  - reflexivity.
  - split; [exact Hf|exact Hi].
Defined.

(** C8, on the code. In a browser whose recorder throws when it is
    stopped while inactive, a recording is started and the stream ends by
    itself. The page still shows a recording, so the next click calls
    [stop()]: the call throws at [mediaRecorder.stop()], before the two
    cancellations, and leaves the frame pending and the timer armed. The
    next frame paints the waveform again and the next tick rewrites the
    elapsed-time label. *)
Theorem stop_throws_before_cancelling :
  let env := Demo.old_engine in
  let w := Demo.stream_lost in
  let w' := Client.exec (Client.Recorder.stop env) w in
  Client.isRecording (Client.recorder w) = true /\
  Client.Recorder.stop env w = (Client.Exc Client.InvalidStateError, w') /\
  Client.step env w (Client.ClickRecord true) = w' /\
  Client.frames (Client.browser w') = [1] /\
  Client.intervals (Client.browser w') = [1] /\
  Client.waveform (Client.dom w') = Some 1 /\
  Client.waveform (Client.dom (Client.run env w' [Client.AnimationFrame]))
  = Some 2 /\
  Client.recording_time (Client.dom w') = Some "0:00" /\
  Client.recording_time
    (Client.dom (Client.run env w'
                   [Client.TimePasses 3000; Client.IntervalFires 1]))
  = Some "0:03".
Proof. vm_compute. repeat split. Qed.
(* ================================================================== *)
(** * api/submit.js: what escaped text can contain *)
(* ================================================================== *)

Section EscapeFacts.
Import Js.

Lemma escape_char_plain (c q : ascii) :
  (q = dq \/ q = "'"%char \/ q = nl) ->
  Design.has_char q (Design.escape_char c) = false.
Proof.
  intros [->|[->| ->]];
    destruct c as [[] [] [] [] [] [] [] []]; reflexivity.
Qed.

Lemma escape_chars_plain (s : string) (q : ascii) :
  (q = dq \/ q = "'"%char \/ q = nl) ->
  Design.has_char q (Design.escape_chars s) = false.
Proof.
  intros Hq. induction s as [|c s IH]; [done|].
  cbn [Design.escape_chars]. by rewrite has_char_app, escape_char_plain, IH.
Qed.

Lemma escape_char_angle (c q : ascii) :
  (q = "<"%char \/ q = ">"%char) ->
  Ascii.eqb c nl = false ->
  Design.has_char q (Design.escape_char c) = false.
Proof.
  intros [->| ->];
    destruct c as [[] [] [] [] [] [] [] []]; (reflexivity || discriminate).
Qed.

Lemma escape_chars_angle (s : string) (q : ascii) :
  (q = "<"%char \/ q = ">"%char) ->
  Design.has_char nl s = false ->
  Design.has_char q (Design.escape_chars s) = false.
Proof.
  intros Hq. induction s as [|c s IH]; [done|].
  cbn [Design.escape_chars Design.has_char].
  intros [Hc Hs]%orb_false_iff.
  by rewrite has_char_app, escape_char_angle, IH.
Qed.

(** X1. What [escapeHtml] returns never contains a double quote, a single
    quote or a line feed, so it cannot end the attribute or the text it
    is put in; and it contains an angle bracket only where the value had
    a line feed (as part of the break that replaces it). *)
Theorem escapeHtml_output_is_inert (text : option string) :
  Design.has_char dq (Submit.escapeHtml text) = false /\
  Design.has_char "'" (Submit.escapeHtml text) = false /\
  Design.has_char nl (Submit.escapeHtml text) = false /\
  (Design.has_char nl (default EmptyString text) = false ->
   Design.has_char "<" (Submit.escapeHtml text) = false /\
   Design.has_char ">" (Submit.escapeHtml text) = false).
Proof.
  destruct text as [s|]; [|by repeat split].
  rewrite escapeHtml_chars. cbn [default].
  split; [apply escape_chars_plain; auto|].
  split; [apply escape_chars_plain; auto|].
  split; [apply escape_chars_plain; auto|].
  intros Hnl. split; apply escape_chars_angle; auto.
Qed.

End EscapeFacts.

Lemma escapeHtml_output_is_inert_witness :
  Design.has_char "<" (Submit.escapeHtml (Some "a <b> & 'c'")) = false.
Proof.
  apply (escapeHtml_output_is_inert (Some "a <b> & 'c'")). reflexivity.
Defined.

(* ================================================================== *)
(** * api/submit.js: escaping loses nothing *)
(* ================================================================== *)

Section EscapeInjective.
Import Js.
#[local] Arguments String.append !_ _ / : simpl nomatch.

Lemma escape_char_cases (c : ascii) :
  c = "&"%char \/ c = "<"%char \/ c = ">"%char \/ c = dq \/ c = "'"%char \/
  c = nl \/
  (Design.escape_char c = String c EmptyString /\
   c <> "&"%char /\ c <> "<"%char).
Proof.
  destruct c as [[] [] [] [] [] [] [] []];
    first [ left; reflexivity
          | right; left; reflexivity
          | right; right; left; reflexivity
          | right; right; right; left; reflexivity
          | right; right; right; right; left; reflexivity
          | right; right; right; right; right; left; reflexivity
          | right; right; right; right; right; right;
            split; [reflexivity|split; discriminate] ].
Qed.

Lemma escape_char_inj (x y : ascii) (a b : string) :
  Design.escape_char x +:+ a = Design.escape_char y +:+ b -> x = y /\ a = b.
Proof.
  destruct (escape_char_cases x)
    as [->|[->|[->|[->|[->|[->|(Hx & Hx1 & Hx2)]]]]]];
  destruct (escape_char_cases y)
    as [->|[->|[->|[->|[->|[->|(Hy & Hy1 & Hy2)]]]]]];
  rewrite ?Hx, ?Hy; simpl; intros H; try discriminate H;
    try (injection H as H; split; congruence);
    try (injection H as H1 H2; split; congruence).
Qed.

Lemma escape_chars_inj (a b : string) :
  Design.escape_chars a = Design.escape_chars b -> a = b.
Proof.
  revert b. induction a as [|x a IH]; intros [|y b]; cbn [Design.escape_chars].
  - done.
  - destruct (escape_char_cases y)
      as [->|[->|[->|[->|[->|[->|(Hy & _)]]]]]];
      rewrite ?Hy; simpl; discriminate.
  - destruct (escape_char_cases x)
      as [->|[->|[->|[->|[->|[->|(Hx & _)]]]]]];
      rewrite ?Hx; simpl; discriminate.
  - intros [-> H]%escape_char_inj. by rewrite (IH b H).
Qed.

(** X2. Escaping loses nothing: two values with the same escaped text
    are the same value. *)
Theorem escapeHtml_injective (a b : string) :
  Submit.escapeHtml (Some a) = Submit.escapeHtml (Some b) -> a = b.
Proof. rewrite !escapeHtml_chars. apply escape_chars_inj. Qed.

End EscapeInjective.

(* ================================================================== *)
(** * api/submit.js: the fields the email reads *)
(* ================================================================== *)

Section EmailDependsOn.
Import Js.

Lemma field_row_filled (label : string) (v1 v2 : option string) :
  MailFields.filled v1 = MailFields.filled v2 ->
  Design.field_row (label, v1) = Design.field_row (label, v2).
Proof.
  destruct v1 as [[|c1 s1]|], v2 as [[|c2 s2]|]; cbn; intros H; try done;
    by injection H as -> ->.
Qed.

Lemma in_rendered_keys (k : string) :
  bool_decide (k ∈ MailFields.rendered_keys) = true -> k ∈ MailFields.rendered_keys.
Proof. apply bool_decide_eq_true_1. Qed.

(** X3. The email depends on the form data only through the fields the
    code names, and only through whether each is filled in and with
    what: a field it does not name never shows, and an empty value is
    the same as none. *)
Theorem formatEmailBody_reads_only (d1 d2 : Submit.Data) :
  (forall k, k ∈ MailFields.rendered_keys ->
     MailFields.filled (d1 !! k) = MailFields.filled (d2 !! k)) ->
  Submit.formatEmailBody d1 = Submit.formatEmailBody d2.
Proof.
  intros H. rewrite !formatEmailBody_email. unfold Design.email.
  assert (Hrow : forall label k, k ∈ MailFields.rendered_keys ->
            Design.field_row (label, d1 !! k)
            = Design.field_row (label, d2 !! k)).
  { intros label k Hk. by apply field_row_filled, H. }
  f_equal. f_equal.
  - unfold Submit.sections, Design.section_html, Design.cat.
    cbn [map fold_right Submit.title Submit.fields].
    rewrite !Hrow by (apply in_rendered_keys; vm_compute; reflexivity).
    reflexivity.
  - f_equal; [|f_equal].
    + unfold Design.audio_html.
      assert (Ha : MailFields.filled (d1 !! "audio-url")
                   = MailFields.filled (d2 !! "audio-url"))
        by (apply H, in_rendered_keys; vm_compute; reflexivity).
      by destruct (d1 !! "audio-url") as [[|c1 s1]|],
                  (d2 !! "audio-url") as [[|c2 s2]|];
        cbn in Ha; simplify_eq.
    + unfold Design.images_html.
      assert (Hi : MailFields.filled (d1 !! "image-urls")
                   = MailFields.filled (d2 !! "image-urls"))
        by (apply H, in_rendered_keys; vm_compute; reflexivity).
      by destruct (d1 !! "image-urls") as [[|c1 s1]|],
                  (d2 !! "image-urls") as [[|c2 s2]|];
        cbn in Hi; simplify_eq.
Qed.

End EmailDependsOn.

(* ================================================================== *)
(** * Joining and splitting the image addresses *)
(* ================================================================== *)

Section SplitJoin.
Import Js.
#[local] Arguments String.append !_ _ / : simpl nomatch.

Lemma join_cons (sep x y : string) (rest : list string) :
  join sep (x :: y :: rest) = x +:+ sep +:+ join sep (y :: rest).
Proof. reflexivity. Qed.

Lemma split_not_nil (sep : ascii) (s : string) : split sep s <> [].
Proof.
  destruct s as [|c s]; cbn; [done|].
  destruct (Ascii.eqb c sep); [done|]. by destruct (split sep s).
Qed.

Lemma split_app_sep (sep : ascii) (x rest : string) :
  Design.has_char sep x = false ->
  split sep (x +:+ String sep rest) = x :: split sep rest.
Proof.
  induction x as [|c x IH]; cbn.
  - intros _. by rewrite Ascii.eqb_refl.
  - intros [Hc Hx]%orb_false_iff. rewrite Hc. by rewrite (IH Hx).
Qed.

Lemma join_split (sep : ascii) (s : string) :
  join (String sep EmptyString) (split sep s) = s.
Proof.
  induction s as [|c s IH]; [done|].
  cbn [split]. pose proof (split_not_nil sep s) as Hnil.
  destruct (Ascii.eqb_spec c sep) as [->|Hne];
    destruct (split sep s) as [|y rest] eqn:Hs; try done.
  - rewrite join_cons, IH. reflexivity.
  - rewrite <- IH. destruct rest; reflexivity.
Qed.

Lemma split_join (sep : ascii) (xs : list string) :
  xs <> [] ->
  Forall (fun x => Design.has_char sep x = false) xs ->
  split sep (join (String sep EmptyString) xs) = xs.
Proof.
  induction xs as [|x xs IH]; [done|]. intros _ Hall.
  apply Forall_cons in Hall as [Hx Hxs].
  destruct xs as [|y rest].
  - cbn [join]. by apply split_no_sep.
  - rewrite join_cons.
    change (String sep EmptyString +:+ ?j) with (String sep j).
    rewrite split_app_sep by done. by rewrite IH.
Qed.

(** X4. Joining what [split] gives, with the same separator, gives the
    string back; and splitting a joined list gives the list back when the
    list is not empty and no element contains the separator. This is the
    path of the image addresses: the client joins them with a comma and
    the email handler splits them at commas. *)
Theorem split_join_round_trip (sep : ascii) :
  (forall s : string, join (String sep EmptyString) (split sep s) = s) /\
  (forall xs : list string,
     xs <> [] ->
     Forall (fun x => Design.has_char sep x = false) xs ->
     split sep (join (String sep EmptyString) xs) = xs).
Proof. split; [apply join_split|apply split_join]. Qed.

End SplitJoin.

Lemma split_join_round_trip_witness :
  Js.split "," (Js.join "," ["https://a/1.png"; "https://a/2.png"])
  = ["https://a/1.png"; "https://a/2.png"].
Proof.
  apply (proj2 (split_join_round_trip ",")); [discriminate|].
  repeat constructor.
Defined.

(* ================================================================== *)
(** * api/submit.js: the images in the email, and the handler *)
(* ================================================================== *)

Section ServerFacts.
Import Js.

(** X5. The email shows the images the client sent: when the
    [image-urls] field is what the client makes of a non-empty list of
    addresses without commas, the body has one linked thumbnail per
    address, in order, each address escaped, under a heading that counts
    them. *)
Theorem email_shows_joined_images (data : Submit.Data) (urls : list string) :
  urls <> [] ->
  Forall (fun u => Design.has_char "," u = false) urls ->
  Client.join_urls (map Some urls) <> EmptyString ->
  data !! "image-urls" = Some (Client.join_urls (map Some urls)) ->
  Submit.formatEmailBody data
  = Submit.html_head
    +:+ Design.cat (map Design.section_html (Submit.sections data))
    +:+ Design.audio_html data
    +:+ (Submit.images_head (num (length urls))
         +:+ Design.cat
               (map (fun u => Submit.image_block
                                (Submit.escapeHtml (Some u))
                                (Submit.escapeHtml (Some u))) urls)
         +:+ "</div>")
    +:+ Submit.html_foot.
Proof.
  intros Hne Hall Hfilled Hdata.
  rewrite formatEmailBody_email. unfold Design.email, Design.images_html.
  rewrite Hdata.
  assert (Hj : Client.join_urls (map Some urls) = join "," urls).
  { unfold Client.join_urls. rewrite map_map. cbn. by rewrite map_id. }
  rewrite Hj in *.
  destruct (join "," urls) as [|c s] eqn:Hjoin; [done|].
  rewrite <- Hjoin.
  rewrite (split_join "," urls Hne Hall).
  assert (Himg : map Design.image_html urls
                 = map (fun u => Submit.image_block
                                   (Submit.escapeHtml (Some u))
                                   (Submit.escapeHtml (Some u))) urls).
  { apply map_ext. intros u. unfold Design.image_html.
    by rewrite escapeHtml_chars. }
  by rewrite Himg.
Qed.

(** X6. The submission handler answers with the redirect to the
    confirmation page exactly when the request is a POST, the form was
    parsed and the mail service accepted the message; it answers 405
    exactly when the request is not a POST, and 500 in every other case.
    No message is given to the mail service unless the request is a POST
    whose form was parsed. *)
Theorem submit_handler_replies (send : Submit.Email -> Submit.SendResult)
    (req : Submit.Request) :
  let reply := fst (Submit.handler send req) in
  let sent := snd (Submit.handler send req) in
  (reply = Submit.ReplyRedirect 302 "/thank-you.html" <->
   Submit.method req = "POST" /\
   exists fields, Submit.parsed req = Some fields /\
     send (Submit.compose (Submit.flatten fields)) = Submit.SendStatus true) /\
  (reply = Submit.ReplyError 405 "Method not allowed" <->
   Submit.method req <> "POST") /\
  (reply = Submit.ReplyRedirect 302 "/thank-you.html" \/
   reply = Submit.ReplyError 405 "Method not allowed" \/
   reply = Submit.ReplyError 500 "Failed to submit form") /\
  (sent = None <->
   Submit.method req <> "POST" \/ Submit.parsed req = None).
Proof.
  cbv zeta. unfold Submit.handler.
  destruct (String.eqb_spec (Submit.method req) "POST") as [Hm|Hm]; cbn.
  - destruct (Submit.parsed req) as [fields|]; cbn.
    + destruct (send _) as [|[]] eqn:Hs; cbn;
        (split; [split; [intros H; try discriminate H;
                         (split; [done|]); by exists fields
                        |intros (_ & fields' & [= <-] & Hs'); congruence]|]);
        (split; [split; [discriminate|done]|]);
        (split; [auto|]);
        (split; [discriminate|intros [?|?]; done]).
    + split; [split; [discriminate|by intros (_ & fields & ? & _)]|].
      split; [split; [discriminate|done]|].
      split; [auto|]. split; auto.
  - split; [split; [discriminate|by intros [? _]]|].
    split; [done|]. split; [auto|]. split; auto.
Qed.

(** X7. The message the submission handler composes: the subject ends
    with the company, or with [Unknown Company] when the company field
    is missing or empty; replies go to the [email] field; each field is
    read as its first value; the body is the one [formatEmailBody]
    builds from those values. *)
Theorem submit_handler_message (send : Submit.Email -> Submit.SendResult)
    (req : Submit.Request) (reply : Submit.Reply) (e : Submit.Email) :
  Submit.handler send req = (reply, Some e) ->
  exists fields data,
    Submit.parsed req = Some fields /\
    (forall k, data !! k = fields !! k ≫= Submit.first_value) /\
    Submit.subject e
    = "New Project Inquiry: "
      +:+ match data !! "company" with
          | Some (String c s) => String c s
          | _ => "Unknown Company"
          end /\
    Submit.reply_to e = data !! "email" /\
    Submit.to e = ["standardhuman@gmail.com"] /\
    Submit.html e = Submit.formatEmailBody data.
Proof.
  unfold Submit.handler. destruct (negb _); [done|].
  destruct (Submit.parsed req) as [fields|]; [|done].
  intros H. exists fields, (Submit.flatten fields).
  assert (He : e = Submit.compose (Submit.flatten fields)).
  { by destruct (send _) as [|[]]; injection H as _ <-. }
  subst e. split; [done|]. split.
  - intros k. unfold Submit.flatten. apply lookup_omap.
  - done.
Qed.

End ServerFacts.

(* ================================================================== *)
(** * api/upload.js: the replies of the storage handler *)
(* ================================================================== *)

Section StorageFacts.
Import Js Upload.

(** X8. The storage handler answers 405 exactly when the request is not
    a POST and 400 exactly when the parsed POST has no file; in both
    cases, and when the form cannot be parsed, nothing is stored. It
    answers 200 with an address only after a blob was stored, and the
    address is the one the blob store returned for that blob. *)
Theorem upload_handler_replies (env : Env) (req : Request) :
  let reply := fst (handler env req) in
  let stored := snd (handler env req) in
  (reply = ReplyError 405 "Method not allowed" <-> method req <> "POST") /\
  (reply = ReplyError 400 "No file provided" <->
   method req = "POST" /\ exists field, parsed req = Some (field, None)) /\
  (method req <> "POST" \/ parsed req = None \/
   (exists field, parsed req = Some (field, None)) -> stored = None) /\
  (forall status url, reply = ReplyUrl status url ->
     status = 200 /\
     exists blob, stored = Some blob /\
       put env (stored_name blob) (stored_content blob)
         (stored_contentType blob) = Some url).
Proof.
  cbv zeta. unfold handler.
  destruct (String.eqb_spec (method req) "POST") as [Hm|Hm]; cbn.
  2:{ split; [done|]. split; [split; [discriminate|by intros [? _]]|].
      split; [done|]. discriminate. }
  split; [split; [|done]|].
  { destruct (parsed req) as [[field [[|file rest]|]]|]; try discriminate.
    destruct (readFileSync env _); [|discriminate].
    destruct (put env _ _ _); [|discriminate].
    destruct (unlinkSync env _); discriminate. }
  destruct (parsed req) as [[field [[|file rest]|]]|]; cbn.
  - split; [split; [discriminate|by intros (_ & ? & [=])]|].
    split; [by intros [?|[?|(? & [=])]]|]. discriminate.
  - split; [split; [|by intros (_ & ? & [=])]|].
    { destruct (readFileSync env _); [|discriminate].
      destruct (put env _ _ _); [|discriminate].
      destruct (unlinkSync env _); discriminate. }
    split; [by intros [?|[?|(? & [=])]]|].
    destruct (readFileSync env _) as [buffer|]; [|discriminate].
    destruct (put env _ _ _) as [u|] eqn:Hput; [|discriminate].
    destruct (unlinkSync env _); [|discriminate].
    intros status url [= <- <-]. split; [done|]. eexists. split; [done|].
    exact Hput.
  - split; [split; [intros _; split; [done|by exists field]|done]|].
    split; [done|]. discriminate.
  - split; [split; [discriminate|by intros (_ & ? & [=])]|].
    split; [done|]. discriminate.
Qed.

Lemma stored_extension_filled (type : string) (name : option string) :
  Design.stored_extension type name <> EmptyString.
Proof.
  unfold Design.stored_extension.
  destruct (String.eqb _ _); [done|].
  destruct name as [name|]; [|done].
  by destruct (Design.last_segment "." name).
Qed.

(** X9. What the storage handler stores: the bytes it read from the
    uploaded file, under the media type of that file, with a name made of
    [intake/], the type, a slash, the time, a dash, the random part, a
    dot and an extension that is never empty and contains no dot. *)
Theorem upload_handler_stores (env : Env) (req : Request) (reply : Reply)
    (blob : Stored) :
  handler env req = (reply, Some blob) ->
  exists field file rest ext,
    parsed req = Some (field, Some (file :: rest)) /\
    readFileSync env (filepath file) = Some (stored_content blob) /\
    stored_contentType blob = mimetype file /\
    stored_name blob
    = "intake/" +:+ type_text (upload_type field) +:+ "/"
      +:+ numN (now env) +:+ "-" +:+ random36 env +:+ "." +:+ ext /\
    ext <> EmptyString /\ Design.has_char "." ext = false.
Proof.
  unfold handler. destruct (negb _); [done|].
  destruct (parsed req) as [[field [[|file rest]|]]|]; try done.
  destruct (readFileSync env _) as [buffer|] eqn:Hread; [|done].
  destruct (put env _ _ _); [|done].
  intros H. exists field, file, rest, (extension (upload_type field) file).
  assert (Hb : blob = {| stored_name := filename (upload_type field) (now env)
                                          (random36 env) file;
                         stored_content := buffer;
                         stored_contentType := mimetype file |}).
  { by destruct (unlinkSync env _); injection H as _ <-. }
  subst blob. cbn. repeat split; try done.
  - rewrite extension_stored_extension. apply stored_extension_filled.
  - rewrite extension_stored_extension. apply stored_extension_no_dot.
Qed.

End StorageFacts.

Lemma upload_handler_stores_witness :
  exists blob,
    snd (Upload.handler Demo.storage Demo.audio_upload) = Some blob /\
    Upload.stored_content blob = "bytes".
Proof.
  edestruct (upload_handler_stores Demo.storage Demo.audio_upload)
    as (field & file & rest & ext & Hp & Hread & _).
  - vm_compute. reflexivity.
  - eexists. split; [vm_compute; reflexivity|]. reflexivity.
Defined.

(* ================================================================== *)
(** * The submit listener: order of requests and outcomes *)
(* ================================================================== *)

Section SubmitSequence.
Import Js Client Design Exchange.
Context (env : Env).

Lemma audio_stage_log (w : World) :
  log (browser (snd (audio_stage env w)))
  = log (browser w) ++ audio_exchange env w /\
  fst (audio_stage env w) = audio_address (audio_exchange env w) /\
  files (uploader (snd (audio_stage env w))) = files (uploader w).
Proof.
  unfold audio_stage, audio_exchange, audio_address.
  destruct (audioBlob (recorder w)) as [blob|]; cbn.
  - by destruct (upload_result _).
  - by rewrite app_nil_r.
Qed.

Lemma image_stage_log (w : World) :
  log (browser (snd (image_stage env w)))
  = log (browser w)
    ++ converse env (log (browser w)) (map image_request (files (uploader w)))
  /\
  fst (image_stage env w)
  = omap (upload_result ∘ snd)
      (converse env (log (browser w))
         (map image_request (files (uploader w)))).
Proof.
  unfold image_stage. destruct (files (uploader w)); cbn; [|done].
  by rewrite app_nil_r.
Qed.

Lemma audio_stage_keeps_control (w : World) :
  submit_disabled (dom (snd (audio_stage env w))) = submit_disabled (dom w).
Proof.
  unfold audio_stage. destruct (audioBlob (recorder w)); [|done].
  cbv zeta. by destruct (upload_result _).
Qed.

Lemma image_stage_keeps_control (w : World) :
  submit_disabled (dom (snd (image_stage env w))) = submit_disabled (dom w).
Proof. unfold image_stage. by destruct (files (uploader w)). Qed.

(** The exchanges of one submission. *)
Lemma submit_exchanged (w : World) :
  let audio := audio_exchange env w in
  let images := image_exchanges env w audio in
  let payload := submit_payload w audio images in
  exchanged w (exec (on_submit env) w)
  = audio ++ images
    ++ [(submit_request payload,
         server env (log (browser w) ++ audio ++ images)
           (submit_request payload))].
Proof.
  cbv zeta. unfold exec, exchanged. rewrite on_submit_spec. cbn [snd].
  unfold submit_outcome.
  set (w1 := on_dom (set_submit_label "Uploading files...") _).
  destruct (audio_stage_log w1) as (Hlog2 & Hurl & Hfiles).
  destruct (audio_stage env w1) as [audioUrl w2]. cbn [fst snd] in *.
  destruct (image_stage_log w2) as (Hlog3 & Hurls).
  destruct (image_stage env w2) as [imageUrls w3]. cbn [fst snd] in *.
  rewrite conclude_log. cbn [browser on_dom log].
  rewrite Hurls, Hurl, Hlog3, !Hlog2, !Hfiles. cbn.
  change (audio_exchange env w1) with (audio_exchange env w).
  unfold submit_payload, image_exchanges.
  rewrite <- !app_assoc, drop_app_length. reflexivity.
Qed.

(** X10. One submission talks to the network in a fixed order: the
    recording, if there is one, then each selected image in order, then
    the POST; nothing else is sent, and the listener returns normally.
    The payload of the POST is the form's fields, followed by the
    recording's address if the storage endpoint gave one, followed by the
    addresses of the stored images joined by commas if there are any. *)
Theorem submit_sends_in_order (w : World) :
  let w' := exec (on_submit env) w in
  fst (on_submit env w) = Ret tt /\
  exists audio images final,
    exchanged w w' = audio ++ images ++ [final] /\
    map fst audio
    = match audioBlob (recorder w) with
      | Some blob => [audio_request blob]
      | None => []
      end /\
    map fst images = map image_request (files (uploader w)) /\
    fst final
    = submit_request
        (payload_of (form_entries (dom w)) (audio_address audio)
           (omap (upload_result ∘ snd) images)).
Proof.
  cbv zeta. split; [by rewrite on_submit_spec|].
  rewrite submit_exchanged.
  eexists _, _, _. split; [reflexivity|]. split; [|split].
  - unfold audio_exchange. by destruct (audioBlob (recorder w)).
  - apply converse_requests.
  - reflexivity.
Qed.

Lemma omap_all_none {A B} (g : A -> option B) (xs : list A) :
  (forall x, x ∈ xs -> g x = None) -> omap g xs = [].
Proof.
  induction xs as [|x xs IH]; intros H; [done|].
  cbn. rewrite (H x) by apply list_elem_of_here.
  apply IH. intros y Hy. apply H. by apply list_elem_of_further.
Qed.

(** X11. When the storage endpoint stores nothing (every upload fails, by
    status or at the network), the POST is still sent and its payload is
    the fields of the form alone: neither [audio-url] nor [image-urls]
    is added; and no alert is raised for the uploads. *)
Theorem submit_when_every_upload_fails (w : World) :
  let w' := exec (on_submit env) w in
  (forall x, x ∈ exchanged w w' -> req_url (fst x) = "/api/upload" ->
     upload_result (snd x) = None) ->
  (exists a, last (exchanged w w')
             = Some (submit_request (form_entries (dom w)), a)) /\
  (alerts (browser w') = alerts (browser w) \/
   alerts (browser w')
   = alerts (browser w) ++ ["Something went wrong. Please try again."]).
Proof.
  cbv zeta. intros Hfail. split.
  - rewrite submit_exchanged in *. cbv zeta in *.
    set (audio := audio_exchange env w) in *.
    set (images := image_exchanges env w audio) in *.
    assert (Haudio : audio_address audio = None).
    { assert (Ha : forall x, x ∈ audio -> upload_result (snd x) = None).
      { intros x Hx. apply Hfail; [apply elem_of_app; by left|].
        unfold audio, audio_exchange in Hx.
        destruct (audioBlob (recorder w)) as [blob|];
          [|by apply not_elem_of_nil in Hx].
        by apply list_elem_of_singleton in Hx as ->. }
      clearbody audio. destruct audio as [|[r a] rest]; [done|].
      pose proof (Ha (r, a) (list_elem_of_here _ _)) as H0. cbn in H0.
      cbn. by rewrite H0. }
    assert (Himages : omap (upload_result ∘ snd) images = []).
    { assert (Hs : forall x, x ∈ images -> upload_result (snd x) = None).
      { intros x Hx. apply Hfail.
        - apply elem_of_app. right. apply elem_of_app. by left.
        - assert (Hreq : Forall (fun x => req_url (fst x) = "/api/upload")
                           images).
          { unfold images, image_exchanges.
            assert (Hmap : map fst (converse env (log (browser w) ++ audio)
                                      (map image_request (files (uploader w))))
                           = map image_request (files (uploader w)))
              by apply converse_requests.
            apply Forall_forall. intros y Hy.
            apply (list_elem_of_fmap_2 fst) in Hy.
            change (fst <$> ?l) with (map fst l) in Hy.
            rewrite Hmap in Hy.
            apply list_elem_of_fmap in Hy as (f & -> & _). done. }
          rewrite Forall_forall in Hreq. by apply Hreq. }
      by apply omap_all_none. }
    unfold submit_payload. rewrite Haudio, Himages.
    eexists. rewrite !app_assoc, last_snoc. reflexivity.
  - unfold exec. rewrite on_submit_spec. cbn [snd]. unfold submit_outcome.
    set (w1 := on_dom (set_submit_label "Uploading files...") _).
    destruct (audio_stage_frame env w1) as (_ & Hal2 & _).
    destruct (audio_stage env w1) as [audioUrl w2]. cbn [fst snd] in *.
    destruct (image_stage_frame env w2) as (_ & Hal3 & _).
    destruct (image_stage env w2) as [imageUrls w3]. cbn [fst snd] in *.
    unfold conclude. cbv zeta.
    destruct (submission_failed _); [|destruct (response_redirected _)];
      cbn; rewrite Hal3, Hal2; auto.
Qed.


(** X12. When the final POST is answered with a redirect, the page goes
    where the redirect led; when it is answered with another success, the
    page goes to the confirmation page. In both cases no alert is raised
    and the submit control stays disabled, captioned [Sending...]. *)
Theorem accepted_submission_navigates (w : World) (x : Request * Response) :
  let w' := exec (on_submit env) w in
  last (exchanged w w') = Some x ->
  submission_failed (snd x) = false ->
  location (browser w')
  = Some (if response_redirected (snd x) then response_url (snd x)
          else "/thank-you.html") /\
  alerts (browser w') = alerts (browser w) /\
  submit_disabled (dom w') = true /\
  submit_label (dom w') = "Sending...".
Proof.
  cbv zeta. unfold exec, exchanged. rewrite on_submit_spec. cbn [fst snd].
  unfold submit_outcome.
  set (w1 := on_dom (set_submit_label "Uploading files...") _).
  destruct (audio_stage_frame env w1) as ((pre1 & Hlog2) & Hal2 & _).
  pose proof (audio_stage_keeps_control w1) as Hc2.
  destruct (audio_stage env w1) as [audioUrl w2]. cbn [fst snd] in *.
  destruct (image_stage_frame env w2) as ((pre2 & Hlog3) & Hal3 & _).
  pose proof (image_stage_keeps_control w2) as Hc3.
  destruct (image_stage env w2) as [imageUrls w3]. cbn [fst snd] in *.
  set (payload := payload_of _ _ _).
  assert (Hlog : log (browser w3) = log (browser w) ++ pre1 ++ pre2).
  { rewrite Hlog3, Hlog2. cbn. by rewrite app_assoc. }
  unfold conclude. cbn [browser on_dom log].
  set (a := server env _ _).
  assert (Hx : forall tail : World,
            log (browser tail)
            = log (browser w3) ++ [(submit_request payload, a)] ->
            last (drop (length (log (browser w))) (log (browser tail)))
            = Some (submit_request payload, a)).
  { intros tail ->. rewrite Hlog, <- !app_assoc, drop_app_length.
    by rewrite !app_assoc, last_snoc. }
  destruct (submission_failed a) eqn:Hfail.
  - rewrite Hx by done. intros [= <-]. cbn. congruence.
  - destruct (response_redirected a) eqn:Hred;
      (rewrite Hx by done; intros [= <-] _; cbn; rewrite Hred;
       rewrite Hal3, Hal2, Hc3, Hc2; done).
Qed.

(** X13. A submission changes neither the selection, nor the recording,
    nor the fields of the form, whatever the endpoints answer: after a
    failed submission the same media and fields are there to be sent
    again. *)
Theorem submission_keeps_media (w : World) :
  let w' := exec (on_submit env) w in
  files (uploader w') = files (uploader w) /\
  audioBlob (recorder w') = audioBlob (recorder w) /\
  audioChunks (recorder w') = audioChunks (recorder w) /\
  isRecording (recorder w') = isRecording (recorder w) /\
  form_entries (dom w') = form_entries (dom w).
Proof.
  cbv zeta. unfold exec.
  assert (H1 : keeps (files ∘ uploader) (on_submit env)) by keeps_go.
  assert (H2 : keeps (audioBlob ∘ recorder) (on_submit env)) by keeps_go.
  assert (H3 : keeps (audioChunks ∘ recorder) (on_submit env)) by keeps_go.
  assert (H4 : keeps (isRecording ∘ recorder) (on_submit env)) by keeps_go.
  assert (H5 : keeps (form_entries ∘ dom) (on_submit env)) by keeps_go.
  repeat split; [apply H1|apply H2|apply H3|apply H4|apply H5].
Qed.

End SubmitSequence.

(* ================================================================== *)
(** * FileUploader: batches, indices and results *)
(* ================================================================== *)

Section UploaderExtras.
Import Js Client Design.
Context (env : Env).

Lemma selection_after_app (fs a b : list File) :
  selection_after (selection_after fs a) b = selection_after fs (a ++ b).
Proof.
  revert fs. induction a as [|x a IH]; intros fs.
  - unfold selection_after at 2. cbn. rewrite take_nil, app_nil_r. done.
  - cbn [app].
    destruct (is_image x && bool_decide (length fs < 10)) eqn:Hx.
    + rewrite !(selection_after_push _ _ _ Hx). apply IH.
    + rewrite !(selection_after_skip _ _ _ Hx). apply IH.
Qed.

Lemma addFiles_frame (newFiles : list File) (w : World) :
  let w' := exec (Uploader.addFiles newFiles) w in
  recorder w' = recorder w /\
  alerts (browser w') = alerts (browser w) /\
  log (browser w') = log (browser w).
Proof.
  cbv zeta. unfold exec. rewrite addFiles_spec.
  match goal with
  | |- context [snd (refresh ?w0)] =>
      by destruct (refresh_keeps w0) as (_ & -> & -> & -> & _)
  end.
Qed.

(** X14. Offering two batches one after the other selects the same
    files as offering them as one batch, whether or not the refresh of
    the preview throws in between; the uploaded addresses, the recorder,
    the alerts and the network log are the same too. *)
Theorem addFiles_twice (a b : list File) (w : World) :
  let two := exec (Uploader.addFiles b) (exec (Uploader.addFiles a) w) in
  let one := exec (Uploader.addFiles (a ++ b)) w in
  files (uploader two) = selection_after (files (uploader w)) (a ++ b) /\
  uploader two = uploader one /\
  recorder two = recorder one /\
  alerts (browser two) = alerts (browser one) /\
  log (browser two) = log (browser one).
Proof.
  cbv zeta. rewrite !addFiles_uploader. cbn [files set_files uploadedUrls].
  rewrite selection_after_app. split; [done|]. split; [done|].
  destruct (addFiles_frame a w) as (Hr1 & Ha1 & Hl1).
  destruct (addFiles_frame b (exec (Uploader.addFiles a) w))
    as (Hr2 & Ha2 & Hl2).
  destruct (addFiles_frame (a ++ b) w) as (Hr & Ha & Hl).
  by rewrite Hr2, Ha2, Hl2, Hr1, Ha1, Hl1, Hr, Ha, Hl.
Qed.

Lemma splice1_delete {A} (index : Z) (xs : list A) :
  Uploader.splice1 index xs
  = if (index <? 0)%Z
    then delete (length xs - Z.to_nat (- index)) xs
    else delete (Z.to_nat index) xs.
Proof.
  unfold Uploader.splice1.
  destruct (Z.ltb_spec index 0).
  - f_equal. lia.
  - destruct (decide (Z.to_nat index < length xs)).
    + f_equal. lia.
    + rewrite !delete_past_end by lia. done.
Qed.

(** X15. [removeFile] follows [splice] on both sequences, whether or not
    the refresh of the preview at its end throws: an index at or past
    the end removes nothing; an index [i] within the sequence removes
    its [i]-th entry; a negative index [-k] counts from the end,
    removing the first entry when [k] exceeds the length. The call
    throws exactly when files remain and the page has no count line to
    write to; when it returns, the preview shows what is left. *)
Theorem removeFile_index (index : Z) (w : World) :
  let fs := files (uploader w) in
  let urls := uploadedUrls (uploader w) in
  let w' := exec (Uploader.removeFile index) w in
  files (uploader w')
  = (if (index <? 0)%Z
     then delete (length fs - Z.to_nat (- index)) fs
     else delete (Z.to_nat index) fs) /\
  uploadedUrls (uploader w')
  = (if (index <? 0)%Z
     then delete (length urls - Z.to_nat (- index)) urls
     else delete (Z.to_nat index) urls) /\
  ((Z.of_nat (length fs) <= index)%Z -> files (uploader w') = fs) /\
  fst (Uploader.removeFile index w)
  = match files (uploader w'), getElementById_file_count (dom w) with
    | _ :: _, None => Exc TypeError
    | _, _ => Ret tt
    end /\
  (fst (Uploader.removeFile index w) = Ret tt ->
   shows (file_preview (dom w')) (files (uploader w'))).
Proof.
  cbv zeta. rewrite removeFile_uploader. cbn [files uploadedUrls].
  split; [apply splice1_delete|]. split; [apply splice1_delete|].
  split; [apply splice1_past_end|].
  unfold exec. rewrite removeFile_spec. split.
  - by rewrite refresh_outcome.
  - intros H. by apply refresh_shows in H.
Qed.

Lemma omap_length_le {A B} (g : A -> option B) (xs : list A) :
  (length (omap g xs) <= length xs)%nat.
Proof.
  induction xs as [|x xs IH]; cbn; [lia|]. destruct (g x); cbn; lia.
Qed.

(** X16. [uploadAll] returns, and leaves in [uploadedUrls], exactly the
    addresses of the files the storage endpoint stored, in the order of
    the files, whatever [uploadedUrls] held before; it sends one request
    per selected file, in order, and never throws. When every upload
    succeeds there is one address per file. *)
Theorem uploadAll_returns_stored (w : World) :
  let w' := exec (Uploader.uploadAll env) w in
  let urls := omap (upload_result ∘ snd) (exchanged w w') in
  Uploader.uploadAll env w = (Ret urls, w') /\
  uploadedUrls (uploader w') = urls /\
  map fst (exchanged w w') = map image_request (files (uploader w)) /\
  (length urls <= length (files (uploader w)))%nat /\
  (Forall (fun x => upload_result (snd x) <> None) (exchanged w w') ->
   length urls = length (files (uploader w)) /\
   Forall2 (fun url x => upload_result (snd x) = Some url)
     urls (exchanged w w')).
Proof.
  cbv zeta. unfold exec, exchanged. rewrite uploadAll_spec. cbn.
  rewrite drop_app_length.
  set (xs := converse env _ _).
  assert (Hreq : map fst xs = map image_request (files (uploader w)))
    by apply converse_requests.
  assert (Hlen : length xs = length (files (uploader w))).
  { by rewrite <- (length_map fst), Hreq, length_map. }
  split; [done|]. split; [done|]. split; [done|]. split.
  - rewrite <- Hlen. apply omap_length_le.
  - intros Hall.
    assert (H2 : Forall2 (fun url x => upload_result (snd x) = Some url)
                   (omap (upload_result ∘ snd) xs) xs).
    { apply omap_all_some. intros x Hx.
      rewrite Forall_forall in Hall. by apply Hall. }
    split; [|done]. apply Forall2_length in H2. by rewrite H2.
Qed.

End UploaderExtras.

(* ================================================================== *)
(** * VoiceRecorder: one recording, step by step *)
(* ================================================================== *)

Section RecordingFacts.
Import Js Client Design Phases.
Context (env : Env).

Lemma start_recording (w : World) (type fallback : string) (granted : bool) :
  idle w type fallback ->
  recording (step env w (ClickRecord granted)) type fallback [].
Proof.
  destruct w as [[mr mt chunks blob url rec up an aid st ti] u
                 [l1 l2 l3 l4 l5 canvas timeEl l8 l9 l10 l11 l12 l13]
                 [lg ck rl fr tl iv bl al loc]].
  unfold idle, recording. cbn. intros (-> & -> & -> & ->).
  unfold step, exec, dispatch, on_record_click, Recorder.start,
    Recorder.mediaRecorder_start, Recorder.startWaveform,
    Recorder.startTimer, Recorder.draw, Recorder.updateUI,
    requestAnimationFrame, setInterval, bind, gets, modify, ret, throw.
  world_cases; done.
Qed.

Lemma chunk_recorded (w : World) (type fallback : string)
    (chunks : list string) (data : string) :
  recording w type fallback chunks ->
  recording (step env w (DataAvailable data)) type fallback
    (chunks ++ kept [data]).
Proof.
  destruct w as [[mr mt cs blob url rec up an aid st ti] u d
                 [lg ck rl fr tl iv bl al loc]].
  unfold recording, kept. cbn -[filter String.length].
  intros (-> & -> & -> & -> & ->).
  unfold step, exec, dispatch, Recorder.ondataavailable, recorder_is,
    bind, gets, modify, ret.
  cbn -[filter String.length].
  rewrite filter_cons, filter_nil.
  destruct (decide (0 < String.length data)) as [Hd|Hd];
    cbn -[String.length]; rewrite ?app_nil_r; done.
Qed.

Lemma chunks_recorded (w : World) (type fallback : string)
    (chunks more : list string) :
  recording w type fallback chunks ->
  recording (run env w (map DataAvailable more)) type fallback
    (chunks ++ kept more).
Proof.
  revert w chunks. induction more as [|d more IH]; intros w chunks Hw.
  - unfold kept. rewrite filter_nil, app_nil_r. done.
  - cbn [map]. change (run env w (?e :: ?es)) with (run env (step env w e) es).
    apply (chunk_recorded _ _ _ _ d), (IH _) in Hw.
    unfold kept in *. change (d :: more) with ([d] ++ more).
    rewrite filter_app, app_assoc. exact Hw.
Qed.

Lemma concat_cat (xs : list string) :
  String.concat EmptyString xs = cat xs.
Proof.
  induction xs as [|x xs IH]; [done|].
  cbn [String.concat]. unfold cat in *. cbn [fold_right].
  destruct xs as [|y ys]; [by rewrite string_app_nil_r|].
  by rewrite IH.
Qed.

Lemma concat_kept (chunks : list string) :
  String.concat EmptyString (kept chunks)
  = String.concat EmptyString chunks.
Proof.
  rewrite !concat_cat. unfold kept, cat.
  induction chunks as [|c chunks IH]; [done|].
  rewrite filter_cons. destruct (decide _) as [Hc|Hc]; cbn [fold_right].
  - by rewrite IH.
  - assert (c = EmptyString) as -> by (destruct c; [done|cbn in Hc; lia]).
    by rewrite IH.
Qed.

Lemma stop_recording (w : World) (type fallback : string)
    (chunks : list string) (granted : bool) (final : string) :
  recording w type fallback chunks ->
  let w' := run env w [ClickRecord granted; RecorderStopped final] in
  idle w' type fallback /\
  audioBlob (recorder w')
  = Some {| blob_data := String.concat EmptyString (chunks ++ kept [final]);
            blob_type := or_else (Some type)
                           (or_else (Some fallback) "audio/webm") |} /\
  audioUrl (recorder w') = Some ("blob:" +:+ num (S (blob_last (browser w)))) /\
  record_btn_label (dom w') = "Start Recording" /\
  audio_preview_hidden (dom w') = false /\
  audio_player_src (dom w') = audioUrl (recorder w').
Proof.
  destruct w as [[mr mt cs blob url rec up an aid st ti] u
                 [l1 l2 l3 l4 l5 canvas timeEl l8 l9 l10 l11 l12 l13]
                 [lg ck rl fr tl iv bl al loc]].
  unfold idle, recording, kept. cbn -[num]. intros (-> & -> & -> & -> & ->).
  unfold run, step, exec, dispatch, on_record_click, Recorder.stop,
    Recorder.mediaRecorder_stop, Recorder.stopWaveform, Recorder.stopTimer,
    Recorder.ondataavailable, Recorder.onstop, Recorder.updateUI,
    createObjectURL, set_recorder_state, recorder_is,
    cancelAnimationFrame, clearInterval, truthy_handle,
    bind, gets, modify, ret, throw.
  cbn -[num String.concat or_else filter String.length].
  repeat (world_case; cbn -[num String.concat or_else filter String.length]);
    rewrite ?filter_cons_True, ?filter_cons_False, ?filter_nil, ?app_nil_r
      by done; done.
Qed.

End RecordingFacts.

(* ================================================================== *)
(** * VoiceRecorder: the artifact of a recording *)
(* ================================================================== *)

Section RecorderExtras.
Import Js Client Design Phases.
Context (env : Env).

Lemma run_app (w : World) (evs1 evs2 : list Event) :
  run env w (evs1 ++ evs2) = run env (run env w evs1) evs2.
Proof. apply fold_left_app. Qed.

(** X17. One recording, from the click that starts it to the stop event
    of the recorder: the artifact is the concatenation, in order, of all
    the data the recorder delivered, the final delivery included, typed
    with the recorder's media type (else the type chosen at
    initialisation, else [audio/webm]); the recorder is idle again, the
    button offers to start, and the preview is shown and plays the new
    object URL. *)
Theorem recording_assembles_chunks (w : World) (type fallback : string)
    (chunks : list string) (final : string) (g1 g2 : bool) :
  idle w type fallback ->
  let w' := run env w (ClickRecord g1 :: map DataAvailable chunks
                       ++ [ClickRecord g2; RecorderStopped final]) in
  audioBlob (recorder w')
  = Some {| blob_data := String.concat EmptyString (chunks ++ [final]);
            blob_type := or_else (Some type)
                           (or_else (Some fallback) "audio/webm") |} /\
  idle w' type fallback /\
  record_btn_label (dom w') = "Start Recording" /\
  audio_preview_hidden (dom w') = false /\
  audio_player_src (dom w') = audioUrl (recorder w') /\
  audioUrl (recorder w') <> None.
Proof.
  intros Hidle. cbv zeta.
  change (run env w (?e :: ?es)) with (run env (step env w e) es).
  rewrite run_app.
  apply (start_recording env _ _ _ g1) in Hidle.
  apply (chunks_recorded env _ _ _ _ chunks) in Hidle.
  destruct (stop_recording env _ _ _ _ g2 final Hidle)
    as (Hi & Hb & Hu & Hl & Hp & Hs).
  cbv zeta in *. split; [|split; [exact Hi|]].
  - rewrite Hb. f_equal. f_equal. cbn [app].
    rewrite <- (concat_kept (chunks ++ [final])).
    unfold kept. by rewrite filter_app.
  - split; [exact Hl|]. split; [exact Hp|]. split; [exact Hs|].
    by rewrite Hu.
Qed.

(** X18. In every state the page can reach, there is an artifact exactly
    when there is a playback URL. *)
Theorem artifact_iff_playback (page : Dom) (now : nat) (evs : list Event) :
  let w := run env (loaded page now) evs in
  audioBlob (recorder w) = None <-> audioUrl (recorder w) = None.
Proof.
  cbv zeta.
  assert (Hstep : forall w ev,
            (audioBlob (recorder w) = None <-> audioUrl (recorder w) = None) ->
            (audioBlob (recorder (step env w ev)) = None <->
             audioUrl (recorder (step env w ev)) = None)).
  { intros w ev Hw. unfold step. destruct (location (browser w)); [done|].
    destruct ev;
      try (match goal with
           | |- context [dispatch env ?e] =>
               assert (H1 : keeps (audioBlob ∘ recorder) (dispatch env e))
                 by keeps_go;
               assert (H2 : keeps (audioUrl ∘ recorder) (dispatch env e))
                 by keeps_go
           end;
           unfold exec; specialize (H1 w); specialize (H2 w);
           unfold compose in H1, H2; rewrite H1, H2; exact Hw).
    - by split.
    - unfold exec, dispatch, bind, gets. cbn.
      destruct (recorder_is mr_stopping w); [|done].
      unfold Recorder.onstop, Recorder.ondataavailable, Recorder.updateUI,
        createObjectURL, set_recorder_state, bind, gets, modify, ret.
      cbn.
      destruct (decide _), (isRecording (recorder _)); cbn;
        try destruct (truthy _); cbn; split; discriminate. }
  induction evs as [|ev evs IH] using rev_ind; [done|].
  rewrite run_app. cbn. by apply Hstep.
Qed.

End RecorderExtras.

(* ================================================================== *)
(** * VoiceRecorder: initialisation, timer and loops *)
(* ================================================================== *)

Section PageExtras.
Import Js Client Design Phases.
Context (env : Env).

(** X19. When the microphone is refused, the click on the record button
    raises one alert and changes nothing else: the recorder stays
    uninitialised, so that the next click asks again. *)
Theorem microphone_refused (w : World) :
  location (browser w) = None ->
  mediaRecorder (recorder w) = None ->
  let w' := step env w (ClickRecord false) in
  recorder w' = recorder w /\ uploader w' = uploader w /\ dom w' = dom w /\
  log (browser w') = log (browser w) /\
  alerts (browser w')
  = alerts (browser w)
    ++ ["Could not access microphone. Please allow microphone access and try again."].
Proof.
  intros Hloc Hmr. cbv zeta. unfold step. rewrite Hloc.
  unfold exec, dispatch, on_record_click, bind, gets. cbn. rewrite Hmr.
  cbn. by destruct w as [r u d b].
Qed.

(** X20. When the microphone is granted on the first click, the recorder
    is created for the first media type the browser supports among
    [audio/webm], [audio/mp4] and [audio/ogg], in that order, or for no
    particular type when it supports none; and the recording starts at
    once. *)
Theorem microphone_granted (w : World) :
  location (browser w) = None ->
  mediaRecorder (recorder w) = None ->
  isRecording (recorder w) = false ->
  let w' := step env w (ClickRecord true) in
  let chosen := mimeType (recorder w') in
  recording w' (recorderMimeType env chosen) chosen [] /\
  (isTypeSupported env "audio/webm" = true -> chosen = "audio/webm") /\
  (isTypeSupported env "audio/webm" = false ->
   isTypeSupported env "audio/mp4" = true -> chosen = "audio/mp4") /\
  (isTypeSupported env "audio/webm" = false ->
   isTypeSupported env "audio/mp4" = false ->
   isTypeSupported env "audio/ogg" = true -> chosen = "audio/ogg") /\
  (isTypeSupported env "audio/webm" = false ->
   isTypeSupported env "audio/mp4" = false ->
   isTypeSupported env "audio/ogg" = false -> chosen = EmptyString).
Proof.
  destruct w as [[mr mt chunks blob url rec up an aid st ti] u
                 [l1 l2 l3 l4 l5 canvas timeEl l8 l9 l10 l11 l12 l13]
                 [lg ck rl fr tl iv bl al loc]].
  cbn. intros -> -> ->. unfold recording.
  unfold step, exec, dispatch, on_record_click, Recorder.init,
    Recorder.mimeTypes, Recorder.start,
    Recorder.mediaRecorder_start, Recorder.startWaveform,
    Recorder.startTimer, Recorder.draw, Recorder.updateUI,
    requestAnimationFrame, setInterval, bind, gets, modify, ret, throw.
  cbn.
  destruct (isTypeSupported env "audio/webm"),
           (isTypeSupported env "audio/mp4"),
           (isTypeSupported env "audio/ogg"); cbn;
    world_cases; repeat split; congruence.
Qed.



(** X22. The timer armed by a start shows the time since that start: on
    a page with the elapsed-time label, after the click that starts a
    recording and [ms] milliseconds, the tick of that timer writes the
    whole seconds elapsed, formatted. *)
Theorem tick_shows_elapsed (w : World) (type fallback shown : string)
    (granted : bool) (ms : nat) :
  idle w type fallback ->
  recording_time (dom w) = Some shown ->
  let w' := run env w [ ClickRecord granted; TimePasses ms;
                        IntervalFires (S (timer_last (browser w))) ] in
  recording_time (dom w') = Some (Recorder.format_elapsed (ms / 1000)).
Proof.
  destruct w as [[mr mt chunks blob url rec up an aid st ti] u
                 [l1 l2 l3 l4 l5 canvas timeEl l8 l9 l10 l11 l12 l13]
                 [lg ck rl fr tl iv bl al loc]].
  unfold idle. cbn -[Recorder.format_elapsed Nat.div Nat.sub Nat.add].
  intros (-> & -> & -> & ->) ->.
  unfold run, step, exec, dispatch, on_record_click, Recorder.start,
    Recorder.mediaRecorder_start, Recorder.startWaveform,
    Recorder.startTimer, Recorder.draw, Recorder.updateUI, Recorder.tick,
    requestAnimationFrame, setInterval, bind, gets, modify, ret, throw.
  cbn -[Recorder.format_elapsed Nat.div Nat.sub Nat.add].
  repeat (world_case;
          cbn -[Recorder.format_elapsed Nat.div Nat.sub Nat.add]);
    try (exfalso; match goal with
                  | H : ~ _ ∈ _ |- _ => apply H; set_solver
                  end);
    by replace (ck + ms - ck) with ms by lia.
Qed.

(** X23. The page never lets a loop leak: in every state it can reach
    at most one animation frame is pending and at most one timer is
    armed, and none when no recording is in progress. *)
Theorem loops_never_leak (page : Dom) (now : nat) (evs : list Event) :
  let w := run env (loaded page now) evs in
  (length (frames (browser w)) <= 1)%nat /\
  (length (intervals (browser w)) <= 1)%nat /\
  (isRecording (recorder w) = false ->
   frames (browser w) = [] /\ intervals (browser w) = []).
Proof.
  cbv zeta.
  destruct (run_owned env _ evs (loaded_owned page now)) as (Hf & Hi & Hoff).
  split; [|split; [|exact Hoff]].
  - destruct Hf as [->|(h & -> & _)]; cbn; lia.
  - destruct Hi as [->|(h & -> & _)]; cbn; lia.
Qed.

End PageExtras.

(* ================================================================== *)
(** * The page: a recorder that stops by itself, the network, the preview *)
(* ================================================================== *)

Section PageExtras2.
Import Js Client Design Phases.
Context (env : Env).

(** X24. When the recorder stops by itself during a recording (its
    stream ended), the page does not leave recording mode: the stop event
    builds the artifact, but [isRecording] stays set, the button still
    offers to stop, the pending frame and the armed timer are kept, and
    the preview is not revealed. *)
Theorem recorder_stops_by_itself (w : World) (type fallback : string)
    (chunks : list string) (final : string) :
  recording w type fallback chunks ->
  let w' := run env w [StreamEnded; RecorderStopped final] in
  isRecording (recorder w') = true /\
  audioBlob (recorder w')
  = Some {| blob_data := String.concat EmptyString (chunks ++ kept [final]);
            blob_type := or_else (Some type)
                           (or_else (Some fallback) "audio/webm") |} /\
  record_btn_label (dom w') = "Stop Recording" /\
  audio_preview_hidden (dom w') = audio_preview_hidden (dom w) /\
  frames (browser w') = frames (browser w) /\
  intervals (browser w') = intervals (browser w).
Proof.
  destruct w as [[mr mt cs blob url rec up an aid st ti] u
                 [l1 l2 l3 l4 l5 canvas timeEl l8 l9 l10 l11 l12 l13]
                 [lg ck rl fr tl iv bl al loc]].
  unfold recording, kept. cbn -[num]. intros (-> & -> & -> & -> & ->).
  unfold run, step, exec, dispatch,
    Recorder.ondataavailable, Recorder.onstop, Recorder.updateUI,
    createObjectURL, set_recorder_state, recorder_is,
    bind, gets, modify, ret, throw.
  cbn -[num String.concat or_else filter String.length].
  repeat (world_case; cbn -[num String.concat or_else filter String.length]);
    rewrite ?filter_cons_True, ?filter_cons_False, ?filter_nil, ?app_nil_r
      by done; done.
Qed.

(** X25. Only the submission talks to the network, and only the
    submission and the click on the record button can raise an alert:
    every other event leaves the network log, and the alerts, as they
    were. *)
Theorem only_submit_uses_network (w : World) (ev : Event) :
  (ev <> SubmitForm -> log (browser (step env w ev)) = log (browser w)) /\
  (ev <> SubmitForm -> (forall granted, ev <> ClickRecord granted) ->
   alerts (browser (step env w ev)) = alerts (browser w)).
Proof.
  unfold step. destruct (location (browser w)); [done|]. split.
  - intros Hev.
    assert (H : keeps (log ∘ browser) (dispatch env ev))
      by (destruct ev; try done; keeps_go).
    apply H.
  - intros Hev Hrec.
    assert (H : keeps (alerts ∘ browser) (dispatch env ev)).
    { destruct ev; try done; try keeps_go. by destruct (Hrec granted). }
    apply H.
Qed.

Lemma thumbs_shown_shows (p : Preview) (fs : list File) :
  shows p fs -> thumbs_shown p = length fs.
Proof.
  unfold shows, thumbs_shown. destruct fs as [|file rest].
  - by intros [-> _].
  - intros (-> & _ & <-). by rewrite length_map.
Qed.

(** Every event keeps a count line outside the preview, and with one the
    preview keeps showing the selection. *)
Lemma step_shows (w : World) (ev : Event) :
  count_outside (dom w) /\ shows (file_preview (dom w)) (files (uploader w)) ->
  count_outside (dom (step env w ev)) /\
  shows (file_preview (dom (step env w ev))) (files (uploader (step env w ev))).
Proof.
  intros [Hout Hshows]. unfold step.
  destruct (location (browser w)); [done|].
  assert (Hrefresh : forall w0, count_outside (dom w0) ->
            count_outside (dom (snd (refresh w0))) /\
            shows (file_preview (dom (snd (refresh w0))))
              (files (uploader (snd (refresh w0))))).
  { intros w0 H0. split; [by apply refresh_count_outside|].
    destruct (refresh_keeps w0) as [-> _].
    apply refresh_shows. rewrite refresh_outcome.
    pose proof (count_outside_found _ H0).
    by destruct (files (uploader w0)),
                (getElementById_file_count (dom w0)). }
  destruct ev;
    try (match goal with
         | |- context [dispatch env ?e] =>
             destruct (dispatch_keeps_preview env e I) as (H1 & H2 & H3);
             pose proof (dispatch_files env e w I) as H4
         end;
         specialize (H1 w); specialize (H2 w); specialize (H3 w);
         unfold compose in H1, H2, H3; unfold exec in *;
         unfold count_outside; by rewrite H1, H2, H3, H4).
  - unfold exec.
    change (dispatch env (AddFiles ?x)) with (Uploader.addFiles x).
    rewrite addFiles_spec. by apply Hrefresh.
  - unfold exec. cbn [dispatch]. unfold bind, gets. cbn.
    destruct (decide _); [|done]. rewrite removeFile_spec. by apply Hrefresh.
Qed.

(** X26. On a page that has a count line outside the preview, and whose
    preview starts hidden and without thumbnails, the preview always
    shows the selection: in every state the page can reach it is hidden
    when nothing is selected and otherwise shows the count and one
    thumbnail per selected file, in order. So the remove control of the
    [i]-th thumbnail removes the [i]-th selected file, and nothing
    else. *)
Theorem preview_shows_selection (page : Dom) (now : nat) (evs : list Event)
    (i : nat) :
  count_outside page ->
  shows (file_preview page) [] ->
  let w := run env (loaded page now) evs in
  shows (file_preview (dom w)) (files (uploader w)) /\
  (location (browser w) = None ->
   files (uploader (step env w (ClickRemove i)))
   = delete i (files (uploader w))).
Proof.
  intros Hout Hpage. cbv zeta.
  assert (Hinv : count_outside (dom (run env (loaded page now) evs)) /\
                 shows (file_preview (dom (run env (loaded page now) evs)))
                   (files (uploader (run env (loaded page now) evs)))).
  { induction evs as [|ev evs IH] using rev_ind; [done|].
    unfold run in *. rewrite fold_left_app. cbn [fold_left].
    by apply step_shows. }
  destruct Hinv as [_ Hshows]. split; [exact Hshows|]. intros Hloc.
  unfold step. rewrite Hloc. unfold exec. cbn [dispatch].
  unfold bind, gets. cbn. rewrite (thumbs_shown_shows _ _ Hshows).
  destruct (decide _).
  - change (snd (Uploader.removeFile ?j ?w0))
      with (exec (Uploader.removeFile j) w0).
    rewrite removeFile_uploader. cbn. apply splice1_in_range.
  - cbn. by rewrite delete_past_end by lia.
Qed.

Lemma refresh_emptied (w : World) :
  emptied (dom w) -> emptied (dom (snd (refresh w))).
Proof.
  intros [Hnone Hthumbs]. unfold refresh.
  destruct (files (uploader w)) as [|file rest].
  - unfold emptied, getElementById_file_count in *. cbn.
    by destruct (file_count_before (dom w)),
                (preview_count (file_preview (dom w))),
                (file_count_after (dom w)).
  - rewrite Hnone. cbn. split; [|done].
    unfold getElementById_file_count in *. cbn.
    by destruct (file_count_before (dom w)),
                (preview_count (file_preview (dom w))),
                (file_count_after (dom w)).
Qed.

(** Once the preview has lost its count line, no event brings it back
    or adds a thumbnail. *)
Lemma step_emptied (w : World) (ev : Event) :
  emptied (dom w) -> emptied (dom (step env w ev)).
Proof.
  intros Hw. unfold step.
  destruct (location (browser w)); [done|].
  destruct ev;
    try (match goal with
         | |- context [dispatch env ?e] =>
             destruct (dispatch_keeps_preview env e I) as (H1 & H2 & H3)
         end;
         specialize (H1 w); specialize (H2 w); specialize (H3 w);
         unfold compose in H1, H2, H3; unfold exec in *;
         unfold emptied, getElementById_file_count in *;
         by rewrite H1, H2, H3).
  - unfold exec.
    change (dispatch env (AddFiles ?x)) with (Uploader.addFiles x).
    rewrite addFiles_spec. by apply refresh_emptied.
  - destruct Hw as [Hnone Hthumbs].
    unfold exec. cbn [dispatch]. unfold bind, gets. cbn.
    unfold thumbs_shown. rewrite Hthumbs.
    destruct (preview_hidden _); cbn; by destruct (decide _); try lia.
Qed.

Lemma refresh_empty_emptied (w : World) :
  file_count_before (dom w) = None ->
  file_count_after (dom w) = None ->
  files (uploader w) = [] ->
  emptied (dom (snd (refresh w))).
Proof.
  intros Hb Ha Hfs. unfold refresh. rewrite Hfs. cbn.
  unfold emptied, getElementById_file_count. cbn. by rewrite Hb, Ha.
Qed.

(** X28. On a page with no count line outside the preview, a call of
    [addFiles] or [removeFile] that leaves nothing selected removes the
    count line with the rest of the preview. From then on, whatever
    happens on the page, it stays lost and the preview gets no thumbnail:
    every call of [addFiles] that selects a file throws at the write of
    the count, with the file selected but not shown. *)
Theorem count_line_lost (w : World) :
  file_count_before (dom w) = None ->
  file_count_after (dom w) = None ->
  (forall newFiles,
     selection_after (files (uploader w)) newFiles = [] ->
     emptied (dom (exec (Uploader.addFiles newFiles) w))) /\
  (forall index,
     Uploader.splice1 index (files (uploader w)) = [] ->
     emptied (dom (exec (Uploader.removeFile index) w))) /\
  (emptied (dom w) ->
   forall (evs : list Event) (newFiles : list File),
     let w1 := run env w evs in
     let w2 := exec (Uploader.addFiles newFiles) w1 in
     emptied (dom w1) /\
     (selection_after (files (uploader w1)) newFiles <> [] ->
      fst (Uploader.addFiles newFiles w1) = Exc TypeError /\
      files (uploader w2) = selection_after (files (uploader w1)) newFiles /\
      preview_hidden (file_preview (dom w2)) = false /\
      preview_thumbs (file_preview (dom w2)) = [])).
Proof.
  intros Hb Ha. split; [|split].
  - intros newFiles Hsel. unfold exec. rewrite addFiles_spec.
    by apply refresh_empty_emptied.
  - intros index Hsel. unfold exec. rewrite removeFile_spec.
    by apply refresh_empty_emptied.
  - intros Hw evs newFiles. cbv zeta.
    assert (H1 : emptied (dom (run env w evs))).
    { clear Hb Ha. revert w Hw.
      induction evs as [|ev evs IH]; intros w Hw; [done|].
      cbn. apply IH. by apply step_emptied. }
    split; [exact H1|]. intros Hsel.
    destruct H1 as [Hnone Hthumbs].
    rewrite addFiles_uploader. unfold exec. rewrite addFiles_spec.
    unfold refresh. cbn.
    destruct (selection_after _ _) as [|file rest]; [done|].
    rewrite Hnone. by cbn.
Qed.

End PageExtras2.

(* ================================================================== *)
(** * The properties above on concrete pages and requests *)
(* ================================================================== *)

Section CoverageScenarios.
Import Js Client Design Phases.


Lemma escapeHtml_injective_witness :
  Submit.escapeHtml (Some "a<b") = Submit.escapeHtml (Some "a<b") /\
  "a<b" = "a<b".
Proof.
  split; [reflexivity|].
  apply (escapeHtml_injective "a<b" "a<b"). reflexivity.
Defined.

Lemma formatEmailBody_reads_only_witness :
  Submit.formatEmailBody Demo.stray_fields = Submit.formatEmailBody ∅.
Proof.
  apply (formatEmailBody_reads_only Demo.stray_fields ∅).
  intros k Hk.
  repeat (apply elem_of_cons in Hk as [->|Hk]; [vm_compute; reflexivity|]).
  by apply elem_of_nil in Hk.
Defined.

Lemma email_shows_joined_images_witness :
  Submit.formatEmailBody Demo.with_gallery
  = Submit.html_head
    +:+ Design.cat (map Design.section_html
                      (Submit.sections Demo.with_gallery))
    +:+ Design.audio_html Demo.with_gallery
    +:+ (Submit.images_head (num (length Demo.gallery))
         +:+ Design.cat
               (map (fun u => Submit.image_block
                                (Submit.escapeHtml (Some u))
                                (Submit.escapeHtml (Some u))) Demo.gallery)
         +:+ "</div>")
    +:+ Submit.html_foot.
Proof.
  apply (email_shows_joined_images Demo.with_gallery Demo.gallery).
  - discriminate.
  - repeat constructor.
  - vm_compute. discriminate.
  - reflexivity.
Defined.

Lemma submit_handler_message_witness :
  exists e,
    snd (Submit.handler Demo.mail_accepts Demo.inquiry) = Some e /\
    Submit.subject e = "New Project Inquiry: Acme" /\
    Submit.reply_to e = Some "ann@example.org".
Proof.
  destruct (submit_handler_message Demo.mail_accepts Demo.inquiry
              (fst (Submit.handler Demo.mail_accepts Demo.inquiry))
              (Submit.compose
                 (Submit.flatten
                    {[ "company" := Submit.Many ["Acme"];
                       "email" := Submit.Many ["ann@example.org"] ]})))
    as (fields & data & Hp & Hd & Hs & Hr & _).
  - reflexivity.
  - injection Hp as <-. eexists. split; [reflexivity|].
    rewrite Hs, Hr, !Hd. split; vm_compute; reflexivity.
Defined.

Lemma submit_when_every_upload_fails_witness :
  exists a,
    last (exchanged Demo.two_selected
            (exec (on_submit (Demo.endpoints ["a.png"; "b.png"] true))
               Demo.two_selected))
    = Some (submit_request (form_entries (dom Demo.two_selected)), a).
Proof.
  destruct (submit_when_every_upload_fails
              (Demo.endpoints ["a.png"; "b.png"] true) Demo.two_selected)
    as [H _]; [|exact H].
  intros x Hx _. vm_compute in Hx.
  repeat (apply elem_of_cons in Hx as [->|Hx]; [vm_compute; reflexivity|]).
  by apply elem_of_nil in Hx.
Defined.

Lemma accepted_submission_navigates_witness :
  location (browser (exec (on_submit (Demo.endpoints [] true))
                       Demo.two_selected))
  = Some "/thank-you.html".
Proof.
  edestruct (accepted_submission_navigates (Demo.endpoints [] true)
               Demo.two_selected) as [H _].
  - vm_compute. reflexivity.
  - vm_compute. reflexivity.
  - rewrite H. reflexivity.
Defined.

Lemma recording_assembles_chunks_witness :
  audioBlob (recorder
    (run (Demo.endpoints [] true) Demo.recorded_once
       [ ClickRecord true; DataAvailable "second "; DataAvailable "take";
         ClickRecord true; RecorderStopped "." ]))
  = Some {| blob_data := "second take."; blob_type := "audio/webm" |}.
Proof.
  destruct (recording_assembles_chunks (Demo.endpoints [] true)
              Demo.recorded_once "audio/webm" "audio/webm"
              ["second "; "take"] "." true true) as [H _].
  - vm_compute. repeat split; reflexivity.
  - exact H.
Defined.

Lemma microphone_refused_witness :
  alerts (browser (step (Demo.endpoints [] true) (loaded Demo.page 0)
                     (ClickRecord false)))
  = ["Could not access microphone. Please allow microphone access and try again."].
Proof.
  destruct (microphone_refused (Demo.endpoints [] true) (loaded Demo.page 0))
    as (_ & _ & _ & _ & H).
  - reflexivity.
  - reflexivity.
  - exact H.
Defined.

Lemma microphone_granted_witness :
  mimeType (recorder (step (Demo.endpoints [] true) (loaded Demo.page 0)
                        (ClickRecord true)))
  = "audio/webm".
Proof.
  destruct (microphone_granted (Demo.endpoints [] true) (loaded Demo.page 0))
    as (_ & H & _).
  - reflexivity.
  - reflexivity.
  - reflexivity.
  - apply H. reflexivity.
Defined.

Lemma tick_shows_elapsed_witness :
  recording_time (dom
    (run (Demo.endpoints [] true) Demo.recorded_once
       [ ClickRecord true; TimePasses 4200;
         IntervalFires (S (timer_last (browser Demo.recorded_once))) ]))
  = Some "0:04".
Proof.
  rewrite (tick_shows_elapsed (Demo.endpoints [] true) Demo.recorded_once
             "audio/webm" "audio/webm" "0:00" true 4200).
  - vm_compute. reflexivity.
  - vm_compute. repeat split; reflexivity.
  - vm_compute. reflexivity.
Defined.

Lemma recorder_stops_by_itself_witness :
  isRecording (recorder
    (run (Demo.endpoints [] true) Demo.mid_recording
       [ StreamEnded; RecorderStopped EmptyString ]))
  = true.
Proof.
  destruct (recorder_stops_by_itself (Demo.endpoints [] true)
              Demo.mid_recording "audio/webm" "audio/webm"
              ["first take"] EmptyString) as [H _].
  - vm_compute. repeat split; reflexivity.
  - exact H.
Defined.

Lemma preview_shows_selection_witness :
  files (uploader
    (run (Demo.endpoints [] true) (loaded Demo.page_count_outside 0)
       [ AddFiles [ Demo.image "a.png"; Demo.image "b.png";
                    Demo.image "c.png" ];
         ClickRemove 1 ]))
  = [ Demo.image "a.png"; Demo.image "c.png" ].
Proof.
  destruct (preview_shows_selection (Demo.endpoints [] true)
              Demo.page_count_outside 0
              [ AddFiles [ Demo.image "a.png"; Demo.image "b.png";
                           Demo.image "c.png" ] ] 1) as [_ H].
  - left. discriminate.
  - split; reflexivity.
  - change (run ?e ?w [?a; ?b]) with (step e (run e w [a]) b).
    rewrite H; reflexivity.
Defined.

Lemma count_line_lost_witness :
  let env := Demo.endpoints [] true in
  let w1 := run env Demo.selection_emptied
              [ AddFiles [ Demo.image "b.png" ] ] in
  let w2 := exec (Uploader.addFiles [ Demo.image "c.png" ]) w1 in
  fst (Uploader.addFiles [ Demo.image "c.png" ] w1) = Exc TypeError /\
  files (uploader w2) = [ Demo.image "b.png"; Demo.image "c.png" ] /\
  preview_thumbs (file_preview (dom w2)) = [].
Proof.
  cbv zeta.
  destruct (count_line_lost (Demo.endpoints [] true) Demo.selection_emptied)
    as (_ & _ & H).
  - vm_compute. reflexivity.
  - vm_compute. reflexivity.
  - destruct (H ltac:(vm_compute; split; reflexivity)
                [ AddFiles [ Demo.image "b.png" ] ]
                [ Demo.image "c.png" ]) as [_ H'].
    destruct H' as (Hexc & Hfiles & _ & Hthumbs).
    + vm_compute. discriminate.
    + split; [exact Hexc|]. split; [|exact Hthumbs].
      etransitivity; [exact Hfiles|]. vm_compute. reflexivity.
Defined.

End CoverageScenarios.
